(** * Context derivation and caching engine (apis/seo_lab/context_chunking.py)

    A shallow embedding of [ContextChunker], [TASK_STAGE_MAPPING] and
    [get_task_stage], and of the code around them: the context methods of
    [SEOLab_CPG] (crew.py), and [sanitize_filename], the inputs made by
    [create_mock_inputs] and the metadata read by [generate_blog]
    (api_service.py).  The properties follow the definitions.

    Python values are embedded as the tree type [val]; a [dict] with string
    keys is an association list in insertion order, with at most one entry
    per key; a character of a Python string is one [ascii], so the strings
    of the model are those of characters with a code below 256, and
    integers are the only numbers.  Code that can raise returns in the
    error monad [res].  The part of the development that is about object
    identity (module [Store]) embeds the same methods over an explicit heap
    of objects. *)

From Stdlib Require Import String Ascii List ZArith Lia Bool Arith.
From Stdlib Require Import Permutation Sorted.
Import ListNotations.
Local Open Scope string_scope.
Local Open Scope list_scope.

(** ** Python values *)

#[local] Set Warnings "-register-all".

Inductive val : Type :=
| VNone
| VBool (b : bool)
| VInt (z : Z)
| VStr (s : string)
| VList (l : list val)
| VDict (d : list (string * val)).

(** A [dict] whose keys are strings, in insertion order. *)
Definition dict : Type := list (string * val).

(** Exceptions the embedded code can raise. *)
Inductive exn : Type := TypeError | AttributeError.

Inductive res (A : Type) : Type :=
| Ok (a : A)
| Raise (e : exn).
Arguments Ok {A} a.
Arguments Raise {A} e.

Definition bind {A B : Type} (m : res A) (k : A -> res B) : res B :=
  match m with
  | Ok a => k a
  | Raise e => Raise e
  end.

Notation "x <- m ;; k" := (bind m (fun x => k))
  (at level 61, m at next level, right associativity).

(** ** Dictionaries *)

(** [lookup k d] is the value stored under [k], if any. *)
Fixpoint lookup {A : Type} (k : string) (d : list (string * A)) : option A :=
  match d with
  | [] => None
  | (k', v) :: d' => if String.eqb k k' then Some v else lookup k d'
  end.

(** [d.get(k, default)] *)
Definition get {A : Type} (d : list (string * A)) (k : string) (default : A) : A :=
  match lookup k d with
  | Some v => v
  | None => default
  end.

(** [d[k] = v]: an existing key keeps its position, a new key goes last. *)
Fixpoint dict_set {A : Type} (k : string) (v : A) (d : list (string * A))
  : list (string * A) :=
  match d with
  | [] => [(k, v)]
  | (k', v') :: d' =>
      if String.eqb k k' then (k, v) :: d' else (k', v') :: dict_set k v d'
  end.

(** [k in d] *)
Definition mem {A : Type} (k : string) (d : list (string * A)) : bool :=
  match lookup k d with
  | Some _ => true
  | None => false
  end.

(** [list(d.keys())] *)
Definition keys {A : Type} (d : list (string * A)) : list string := map fst d.

(** ** Truth value, slices, [split] and [join] *)

(** [bool(v)]: [None], [False], [0], [''], [[]] and [{}] are false. *)
Definition truthy (v : val) : bool :=
  match v with
  | VNone => false
  | VBool b => b
  | VInt z => negb (Z.eqb z 0)
  | VStr s => negb (String.eqb s "")
  | VList l => match l with [] => false | _ :: _ => true end
  | VDict d => match d with [] => false | _ :: _ => true end
  end.

(** [s[:n]] on a string. *)
Definition str_prefix (n : nat) (s : string) : string := substring 0 n s.

(** [s.split(sep)] for a separator of one character. *)
Fixpoint split (sep : ascii) (s : string) : list string :=
  match s with
  | EmptyString => [""]
  | String c s' =>
      if Ascii.eqb c sep then "" :: split sep s'
      else match split sep s' with
           | [] => [String c ""]
           | piece :: pieces => String c piece :: pieces
           end
  end.

(** [sep.join(pieces)] *)
Fixpoint join (sep : string) (pieces : list string) : string :=
  match pieces with
  | [] => ""
  | [piece] => piece
  | piece :: rest => piece ++ sep ++ join sep rest
  end.

(** [v[:n]]: defined on lists and strings, a [TypeError] elsewhere (on a
    dict Python 3.12 and later raise [KeyError] instead; the model keeps
    the one error). *)
Definition slice_to (n : nat) (v : val) : res val :=
  match v with
  | VList l => Ok (VList (firstn n l))
  | VStr s => Ok (VStr (str_prefix n s))
  | _ => Raise TypeError
  end.

(** [l[:n]] on a list, for an integer [n]: a negative [n] leaves out the
    last [-n] entries. *)
Definition list_prefix {A : Type} (n : Z) (l : list A) : list A :=
  if Z.ltb n 0 then firstn (List.length l - Z.to_nat (- n)) l
  else firstn (Z.to_nat n) l.

(** ** Comparison and ranking *)

(** The integer that a value is in a comparison: [bool] is a subclass of
    [int], with [True] equal to 1 and [False] equal to 0. *)
Definition as_int (v : val) : option Z :=
  match v with
  | VInt z => Some z
  | VBool true => Some 1%Z
  | VBool false => Some 0%Z
  | _ => None
  end.

(** [a == b]: integers by value, strings and lists entry by entry, dicts
    as sets of entries whatever their order; values of different kinds
    are different. *)
Fixpoint py_eq (a b : val) {struct a} : bool :=
  match a, b with
  | VNone, VNone => true
  | VStr s, VStr t => String.eqb s t
  | VList l1, VList l2 =>
      (fix all_eq (l1 l2 : list val) {struct l1} : bool :=
         match l1, l2 with
         | [], [] => true
         | x :: l1', y :: l2' => py_eq x y && all_eq l1' l2'
         | _, _ => false
         end) l1 l2
  | VDict d1, VDict d2 =>
      Nat.eqb (List.length d1) (List.length d2)
      && (fix all_in (d1 : list (string * val)) {struct d1} : bool :=
            match d1 with
            | [] => true
            | (k, v) :: d1' =>
                match lookup k d2 with
                | Some v' => py_eq v v'
                | None => false
                end && all_in d1'
            end) d1
  | _, _ =>
      match as_int a, as_int b with
      | Some x, Some y => Z.eqb x y
      | _, _ => false
      end
  end.

(** [a < b]: defined between two integers, between two strings (by the
    codes of their characters) and between two lists (by the first entries
    that are not equal, or else by length); every other pair raises
    [TypeError], [None] and dicts also against themselves. *)
Fixpoint py_lt (a b : val) {struct a} : res bool :=
  match a, b with
  | VStr s, VStr t => Ok (String.ltb s t)
  | VList l1, VList l2 =>
      (fix first_lt (l1 l2 : list val) {struct l1} : res bool :=
         match l1, l2 with
         | [], [] => Ok false
         | [], _ :: _ => Ok true
         | _ :: _, [] => Ok false
         | x :: l1', y :: l2' =>
             if py_eq x y then first_lt l1' l2' else py_lt x y
         end) l1 l2
  | _, _ =>
      match as_int a, as_int b with
      | Some x, Some y => Ok (Z.ltb x y)
      | _, _ => Raise TypeError
      end
  end.

(** [sorted(l, key=..., reverse=True)] once the keys are computed: a stable
    insertion sort on decorated entries, largest key first.  An entry is put
    in front of the first entry whose key is not larger, so entries with
    equal keys keep the order they had in the input.  A comparison that
    raises ends the sort: a single entry is never compared, and two or more
    entries are ranked when all their keys are integers, or all strings.
    Keys that are lists are ranked when every two of them can be compared;
    which pairs CPython compares is not specified, so when only some pairs
    of list keys can be compared the model raises exactly when the
    insertion meets such a pair. *)
Fixpoint insert_ranked {A : Type} (x : val * A) (l : list (val * A))
  : res (list (val * A)) :=
  match l with
  | [] => Ok [x]
  | y :: l' =>
      below <- py_lt (fst x) (fst y) ;;
      if below : bool then rest <- insert_ranked x l' ;; Ok (y :: rest)
      else Ok (x :: l)
  end.

Fixpoint rank_desc {A : Type} (l : list (val * A)) : res (list (val * A)) :=
  match l with
  | [] => Ok []
  | x :: l' => ranked <- rank_desc l' ;; insert_ranked x ranked
  end.

(** The same ranking on integer keys, where no comparison can raise. *)
Fixpoint insert_desc {A : Type} (x : Z * A) (l : list (Z * A)) : list (Z * A) :=
  match l with
  | [] => [x]
  | y :: l' => if Z.ltb (fst x) (fst y) then y :: insert_desc x l' else x :: l
  end.

Definition sort_desc {A : Type} (l : list (Z * A)) : list (Z * A) :=
  fold_right insert_desc [] l.

(** [[f(x) for x in l]] for an [f] that can raise. *)
Fixpoint map_res {A B : Type} (f : A -> res B) (l : list A) : res (list B) :=
  match l with
  | [] => Ok []
  | x :: l' => y <- f x ;; ys <- map_res f l' ;; Ok (y :: ys)
  end.

(** [lambda x: x.get('Volume', 0)], the sort key of an entry: a value
    without [get] raises [AttributeError]. *)
Definition volume_key (x : val) : res val :=
  match x with
  | VDict d => Ok (get d "Volume" (VInt 0))
  | _ => Raise AttributeError
  end.

(** [sorted(keywords, key=lambda x: x.get('Volume', 0), reverse=True)]: the
    keys of all entries are computed first, then compared. *)
Definition sorted_by_volume (keywords : list val) : res (list val) :=
  ks <- map_res volume_key keywords ;;
  ranked <- rank_desc (combine ks keywords) ;;
  Ok (map snd ranked).

(** ** The task stage resolver *)

Definition TASK_STAGE_MAPPING : list (string * list (string * string)) :=
  [ ("brand_strategist",
      [ ("define_strategy", "strategy"); ("identify_products", "products") ]);
    ("seo_specialist",
      [ ("map_opportunities", "seo"); ("generate_seo_metafields", "seo") ]);
    ("content_strategist", [ ("plan_content", "content") ]);
    ("seo_copywriter", [ ("write_content", "content") ]);
    ("narrative_editor", [ ("refine_narrative", "refinement") ]);
    ("content_reviewer", [ ("review_everything", "review") ]);
    ("visual_consultant", [ ("suggest_elements", "visual") ]) ].

Definition get_task_stage (agent_role task_name : string) : string :=
  get (get TASK_STAGE_MAPPING agent_role []) task_name "general".

(** ** ContextChunker *)

Record ContextChunker : Type := mkChunker {
  full_context : dict;
  context_cache : list (string * dict)
}.

(** [ContextChunker(full_context)] *)
Definition __init__ (full_context : dict) : ContextChunker :=
  mkChunker full_context [].

Definition create_context_chunker (inputs : dict) : ContextChunker :=
  __init__ inputs.

(** [{**base, k1: v1, ..., kn: vn}]: the entries are stored from left to
    right on top of [base]. *)
Definition dict_update {A : Type} (base items : list (string * A))
  : list (string * A) :=
  fold_left (fun d kv => dict_set (fst kv) (snd kv) d) items base.

Section Methods.

Variable self : ContextChunker.

Definition _limit_products (products : val) (max_products : nat) : val :=
  if negb (truthy products) then products
  else match products with
       | VStr s =>
           let sentences := split "." s in
           let limited_sentences := firstn max_products sentences in
           VStr (join ". " limited_sentences ++ ".")
       | _ => products
       end.

Definition _limit_keywords (keywords : val) (max_keywords : Z) : res val :=
  if negb (truthy keywords) then Ok keywords
  else match keywords with
       | VList l =>
           sorted_keywords <- sorted_by_volume l ;;
           Ok (VList (list_prefix max_keywords sorted_keywords))
       | VStr _ | VDict _ => Raise AttributeError
       | _ => Raise TypeError
       end.

Definition _summarize_strategy (strategy_output : val) : res val :=
  if negb (truthy strategy_output) then Ok (VStr "")
  else match strategy_output with
       | VStr s =>
           let summary := str_prefix 200 s in
           Ok (VStr (if Nat.ltb 200 (String.length s)
                     then summary ++ "..." else summary))
       | VList l =>
           let summary := firstn 200 l in
           Ok (VList (if Nat.ltb 200 (List.length l)
                      then summary ++ [VStr "."; VStr "."; VStr "."]
                      else summary))
       | _ => Raise TypeError
       end.

(** The loop of [_summarize_semantic_fields] over [semantic_fields.items()]. *)
Fixpoint summarize_items (items : dict) (summarized : dict) : res dict :=
  match items with
  | [] => Ok summarized
  | (theme, data) :: items' =>
      match data with
      | VDict d =>
          related_google <- slice_to 5 (get d "related_google" (VList [])) ;;
          let search_intent := get d "search_intent" (VStr "") in
          suggested_titles <- slice_to 3 (get d "suggested_titles" (VList [])) ;;
          summarize_items items'
            (dict_set theme
               (VDict [ ("related_google", related_google);
                        ("search_intent", search_intent);
                        ("suggested_titles", suggested_titles) ])
               summarized)
      | _ => summarize_items items' summarized
      end
  end.

Definition _summarize_semantic_fields (semantic_fields : val) : res val :=
  if negb (truthy semantic_fields) then Ok (VDict [])
  else match semantic_fields with
       | VDict d => summarized <- summarize_items d [] ;; Ok (VDict summarized)
       | _ => Raise AttributeError
       end.

Definition _get_strategy_context (base_context : dict) : res dict :=
  Ok (dict_update base_context
        [ ("benchmarks", get (full_context self) "benchmarks" (VStr ""));
          ("blog", get (full_context self) "blog" (VStr ""));
          ("format_recommendations",
            get (full_context self) "format_recommendations" (VStr "")) ]).

Definition _get_products_context (base_context : dict) : res dict :=
  let strategy_output := get (full_context self) "strategy_output" (VStr "") in
  let products :=
    _limit_products (get (full_context self) "products" (VStr "")) 3 in
  strategy_summary <- _summarize_strategy strategy_output ;;
  Ok (dict_update base_context
        [ ("products", products); ("strategy_summary", strategy_summary) ]).

Definition _get_seo_context (base_context : dict) : res dict :=
  let products :=
    _limit_products (get (full_context self) "products" (VStr "")) 3 in
  theme_keywords <-
    _limit_keywords (get (full_context self) "theme_keywords" (VList [])) 5 ;;
  keyword_opportunities <-
    _limit_keywords
      (get (full_context self) "keyword_opportunities" (VList [])) 5 ;;
  semantic_fields <-
    _summarize_semantic_fields
      (get (full_context self) "semantic_fields" (VDict [])) ;;
  Ok (dict_update base_context
        [ ("products", products);
          ("theme_keywords", theme_keywords);
          ("keyword_opportunities", keyword_opportunities);
          ("semantic_fields", semantic_fields) ]).

Definition _get_content_context (base_context : dict) : res dict :=
  let products :=
    _limit_products (get (full_context self) "products" (VStr "")) 3 in
  theme_keywords <-
    _limit_keywords (get (full_context self) "theme_keywords" (VList [])) 5 ;;
  keyword_opportunities <-
    _limit_keywords
      (get (full_context self) "keyword_opportunities" (VList [])) 5 ;;
  semantic_fields <-
    _summarize_semantic_fields
      (get (full_context self) "semantic_fields" (VDict [])) ;;
  Ok (dict_update base_context
        [ ("products", products);
          ("theme_keywords", theme_keywords);
          ("keyword_opportunities", keyword_opportunities);
          ("semantic_fields", semantic_fields);
          ("format_recommendations",
            get (full_context self) "format_recommendations" (VStr ""));
          ("blog", get (full_context self) "blog" (VStr ""));
          ("brief_summary", get (full_context self) "brief_summary" (VStr "")) ]).

Definition _get_refinement_context (base_context : dict) : res dict :=
  Ok (dict_update base_context
        [ ("voice", get (full_context self) "voice" (VStr ""));
          ("benchmarks", get (full_context self) "benchmarks" (VStr ""));
          ("format_recommendations",
            get (full_context self) "format_recommendations" (VStr "")) ]).

Definition _get_review_context (base_context : dict) : res dict :=
  Ok (dict_update base_context
        [ ("products",
            _limit_products (get (full_context self) "products" (VStr "")) 3);
          ("voice", get (full_context self) "voice" (VStr "")) ]).

Definition _get_visual_context (base_context : dict) : res dict :=
  Ok (dict_update base_context
        [ ("brand", get (full_context self) "brand" (VStr ""));
          ("voice", get (full_context self) "voice" (VStr "")) ]).

Definition _adjust_for_agent (agent_role : string) (context : dict) : dict :=
  if String.eqb agent_role "brand_strategist" then
    dict_set "brand_context"
      (VDict [ ("brand", get context "brand" (VStr ""));
               ("voice", get context "voice" (VStr ""));
               ("benchmarks", get context "benchmarks" (VStr "")) ])
      context
  else if String.eqb agent_role "seo_specialist" then
    dict_set "seo_focus"
      (VDict [ ("theme_keywords", get context "theme_keywords" (VList []));
               ("keyword_opportunities",
                 get context "keyword_opportunities" (VList [])) ])
      context
  else if String.eqb agent_role "seo_copywriter" then
    dict_set "content_focus"
      (VDict [ ("format_recommendations",
                 get context "format_recommendations" (VStr ""));
               ("semantic_fields", get context "semantic_fields" (VDict [])) ])
      context
  else context.

(** The base context that all agents need. *)
Definition base_context : dict :=
  [ ("brand", get (full_context self) "brand" (VStr ""));
    ("voice", get (full_context self) "voice" (VStr ""));
    ("theme", get (full_context self) "theme" (VStr ""));
    ("name", get (full_context self) "name" (VStr ""));
    ("preferred_language",
      get (full_context self) "preferred_language" (VStr "pt_BR")) ].

(** The part of [get_minimal_context] that runs on a cache miss, up to the
    store into the cache. *)
Definition build_context (agent_role task_stage : string) : res dict :=
  context <-
    (if String.eqb task_stage "strategy" then
       _get_strategy_context base_context
     else if String.eqb task_stage "products" then
       _get_products_context base_context
     else if String.eqb task_stage "seo" then
       _get_seo_context base_context
     else if String.eqb task_stage "content" then
       _get_content_context base_context
     else if String.eqb task_stage "refinement" then
       _get_refinement_context base_context
     else if String.eqb task_stage "review" then
       _get_review_context base_context
     else if String.eqb task_stage "visual" then
       _get_visual_context base_context
     else Ok base_context) ;;
  Ok (_adjust_for_agent agent_role context).

(** f"{agent_role}_{task_stage}" *)
Definition cache_key (agent_role task_stage : string) : string :=
  agent_role ++ "_" ++ task_stage.

(** Returns the outcome of the call and the chunker after it: a raised
    exception leaves the cache as it was. *)
Definition get_minimal_context (agent_role task_stage : string)
  : res dict * ContextChunker :=
  match lookup (cache_key agent_role task_stage) (context_cache self) with
  | Some context => (Ok context, self)
  | None =>
      match build_context agent_role task_stage with
      | Ok context =>
          (Ok context,
           mkChunker (full_context self)
             (dict_set (cache_key agent_role task_stage) context
                (context_cache self)))
      | Raise e => (Raise e, self)
      end
  end.

Definition get_context_summary : nat * list string * list string :=
  (List.length (context_cache self),
   keys (context_cache self),
   keys (full_context self)).

End Methods.

(** [get_agent_context(agent_role, task_stage, chunker)] *)
Definition get_agent_context (agent_role task_stage : string)
    (chunker : ContextChunker) : res dict * ContextChunker :=
  get_minimal_context chunker agent_role task_stage.

(** [SEOLab_CPG.get_optimized_context] (crew.py) once the chunker is
    initialised: the view lookup by role and task name. *)
Definition get_optimized_context (chunker : ContextChunker)
    (agent_role task_name : string) : res dict * ContextChunker :=
  let task_stage := get_task_stage agent_role task_name in
  get_minimal_context chunker agent_role task_stage.

(** ** The same methods over a store of objects

    Lists and dicts are objects with an identity: a value is either
    immediate or a reference [SRef l] to the object at location [l] of the
    heap.  Allocation appends to the heap, so the locations below the length
    of the heap are the objects that exist; which number a new object gets
    has no meaning beyond its being new.  A reference outside the heap
    behaves like [None]. *)
Module Store.

Definition loc : Type := nat.

Inductive sval : Type :=
| SNone
| SBool (b : bool)
| SInt (z : Z)
| SStr (s : string)
| SRef (l : loc).

Inductive obj : Type :=
| OList (items : list sval)
| ODict (entries : list (string * sval)).

Definition heap : Type := list obj.

(** Computations that read and extend the heap and can raise. *)
Definition M (A : Type) : Type := heap -> res A * heap.

Definition ret {A : Type} (a : A) : M A := fun h => (Ok a, h).

Definition raise {A : Type} (e : exn) : M A := fun h => (Raise e, h).

Definition mbind {A B : Type} (m : M A) (k : A -> M B) : M B :=
  fun h =>
    match m h with
    | (Ok a, h') => k a h'
    | (Raise e, h') => (Raise e, h')
    end.

Notation "x <<- m ;; k" := (mbind m (fun x => k))
  (at level 61, m at next level, right associativity).

(** A new object; its location is the next free one. *)
Definition alloc (o : obj) : M loc :=
  fun h => (Ok (List.length h), h ++ [o]).

(** The heap with the object at [l] replaced by [o]. *)
Fixpoint replace (l : loc) (o : obj) (h : heap) : heap :=
  match h, l with
  | [], _ => []
  | _ :: h', O => o :: h'
  | o' :: h', S l' => o' :: replace l' o h'
  end.

Definition store (l : loc) (o : obj) : M unit :=
  fun h => (Ok tt, replace l o h).

(** The entries of the dict that [v] refers to, when [isinstance(v, dict)]. *)
Definition deref_dict (h : heap) (v : sval) : option (list (string * sval)) :=
  match v with
  | SRef l =>
      match nth_error h l with
      | Some (ODict d) => Some d
      | _ => None
      end
  | _ => None
  end.

(** Use of [v] as a dict: [e] is raised when it is not one. *)
Definition as_dict (e : exn) (v : sval) : M (list (string * sval)) :=
  fun h =>
    match deref_dict h v with
    | Some d => (Ok d, h)
    | None => (Raise e, h)
    end.

Definition truthy (v : sval) : M bool :=
  fun h =>
    (Ok match v with
        | SNone => false
        | SBool b => b
        | SInt z => negb (Z.eqb z 0)
        | SStr s => negb (String.eqb s "")
        | SRef l =>
            match nth_error h l with
            | Some (OList (_ :: _)) | Some (ODict (_ :: _)) => true
            | _ => false
            end
        end, h).

(** The literals [[]] and [{}]: a new object at every evaluation. *)
Definition new_list (items : list sval) : M sval :=
  l <<- alloc (OList items) ;; ret (SRef l).

Definition new_dict (entries : list (string * sval)) : M sval :=
  l <<- alloc (ODict entries) ;; ret (SRef l).

(** [v[:n]]: a string, or a new list. *)
Definition slice_to (n : nat) (v : sval) : M sval :=
  fun h =>
    match v with
    | SStr s => (Ok (SStr (str_prefix n s)), h)
    | SRef l =>
        match nth_error h l with
        | Some (OList items) => new_list (firstn n items) h
        | _ => (Raise TypeError, h)
        end
    | _ => (Raise TypeError, h)
    end.

(** The tree that a stored value stands for, read to depth [fuel]. *)
Fixpoint reify (fuel : nat) (h : heap) (v : sval) : val :=
  match v with
  | SNone => VNone
  | SBool b => VBool b
  | SInt z => VInt z
  | SStr s => VStr s
  | SRef l =>
      match fuel with
      | O => VNone
      | S fuel' =>
          match nth_error h l with
          | Some (OList items) => VList (map (reify fuel' h) items)
          | Some (ODict d) =>
              VDict (map (fun kv => (fst kv, reify fuel' h (snd kv))) d)
          | None => VNone
          end
      end
  end.

(** [v[:n]] on a list, for an integer [n]: a new list. *)
Definition list_prefix_to (n : Z) (v : sval) : M sval :=
  fun h =>
    match v with
    | SRef l =>
        match nth_error h l with
        | Some (OList items) => new_list (list_prefix n items) h
        | _ => (Raise TypeError, h)
        end
    | _ => (Raise TypeError, h)
    end.

(** [x.get('Volume', 0)], the sort key of an entry, read in heap [h] as the
    tree it stands for.  Where no object holds a reference to itself, as
    in every heap made by [inject] and these methods, a chain of references
    is no longer than the heap, so the tree is read in full. *)
Definition volume_key (h : heap) (x : sval) : res val :=
  match x with
  | SRef l =>
      match nth_error h l with
      | Some (ODict d) =>
          Ok (reify (S (List.length h)) h (get d "Volume" (SInt 0)))
      | _ => Raise AttributeError
      end
  | _ => Raise AttributeError
  end.

(** [sorted(...)]: a new list that holds the same records. *)
Definition sorted_by_volume (keywords : list sval) : M sval :=
  fun h =>
    match (ks <- map_res (volume_key h) keywords ;;
           rank_desc (combine ks keywords)) with
    | Ok ranked => new_list (map snd ranked) h
    | Raise e => (Raise e, h)
    end.

Record ContextChunker : Type := mkChunker {
  full_context : loc;
  context_cache : list (string * loc)
}.

Definition __init__ (full_context : loc) : ContextChunker :=
  mkChunker full_context [].

Section Methods.

Variable self : ContextChunker.

(** [self.full_context.get(k, default)] *)
Definition pool_get (k : string) (default : sval) : M sval :=
  d <<- as_dict AttributeError (SRef (full_context self)) ;;
  ret (get d k default).

Definition _limit_products (products : sval) (max_products : nat) : M sval :=
  t <<- truthy products ;;
  if negb t then ret products
  else match products with
       | SStr s =>
           let sentences := split "." s in
           let limited_sentences := firstn max_products sentences in
           ret (SStr (join ". " limited_sentences ++ "."))
       | _ => ret products
       end.

Definition _limit_keywords (keywords : sval) (max_keywords : Z) : M sval :=
  t <<- truthy keywords ;;
  if negb t then ret keywords
  else fun h =>
    match keywords with
    | SRef l =>
        match nth_error h l with
        | Some (OList items) =>
            (sorted_keywords <<- sorted_by_volume items ;;
             list_prefix_to max_keywords sorted_keywords) h
        | _ => (Raise AttributeError, h)
        end
    | SStr _ => (Raise AttributeError, h)
    | _ => (Raise TypeError, h)
    end.

Definition _summarize_strategy (strategy_output : sval) : M sval :=
  t <<- truthy strategy_output ;;
  if negb t then ret (SStr "")
  else fun h =>
    match strategy_output with
    | SStr s =>
        let summary := str_prefix 200 s in
        (Ok (SStr (if Nat.ltb 200 (String.length s)
                   then summary ++ "..." else summary)), h)
    | SRef l =>
        match nth_error h l with
        | Some (OList items) =>
            (summary <<- alloc (OList (firstn 200 items)) ;;
             if Nat.ltb 200 (List.length items) then
               _ <<- store summary
                       (OList (firstn 200 items
                               ++ [SStr "."; SStr "."; SStr "."])) ;;
               ret (SRef summary)
             else ret (SRef summary)) h
        | _ => (Raise TypeError, h)
        end
    | _ => (Raise TypeError, h)
    end.

(** The loop of [_summarize_semantic_fields]; [summarized] is the
    location of the dict under construction. *)
Fixpoint summarize_items (items : list (string * sval)) (summarized : loc)
  : M unit :=
  match items with
  | [] => ret tt
  | (theme, data) :: items' =>
      fun h =>
        match deref_dict h data with
        | Some d =>
            (no_related <<- new_list [] ;;
             related_google <<-
               slice_to 5 (get d "related_google" no_related) ;;
             let search_intent := get d "search_intent" (SStr "") in
             no_titles <<- new_list [] ;;
             suggested_titles <<-
               slice_to 3 (get d "suggested_titles" no_titles) ;;
             entry <<-
               new_dict [ ("related_google", related_google);
                          ("search_intent", search_intent);
                          ("suggested_titles", suggested_titles) ] ;;
             so_far <<- as_dict AttributeError (SRef summarized) ;;
             _ <<- store summarized (ODict (dict_set theme entry so_far)) ;;
             summarize_items items' summarized) h
        | None => summarize_items items' summarized h
        end
  end.

Definition _summarize_semantic_fields (semantic_fields : sval) : M sval :=
  t <<- truthy semantic_fields ;;
  if negb t then new_dict []
  else
    d <<- as_dict AttributeError semantic_fields ;;
    summarized <<- alloc (ODict []) ;;
    _ <<- summarize_items d summarized ;;
    ret (SRef summarized).

(** [{**base_context, k1: v1, ...}]: a new dict. *)
Definition extend (base_context : loc) (items : list (string * sval))
  : M loc :=
  base <<- as_dict TypeError (SRef base_context) ;;
  alloc (ODict (dict_update base items)).

Definition _get_strategy_context (base_context : loc) : M loc :=
  benchmarks <<- pool_get "benchmarks" (SStr "") ;;
  blog <<- pool_get "blog" (SStr "") ;;
  format_recommendations <<- pool_get "format_recommendations" (SStr "") ;;
  extend base_context
    [ ("benchmarks", benchmarks); ("blog", blog);
      ("format_recommendations", format_recommendations) ].

Definition _get_products_context (base_context : loc) : M loc :=
  strategy_output <<- pool_get "strategy_output" (SStr "") ;;
  raw_products <<- pool_get "products" (SStr "") ;;
  products <<- _limit_products raw_products 3 ;;
  strategy_summary <<- _summarize_strategy strategy_output ;;
  extend base_context
    [ ("products", products); ("strategy_summary", strategy_summary) ].

(** The four entries that the seo and the content rule compute alike. *)
Definition seo_entries : M (list (string * sval)) :=
  raw_products <<- pool_get "products" (SStr "") ;;
  products <<- _limit_products raw_products 3 ;;
  no_keywords <<- new_list [] ;;
  raw_theme_keywords <<- pool_get "theme_keywords" no_keywords ;;
  theme_keywords <<- _limit_keywords raw_theme_keywords 5 ;;
  no_opportunities <<- new_list [] ;;
  raw_opportunities <<- pool_get "keyword_opportunities" no_opportunities ;;
  keyword_opportunities <<- _limit_keywords raw_opportunities 5 ;;
  no_fields <<- new_dict [] ;;
  raw_fields <<- pool_get "semantic_fields" no_fields ;;
  semantic_fields <<- _summarize_semantic_fields raw_fields ;;
  ret [ ("products", products);
        ("theme_keywords", theme_keywords);
        ("keyword_opportunities", keyword_opportunities);
        ("semantic_fields", semantic_fields) ].

Definition _get_seo_context (base_context : loc) : M loc :=
  entries <<- seo_entries ;;
  extend base_context entries.

Definition _get_content_context (base_context : loc) : M loc :=
  entries <<- seo_entries ;;
  format_recommendations <<- pool_get "format_recommendations" (SStr "") ;;
  blog <<- pool_get "blog" (SStr "") ;;
  brief_summary <<- pool_get "brief_summary" (SStr "") ;;
  extend base_context
    (entries ++ [ ("format_recommendations", format_recommendations);
                  ("blog", blog);
                  ("brief_summary", brief_summary) ]).

Definition _get_refinement_context (base_context : loc) : M loc :=
  voice <<- pool_get "voice" (SStr "") ;;
  benchmarks <<- pool_get "benchmarks" (SStr "") ;;
  format_recommendations <<- pool_get "format_recommendations" (SStr "") ;;
  extend base_context
    [ ("voice", voice); ("benchmarks", benchmarks);
      ("format_recommendations", format_recommendations) ].

Definition _get_review_context (base_context : loc) : M loc :=
  raw_products <<- pool_get "products" (SStr "") ;;
  products <<- _limit_products raw_products 3 ;;
  voice <<- pool_get "voice" (SStr "") ;;
  extend base_context [ ("products", products); ("voice", voice) ].

Definition _get_visual_context (base_context : loc) : M loc :=
  brand <<- pool_get "brand" (SStr "") ;;
  voice <<- pool_get "voice" (SStr "") ;;
  extend base_context [ ("brand", brand); ("voice", voice) ].

(** [context[k] = {...}]: the dict at [context] is updated in place. *)
Definition set_item (context : loc) (k : string) (v : sval) : M unit :=
  d <<- as_dict TypeError (SRef context) ;;
  store context (ODict (dict_set k v d)).

Definition _adjust_for_agent (agent_role : string) (context : loc) : M loc :=
  if String.eqb agent_role "brand_strategist" then
    d <<- as_dict AttributeError (SRef context) ;;
    brand_context <<-
      new_dict [ ("brand", get d "brand" (SStr ""));
                 ("voice", get d "voice" (SStr ""));
                 ("benchmarks", get d "benchmarks" (SStr "")) ] ;;
    _ <<- set_item context "brand_context" brand_context ;;
    ret context
  else if String.eqb agent_role "seo_specialist" then
    d <<- as_dict AttributeError (SRef context) ;;
    no_keywords <<- new_list [] ;;
    no_opportunities <<- new_list [] ;;
    seo_focus <<-
      new_dict [ ("theme_keywords", get d "theme_keywords" no_keywords);
                 ("keyword_opportunities",
                   get d "keyword_opportunities" no_opportunities) ] ;;
    _ <<- set_item context "seo_focus" seo_focus ;;
    ret context
  else if String.eqb agent_role "seo_copywriter" then
    d <<- as_dict AttributeError (SRef context) ;;
    no_fields <<- new_dict [] ;;
    content_focus <<-
      new_dict [ ("format_recommendations",
                   get d "format_recommendations" (SStr ""));
                 ("semantic_fields", get d "semantic_fields" no_fields) ] ;;
    _ <<- set_item context "content_focus" content_focus ;;
    ret context
  else ret context.

Definition base_context : M loc :=
  brand <<- pool_get "brand" (SStr "") ;;
  voice <<- pool_get "voice" (SStr "") ;;
  theme <<- pool_get "theme" (SStr "") ;;
  name <<- pool_get "name" (SStr "") ;;
  preferred_language <<- pool_get "preferred_language" (SStr "pt_BR") ;;
  alloc (ODict [ ("brand", brand); ("voice", voice); ("theme", theme);
                 ("name", name);
                 ("preferred_language", preferred_language) ]).

(** The part of [get_minimal_context] that runs on a cache miss, up to
    the store into the cache. *)
Definition build_context (agent_role task_stage : string) : M loc :=
  base_context <<- base_context ;;
  context <<-
    (if String.eqb task_stage "strategy" then
       _get_strategy_context base_context
     else if String.eqb task_stage "products" then
       _get_products_context base_context
     else if String.eqb task_stage "seo" then
       _get_seo_context base_context
     else if String.eqb task_stage "content" then
       _get_content_context base_context
     else if String.eqb task_stage "refinement" then
       _get_refinement_context base_context
     else if String.eqb task_stage "review" then
       _get_review_context base_context
     else if String.eqb task_stage "visual" then
       _get_visual_context base_context
     else ret base_context) ;;
  _adjust_for_agent agent_role context.

(** The outcome of the call, the chunker after it and the heap after
    it.  The view is returned as the location of its dict. *)
Definition get_minimal_context (agent_role task_stage : string) (h : heap)
  : res loc * ContextChunker * heap :=
  match lookup (cache_key agent_role task_stage) (context_cache self) with
  | Some context => (Ok context, self, h)
  | None =>
      match build_context agent_role task_stage h with
      | (Ok context, h') =>
          (Ok context,
           mkChunker (full_context self)
             (dict_set (cache_key agent_role task_stage) context
                (context_cache self)),
           h')
      | (Raise e, h') => (Raise e, self, h')
      end
  end.

End Methods.

(** The tree [v] stored as objects: the value that stands for it and the
    heap extended with its lists and dicts. *)
Fixpoint inject (v : val) (h : heap) : sval * heap :=
  match v with
  | VNone => (SNone, h)
  | VBool b => (SBool b, h)
  | VInt z => (SInt z, h)
  | VStr s => (SStr s, h)
  | VList l =>
      let (items, h') :=
        (fix inject_items (l : list val) (h : heap) : list sval * heap :=
           match l with
           | [] => ([], h)
           | x :: l' =>
               let (y, h1) := inject x h in
               let (ys, h2) := inject_items l' h1 in
               (y :: ys, h2)
           end) l h in
      (SRef (List.length h'), h' ++ [OList items])
  | VDict d =>
      let (entries, h') :=
        (fix inject_entries (d : list (string * val)) (h : heap)
           : list (string * sval) * heap :=
           match d with
           | [] => ([], h)
           | (k, x) :: d' =>
               let (y, h1) := inject x h in
               let (ys, h2) := inject_entries d' h1 in
               ((k, y) :: ys, h2)
           end) d h in
      (SRef (List.length h'), h' ++ [ODict entries])
  end.

(** A lookup on a new chunker whose Pool is the tree [pool], with the view
    read back as a tree. *)
Definition lookup_as_tree (pool : list (string * val))
    (agent_role task_stage : string) : res val :=
  let (p, h) := inject (VDict pool) [] in
  match p with
  | SRef l =>
      match get_minimal_context (__init__ l) agent_role task_stage h with
      | (Ok view, _, h') => Ok (reify 6 h' (SRef view))
      | (Raise e, _, _) => Raise e
      end
  | _ => Raise TypeError
  end.

End Store.

(** ** Vocabulary of the properties *)

(** The stage names the derivation rules know; [general] is the fallback. *)
Definition stages : list string :=
  [ "strategy"; "products"; "seo"; "content"; "refinement"; "review";
    "visual"; "general" ].

(** The fields of the base view. *)
Definition base_fields : list string :=
  [ "brand"; "voice"; "theme"; "name"; "preferred_language" ].

(** The roles that [_adjust_for_agent] gives a sub-section, with its key. *)
Definition augmented_roles : list (string * string) :=
  [ ("brand_strategist", "brand_context");
    ("seo_specialist", "seo_focus");
    ("seo_copywriter", "content_focus") ].

(** The Volume a record is ranked by: 0 when it has none. *)
Definition volume (x : val) : Z :=
  match x with
  | VDict d =>
      match lookup "Volume" d with
      | Some (VInt z) => z
      | _ => 0%Z
      end
  | _ => 0%Z
  end.

(** A keyword record: a dict whose Volume, when present, is an integer. *)
Definition is_keyword_record (x : val) : bool :=
  match x with
  | VDict d =>
      match lookup "Volume" d with
      | None | Some (VInt _) => true
      | Some _ => false
      end
  | _ => false
  end.

Definition list_of (v : val) : list val :=
  match v with
  | VList l => l
  | _ => []
  end.

(** A per-theme record whose two sequences, when present, are lists. *)
Definition is_semantic_record (d : dict) : bool :=
  match lookup "related_google" d with
  | None | Some (VList _) => true
  | Some _ => false
  end
  &&
  match lookup "suggested_titles" d with
  | None | Some (VList _) => true
  | Some _ => false
  end.

Fixpoint distinct (l : list string) : bool :=
  match l with
  | [] => true
  | k :: l' => negb (existsb (String.eqb k) l') && distinct l'
  end.

(** A semantic-fields mapping: one entry per theme, and every theme that is
    a mapping is a per-theme record. *)
Definition is_semantic_mapping (semantic_fields : dict) : bool :=
  distinct (keys semantic_fields)
  && forallb (fun kv => match snd kv with
                        | VDict d => is_semantic_record d
                        | _ => true
                        end) semantic_fields.

(** The record [_summarize_semantic_fields] keeps of a per-theme record. *)
Definition reduced_record (d : dict) : val :=
  VDict [ ("related_google",
            VList (firstn 5 (list_of (get d "related_google" (VList [])))));
          ("search_intent", get d "search_intent" (VStr ""));
          ("suggested_titles",
            VList (firstn 3 (list_of (get d "suggested_titles" (VList []))))) ].

(** A Pool whose bulky fields, when present, have the shape the limiting
    policies are written for. *)
Definition well_shaped (pool : dict) : bool :=
  match lookup "theme_keywords" pool with
  | None => true
  | Some v => match v with VList l => forallb is_keyword_record l | _ => false end
  end
  &&
  match lookup "keyword_opportunities" pool with
  | None => true
  | Some v => match v with VList l => forallb is_keyword_record l | _ => false end
  end
  &&
  match lookup "semantic_fields" pool with
  | None => true
  | Some (VDict sf) => is_semantic_mapping sf
  | Some _ => false
  end
  &&
  match lookup "strategy_output" pool with
  | None | Some (VStr _) => true
  | Some _ => false
  end.

(** The answers of a chunker to a sequence of (role, task) requests. *)
Fixpoint serve (chunker : ContextChunker) (requests : list (string * string))
  : list (res dict) :=
  match requests with
  | [] => []
  | (agent_role, task_name) :: requests' =>
      let (answer, chunker') :=
        get_optimized_context chunker agent_role task_name in
      answer :: serve chunker' requests'
  end.

(** A string of [n] copies of the character [c]. *)
Fixpoint replicate (n : nat) (c : ascii) : string :=
  match n with
  | O => ""
  | S n' => String c (replicate n' c)
  end.

(** [c in s] for a character [c]. *)
Fixpoint contains (c : ascii) (s : string) : bool :=
  match s with
  | EmptyString => false
  | String c' s' => Ascii.eqb c c' || contains c s'
  end.

(** A cache is coherent when every entry filed under the key of a role and a
    known stage is the view built for that role and stage. *)
Definition coherent (chunker : ContextChunker) : Prop :=
  forall agent_role task_stage context,
    In task_stage stages ->
    lookup (cache_key agent_role task_stage) (context_cache chunker)
      = Some context ->
    build_context chunker agent_role task_stage = Ok context.

(** Decorated entries in descending order of their keys. *)
Definition ge_key {A : Type} (a b : Z * A) : Prop := (fst b <= fst a)%Z.

(** Entries decorated with the key of their own payload. *)
Definition decorated {A : Type} (key : A -> Z) (l : list (Z * A)) : Prop :=
  Forall (fun p => fst p = key (snd p)) l.

(** What the summary holds for [theme]: the reduced record when the theme is
    a mapping, nothing otherwise. *)
Definition summarized_entry (semantic_fields : dict) (theme : string)
  : option val :=
  match lookup theme semantic_fields with
  | Some (VDict d) => Some (reduced_record d)
  | _ => None
  end.

(** What the base view reads from the Pool: the field, the key of the view
    it fills and the value stored there when the Pool lacks the field. *)
Definition base_reads : list (string * string * val) :=
  [ ("brand", "brand", VStr "");
    ("voice", "voice", VStr "");
    ("theme", "theme", VStr "");
    ("name", "name", VStr "");
    ("preferred_language", "preferred_language", VStr "pt_BR") ].

(** The same for the rule of each stage. *)
Definition stage_reads (task_stage : string) : list (string * string * val) :=
  if String.eqb task_stage "strategy" then
    [ ("benchmarks", "benchmarks", VStr "");
      ("blog", "blog", VStr "");
      ("format_recommendations", "format_recommendations", VStr "") ]
  else if String.eqb task_stage "products" then
    [ ("products", "products", VStr "");
      ("strategy_output", "strategy_summary", VStr "") ]
  else if String.eqb task_stage "seo" then
    [ ("products", "products", VStr "");
      ("theme_keywords", "theme_keywords", VList []);
      ("keyword_opportunities", "keyword_opportunities", VList []);
      ("semantic_fields", "semantic_fields", VDict []) ]
  else if String.eqb task_stage "content" then
    [ ("products", "products", VStr "");
      ("theme_keywords", "theme_keywords", VList []);
      ("keyword_opportunities", "keyword_opportunities", VList []);
      ("semantic_fields", "semantic_fields", VDict []);
      ("format_recommendations", "format_recommendations", VStr "");
      ("blog", "blog", VStr "");
      ("brief_summary", "brief_summary", VStr "") ]
  else if String.eqb task_stage "refinement" then
    [ ("voice", "voice", VStr "");
      ("benchmarks", "benchmarks", VStr "");
      ("format_recommendations", "format_recommendations", VStr "") ]
  else if String.eqb task_stage "review" then
    [ ("products", "products", VStr ""); ("voice", "voice", VStr "") ]
  else if String.eqb task_stage "visual" then
    [ ("brand", "brand", VStr ""); ("voice", "voice", VStr "") ]
  else [].

(** The empty value of a string, a sequence or a mapping. *)
Definition is_empty_value (v : val) : bool :=
  match v with
  | VStr "" | VList [] | VDict [] => true
  | _ => false
  end.

(** The keyword record [{"kw": name, "Volume": v}]. *)
Definition keyword (name : string) (v : Z) : val :=
  VDict [ ("kw", VStr name); ("Volume", VInt v) ].

(** The Pool of the end-to-end scenario: six keyword records, of which the
    scenario fixes the first two. *)
Definition scenario_pool (r3 r4 r5 r6 : val) : dict :=
  [ ("brand", VStr "Acme");
    ("voice", VStr "bold");
    ("theme", VStr "solar panels");
    ("theme_keywords",
      VList [ keyword "solar" 100; keyword "panels" 500; r3; r4; r5; r6 ]);
    ("products", VStr "A. B. C. D. E.") ].

(** [h'] holds every object of [h], and the objects below [n] are in [h']
    what they are in [h]. *)
Definition preserved (n : nat) (h h' : Store.heap) : Prop :=
  List.length h <= List.length h' /\
  forall l, l < n -> nth_error h' l = nth_error h l.

(** A triple for computations over the store: run from a heap of at least
    [n] objects that satisfies [P], the computation changes no object below
    [n], and an outcome [Ok a] satisfies [Q a] in the final heap. *)
Definition hoare {A : Type} (n : nat) (P : Store.heap -> Prop)
    (m : Store.M A) (Q : A -> Store.heap -> Prop) : Prop :=
  forall h,
    n <= List.length h -> P h ->
    preserved n h (snd (m h)) /\
    forall a, fst (m h) = Ok a -> Q a (snd (m h)).

(** The computation changes no object below [n]. *)
Definition safe {A : Type} (n : nat) (m : Store.M A) : Prop :=
  hoare n (fun _ => True) m (fun _ _ => True).

(** The object at [l] is a dict. *)
Definition is_dict (l : Store.loc) (h : Store.heap) : Prop :=
  exists d, nth_error h l = Some (Store.ODict d).

(** The values that the dict at [l] holds. *)
Definition holds (h : Store.heap) (l : Store.loc) (k : string)
    (v : Store.sval) : Prop :=
  exists d, nth_error h l = Some (Store.ODict d) /\ lookup k d = Some v.

(** Every list or dict that the dict at [view] holds was created after the
    heap had the size [n]. *)
Definition fresh_inside (n : nat) (h : Store.heap) (view : Store.loc) : Prop :=
  forall k l, holds h view k (Store.SRef l) -> n <= l.

(** What a rule answers: a dict created after the heap had the size [n]. *)
Definition new_view (n : nat) (view : Store.loc) (h : Store.heap) : Prop :=
  n <= view /\ is_dict view h.

(** What the augmenter leaves: the dict it was given, holding under the key
    of the role, where the role has one, a dict created after the heap had
    the size [n]. *)
Definition augmented (n : nat) (agent_role : string) (context : Store.loc)
    (h : Store.heap) : Prop :=
  is_dict context h /\
  forall section,
    lookup agent_role augmented_roles = Some section ->
    exists l, holds h context section (Store.SRef l) /\ n <= l /\ is_dict l h.

(** The outcome of a lookup on a new chunker, as a value. *)
Definition lookup_value (pool : dict) (agent_role task_stage : string) : res val :=
  match fst (get_minimal_context (__init__ pool) agent_role task_stage) with
  | Ok view => Ok (VDict view)
  | Raise e => Raise e
  end.

(** A Pool with every bulky field filled in. *)
Definition sample_pool : dict :=
  [ ("brand", VStr "Acme");
    ("voice", VStr "bold");
    ("benchmarks", VList [VStr "top ten"]);
    ("products", VStr "A. B. C. D. E.");
    ("strategy_output", VStr "Lead with price.");
    ("theme_keywords",
      VList [ keyword "solar" 100; keyword "panels" 500; keyword "roof" 300;
              keyword "grid" 50; keyword "cost" 300; keyword "tax" 10 ]);
    ("keyword_opportunities", VList [ VDict [("kw", VStr "loan")] ]);
    ("semantic_fields",
      VDict [ ("solar",
                VDict [ ("related_google",
                          VList [ VStr "a"; VStr "b"; VStr "c"; VStr "d";
                                  VStr "e"; VStr "f" ]);
                        ("search_intent", VStr "buy") ]);
              ("note", VStr "not a mapping") ]) ].

(** ** The rest of the service (api_service.py, crew.py) *)

(** The double quote character (code 34). *)
Definition double_quote : ascii := ascii_of_nat 34.

(** The character class of [invalid_chars]: the characters less-than,
    greater-than, colon, double quote, bar, question mark, star, backslash
    and slash. *)
Definition invalid_chars : list ascii :=
  [ "<"; ">"; ":"; double_quote; "|"; "?"; "*"; "\"; "/" ]%char.

(** [c in chars] *)
Definition char_in (c : ascii) (chars : list ascii) : bool :=
  existsb (Ascii.eqb c) chars.

(** [re.sub(class, '', s)] for a class of single characters. *)
Fixpoint remove_chars (chars : list ascii) (s : string) : string :=
  match s with
  | EmptyString => ""
  | String c s' =>
      if char_in c chars then remove_chars chars s'
      else String c (remove_chars chars s')
  end.

(** [s.lstrip(chars)] *)
Fixpoint lstrip (chars : list ascii) (s : string) : string :=
  match s with
  | EmptyString => ""
  | String c s' => if char_in c chars then lstrip chars s' else s
  end.

(** [s.rstrip(chars)] *)
Fixpoint rstrip (chars : list ascii) (s : string) : string :=
  match s with
  | EmptyString => ""
  | String c s' =>
      match rstrip chars s' with
      | EmptyString => if char_in c chars then "" else String c ""
      | rest => String c rest
      end
  end.

(** [s.strip(chars)] *)
Definition strip (chars : list ascii) (s : string) : string :=
  rstrip chars (lstrip chars s).

(** [sanitize_filename] (api_service.py). *)
Definition sanitize_filename (filename : string) : string :=
  let sanitized := remove_chars invalid_chars filename in
  let sanitized := strip [" "; "."]%char sanitized in
  let sanitized := if String.eqb sanitized "" then "untitled" else sanitized in
  if Nat.ltb 200 (String.length sanitized) then str_prefix 200 sanitized
  else sanitized.

(** The fields of [GeneratePayload]; an [Optional] field is an [option]. *)
Record GeneratePayload : Type := mkPayload {
  brand : string;
  topic : string;
  keywords : option (list string);
  outline : option (list string);
  tone : option string;
  wordCount : option Z;
  language : option string;
  additionalContext : option string
}.

(** [x or default] on an optional string: [None] and [''] give the default. *)
Definition str_or (x : option string) (default : string) : string :=
  match x with
  | Some s => if String.eqb s "" then default else s
  | None => default
  end.

(** [x or []] on an optional list. *)
Definition list_or_empty {A : Type} (x : option (list A)) : list A :=
  match x with
  | Some l => l
  | None => []
  end.

(** The [inputs] dictionary that [create_mock_inputs] returns.  The path of
    the temporary brand folder and the reading of the clock are parameters;
    the files the function writes into the folder are not part of the
    model. *)
Definition create_mock_inputs (payload : GeneratePayload)
    (brand_folder macro_name : string) : dict :=
  [ ("themes", VDict [ (topic payload, VStr (topic payload)) ]);
    ("voice", VStr ("Professional voice for " ++ brand payload));
    ("brand", VStr (brand payload));
    ("products",
      VStr (str_or (additionalContext payload)
              ("Products and services from " ++ brand payload)));
    ("blog",
      VStr ("Blog content for " ++ brand payload ++ " focusing on "
            ++ topic payload));
    ("benchmarks", VStr ("Industry benchmarks for " ++ topic payload));
    ("format_recommendations", VStr "HTML format with proper SEO structure");
    ("semantic_fields",
      VList (VStr (topic payload)
             :: map VStr (list_or_empty (keywords payload))));
    ("brand_folder", VStr brand_folder);
    ("macro_name", VStr macro_name);
    ("preferred_language", VStr (str_or (language payload) "pt_BR"));
    ("selected_products", VList []);
    ("selected_product_names", VList []);
    ("context",
      VDict [ ("brand_id", VStr "temp_brand");
              ("brand", VStr (brand payload)) ]) ].

(** [SEOLab_CPG] (crew.py): the fields its context methods use. *)
Module SEOLab_CPG.

Record t : Type := mk {
  brand_folder : string;
  context_chunker : option ContextChunker
}.

Definition initialize_context_chunker (self : t) (inputs : dict) : t :=
  mk (brand_folder self) (Some (__init__ inputs)).

(** The outcome of the call and the crew after it: without a chunker the
    answer is the empty dict. *)
Definition get_optimized_context (self : t) (agent_role task_name : string)
  : res dict * t :=
  match context_chunker self with
  | None => (Ok [], self)
  | Some chunker =>
      let task_stage := get_task_stage agent_role task_name in
      let (answer, chunker') :=
        get_minimal_context chunker agent_role task_stage in
      (answer, mk (brand_folder self) (Some chunker'))
  end.

(** [SEOLab_CPG(brand_folder)] *)
Definition __init__ (brand_folder : string) : t := mk brand_folder None.

(** The answers of a crew to a sequence of (role, task) requests. *)
Fixpoint serve (self : t) (requests : list (string * string))
  : list (res dict) :=
  match requests with
  | [] => []
  | (agent_role, task_name) :: requests' =>
      let (answer, self') := get_optimized_context self agent_role task_name in
      answer :: serve self' requests'
  end.

End SEOLab_CPG.

(** The characters [c] with [c.isspace()], of code below 256. *)
Definition whitespace : list ascii :=
  map ascii_of_nat [ 9; 10; 11; 12; 13; 28; 29; 30; 31; 32; 133; 160 ].

(** The line feed character. *)
Definition newline : ascii := ascii_of_nat 10.

(** [s.replace(old, '')]: the occurrences of [old] are found from left to
    right and do not overlap; [skip] counts the characters of the current
    occurrence still to drop. *)
Fixpoint remove_from (old : string) (skip : nat) (s : string) : string :=
  match s with
  | EmptyString => ""
  | String c s' =>
      match skip with
      | S skip' => remove_from old skip' s'
      | O =>
          if String.prefix old s
          then remove_from old (String.length old - 1) s'
          else String c (remove_from old 0 s')
      end
  end.

Definition remove_all (old s : string) : string :=
  if String.eqb old "" then s else remove_from old 0 s.

(** [[k.strip() for k in keywords_str.split(',') if k.strip()]] *)
Definition split_keywords (keywords_str : string) : list string :=
  filter (fun k => negb (String.eqb k ""))
    (map (strip whitespace) (split "," keywords_str)).

(** The body of the loop of [generate_blog] over the lines of the
    metafields file. *)
Definition parse_meta_line (meta_data : dict) (line : string) : dict :=
  if String.prefix "title:" line then
    dict_set "title"
      (VStr (strip whitespace (remove_all "title:" line))) meta_data
  else if String.prefix "description:" line then
    dict_set "description"
      (VStr (strip whitespace (remove_all "description:" line))) meta_data
  else if String.prefix "keywords:" line then
    let keywords_str := strip whitespace (remove_all "keywords:" line) in
    dict_set "keywords" (VList (map VStr (split_keywords keywords_str)))
      meta_data
  else meta_data.

(** The [meta_data] that [generate_blog] answers with; [metafields_content]
    is the text of the metafields file, [None] when the file does not
    exist. *)
Definition meta_data_of (payload : GeneratePayload)
    (metafields_content : option string) : dict :=
  let meta_data :=
    match metafields_content with
    | Some content =>
        let lines := split newline content in
        fold_left parse_meta_line lines []
    | None => []
    end in
  if negb (truthy (VDict meta_data)) then
    [ ("title", VStr (topic payload ++ " - " ++ brand payload));
      ("description",
        VStr ("Comprehensive guide about " ++ topic payload ++ " for "
              ++ brand payload));
      ("keywords", VList (map VStr (list_or_empty (keywords payload)))) ]
  else meta_data.

(** The table of the resolver as triples (role, task, stage). *)
Definition resolver_entries : list (string * string * string) :=
  flat_map (fun entry =>
              map (fun task => (fst entry, fst task, snd task)) (snd entry))
    TASK_STAGE_MAPPING.

(** The keys that the rule of a stage adds to the base view. *)
Definition stage_additions (task_stage : string) : list string :=
  if String.eqb task_stage "strategy" then
    [ "benchmarks"; "blog"; "format_recommendations" ]
  else if String.eqb task_stage "products" then
    [ "products"; "strategy_summary" ]
  else if String.eqb task_stage "seo" then
    [ "products"; "theme_keywords"; "keyword_opportunities";
      "semantic_fields" ]
  else if String.eqb task_stage "content" then
    [ "products"; "theme_keywords"; "keyword_opportunities";
      "semantic_fields"; "format_recommendations"; "blog"; "brief_summary" ]
  else if String.eqb task_stage "refinement" then
    [ "benchmarks"; "format_recommendations" ]
  else if String.eqb task_stage "review" then [ "products" ]
  else [].

(** The key of the sub-section of a role, for the roles that have one. *)
Definition role_section (agent_role : string) : list string :=
  match lookup agent_role augmented_roles with
  | Some section => [section]
  | None => []
  end.

(** The chunker after a sequence of (role, task) requests. *)
Fixpoint after (chunker : ContextChunker) (requests : list (string * string))
  : ContextChunker :=
  match requests with
  | [] => chunker
  | (agent_role, task_name) :: requests' =>
      after (snd (get_optimized_context chunker agent_role task_name))
        requests'
  end.

(** The number of characters of [s] equal to [c]. *)
Fixpoint count_char (c : ascii) (s : string) : nat :=
  match s with
  | EmptyString => 0
  | String c' s' => (if Ascii.eqb c c' then 1 else 0) + count_char c s'
  end.

(** The length of a list or of a string, 0 for other values. *)
Definition size (v : val) : nat :=
  match v with
  | VList l => List.length l
  | VStr s => String.length s
  | _ => 0
  end.

(** The entries of the summary of a semantic-fields mapping: the reduced
    record of every theme that is a mapping, in the order of the input. *)
Fixpoint reduced_entries (semantic_fields : dict) : dict :=
  match semantic_fields with
  | [] => []
  | (theme, VDict d) :: rest => (theme, reduced_record d) :: reduced_entries rest
  | _ :: rest => reduced_entries rest
  end.

(** Every character of [s] passes the test [p]. *)
Fixpoint all_chars (p : ascii -> bool) (s : string) : bool :=
  match s with
  | EmptyString => true
  | String c s' => p c && all_chars p s'
  end.

(** The first character of [s] is one of [chars]. *)
Definition starts_in (chars : list ascii) (s : string) : bool :=
  match s with
  | EmptyString => false
  | String c _ => char_in c chars
  end.

(** The last character of [s] is one of [chars]. *)
Fixpoint ends_in (chars : list ascii) (s : string) : bool :=
  match s with
  | EmptyString => false
  | String c s' =>
      match s' with
      | EmptyString => char_in c chars
      | String _ _ => ends_in chars s'
      end
  end.

(** The crew as [generate_blog] sets it up: the inputs made from the
    payload, a crew on the brand folder, the chunker of the crew initialised
    with the inputs. *)
Definition service_crew (payload : GeneratePayload)
    (brand_folder macro_name : string) : SEOLab_CPG.t :=
  let inputs := create_mock_inputs payload brand_folder macro_name in
  let seo_lab_cpg := SEOLab_CPG.__init__ brand_folder in
  SEOLab_CPG.initialize_context_chunker seo_lab_cpg inputs.

(** The last of [lines] that starts with [prefix], if there is one. *)
Definition last_with (prefix : string) (lines : list string) : option string :=
  find (String.prefix prefix) (rev lines).

(** A line that the loop of [generate_blog] reads: one that starts with one
    of its three prefixes. *)
Definition recognised (line : string) : bool :=
  existsb (fun prefix => String.prefix prefix line)
    [ "title:"; "description:"; "keywords:" ].

(** ** The rules with the ranking left open

    The methods that rank, once more, with
    [sorted(keywords, key=lambda x: x.get('Volume', 0), reverse=True)] as
    an unknown function [sorted] of the value it is given: whatever it
    answers, and whenever it raises.  The other methods are the ones
    above. *)
Module Ranked.

Section Methods.

Variable sorted : val -> res (list val).
Variable self : ContextChunker.

Definition _limit_keywords (keywords : val) (max_keywords : Z) : res val :=
  if negb (truthy keywords) then Ok keywords
  else
    sorted_keywords <- sorted keywords ;;
    Ok (VList (list_prefix max_keywords sorted_keywords)).

Definition _get_seo_context (base_context : dict) : res dict :=
  let products :=
    _limit_products (get (full_context self) "products" (VStr "")) 3 in
  theme_keywords <-
    _limit_keywords (get (full_context self) "theme_keywords" (VList [])) 5 ;;
  keyword_opportunities <-
    _limit_keywords
      (get (full_context self) "keyword_opportunities" (VList [])) 5 ;;
  semantic_fields <-
    _summarize_semantic_fields
      (get (full_context self) "semantic_fields" (VDict [])) ;;
  Ok (dict_update base_context
        [ ("products", products);
          ("theme_keywords", theme_keywords);
          ("keyword_opportunities", keyword_opportunities);
          ("semantic_fields", semantic_fields) ]).

Definition _get_content_context (base_context : dict) : res dict :=
  let products :=
    _limit_products (get (full_context self) "products" (VStr "")) 3 in
  theme_keywords <-
    _limit_keywords (get (full_context self) "theme_keywords" (VList [])) 5 ;;
  keyword_opportunities <-
    _limit_keywords
      (get (full_context self) "keyword_opportunities" (VList [])) 5 ;;
  semantic_fields <-
    _summarize_semantic_fields
      (get (full_context self) "semantic_fields" (VDict [])) ;;
  Ok (dict_update base_context
        [ ("products", products);
          ("theme_keywords", theme_keywords);
          ("keyword_opportunities", keyword_opportunities);
          ("semantic_fields", semantic_fields);
          ("format_recommendations",
            get (full_context self) "format_recommendations" (VStr ""));
          ("blog", get (full_context self) "blog" (VStr ""));
          ("brief_summary", get (full_context self) "brief_summary" (VStr "")) ]).

Definition build_context (agent_role task_stage : string) : res dict :=
  context <-
    (if String.eqb task_stage "strategy" then
       _get_strategy_context self (base_context self)
     else if String.eqb task_stage "products" then
       _get_products_context self (base_context self)
     else if String.eqb task_stage "seo" then
       _get_seo_context (base_context self)
     else if String.eqb task_stage "content" then
       _get_content_context (base_context self)
     else if String.eqb task_stage "refinement" then
       _get_refinement_context self (base_context self)
     else if String.eqb task_stage "review" then
       _get_review_context self (base_context self)
     else if String.eqb task_stage "visual" then
       _get_visual_context self (base_context self)
     else Ok (base_context self)) ;;
  Ok (_adjust_for_agent agent_role context).

End Methods.

End Ranked.

(** What [sorted(keywords, ...)] answers in the methods above, by the kind
    of value it is given: a string or a dict is iterated and its first
    entry, a string, has no [get]; an integer cannot be iterated. *)
Definition sorted_keywords (keywords : val) : res (list val) :=
  match keywords with
  | VList l => sorted_by_volume l
  | VStr _ | VDict _ => Raise AttributeError
  | _ => Raise TypeError
  end.

(** The bounds that the limiters give to the entries of a view: at most
    five keywords per list, a strategy summary of at most 203 characters,
    at most three periods in the products text. *)
Definition bounded (context : dict) : Prop :=
  (forall k v,
     In k [ "theme_keywords"; "keyword_opportunities" ] ->
     lookup k context = Some v -> size v <= 5) /\
  (forall v, lookup "strategy_summary" context = Some v -> size v <= 203) /\
  (forall s, lookup "products" context = Some (VStr s) ->
             count_char "." s <= 3).

(** * Properties *)

(** ** The two embeddings on examples

    On the sample Pool, and on Pools that make a rule raise, the lookup over
    the store, read back as a tree, is the lookup over trees. *)

Example store_agrees_seo :
  Store.lookup_as_tree sample_pool "seo_specialist" "seo"
    = lookup_value sample_pool "seo_specialist" "seo".
Proof. vm_compute. reflexivity. Qed.

Example store_agrees_content :
  Store.lookup_as_tree sample_pool "seo_copywriter" "content"
    = lookup_value sample_pool "seo_copywriter" "content".
Proof. vm_compute. reflexivity. Qed.

Example store_agrees_strategy :
  Store.lookup_as_tree sample_pool "brand_strategist" "strategy"
    = lookup_value sample_pool "brand_strategist" "strategy".
Proof. vm_compute. reflexivity. Qed.

Example store_agrees_products :
  Store.lookup_as_tree sample_pool "brand_strategist" "products"
    = lookup_value sample_pool "brand_strategist" "products".
Proof. vm_compute. reflexivity. Qed.

Example store_agrees_general :
  Store.lookup_as_tree sample_pool "narrative_editor" "anything"
    = lookup_value sample_pool "narrative_editor" "anything".
Proof. vm_compute. reflexivity. Qed.

Example store_agrees_raise :
  Store.lookup_as_tree [ ("semantic_fields", VList [VStr "solar"]) ]
    "seo_specialist" "seo"
    = lookup_value [ ("semantic_fields", VList [VStr "solar"]) ]
        "seo_specialist" "seo"
  /\ lookup_value [ ("semantic_fields", VList [VStr "solar"]) ]
        "seo_specialist" "seo" = Raise AttributeError.
Proof. vm_compute. split; reflexivity. Qed.

(** ** Strings *)

Lemma str_prefix_all (n : nat) (s : string) :
  String.length s <= n -> str_prefix n s = s.
Proof.
  unfold str_prefix. revert n.
  induction s as [|c s IH]; intros [|n] H; simpl in *; try reflexivity; try lia.
  f_equal. apply IH. lia.
Qed.

Lemma str_prefix_split (n : nat) (s : string) :
  n <= String.length s ->
  exists rest, s = (str_prefix n s ++ rest)%string /\ String.length (str_prefix n s) = n.
Proof.
  unfold str_prefix. revert n.
  induction s as [|c s IH]; intros [|n] H; simpl in *.
  - exists "". split; reflexivity.
  - lia.
  - exists (String c s). split; reflexivity.
  - destruct (IH n) as [rest [E L]]; [lia|].
    exists rest. split; [simpl; f_equal; exact E | simpl; f_equal; exact L].
Qed.

Lemma eqb_empty_length (s : string) :
  String.eqb s "" = true <-> String.length s = 0.
Proof.
  destruct s; simpl; split; intros H; try reflexivity; try discriminate.
Qed.

(** ** C6: prefix summarization *)

(** C6.  A string longer than 200 characters is summarized to its first 200
    characters followed by the marker "..."; a string of at most 200
    characters, the empty string included, is returned as it is. *)
Theorem summarize_strategy_prefix (s : string) :
  (200 < String.length s ->
   exists kept rest,
     s = (kept ++ rest)%string /\ String.length kept = 200 /\
     _summarize_strategy (VStr s) = Ok (VStr (kept ++ "..."))) /\
  (String.length s <= 200 ->
   _summarize_strategy (VStr s) = Ok (VStr s)).
Proof.
  unfold _summarize_strategy, truthy. split; intros H.
  - destruct (str_prefix_split 200 s) as [rest [E L]]; [lia|].
    exists (str_prefix 200 s), rest. repeat split; try assumption.
    destruct (String.eqb s "") eqn:Es.
    + apply eqb_empty_length in Es. lia.
    + simpl. apply Nat.ltb_lt in H. rewrite H. reflexivity.
  - destruct (String.eqb s "") eqn:Es; simpl.
    + apply String.eqb_eq in Es. subst s. reflexivity.
    + assert (Hn : Nat.ltb 200 (String.length s) = false)
        by (apply Nat.ltb_ge; exact H).
      rewrite Hn, str_prefix_all by exact H. reflexivity.
Qed.

Lemma summarize_strategy_prefix_witness :
  (exists kept rest,
     replicate 201 "x" = (kept ++ rest)%string /\ String.length kept = 200 /\
     _summarize_strategy (VStr (replicate 201 "x")) = Ok (VStr (kept ++ "...")))
  /\ _summarize_strategy (VStr "brief") = Ok (VStr "brief").
Proof.
  split.
  - apply (proj1 (summarize_strategy_prefix (replicate 201 "x"))).
    vm_compute. lia.
  - apply (proj2 (summarize_strategy_prefix "brief")). simpl. lia.
Defined.

(** ** Dictionaries *)

Lemma lookup_dict_set_eq {A : Type} (k : string) (v : A) (d : list (string * A)) :
  lookup k (dict_set k v d) = Some v.
Proof.
  induction d as [|[k' v'] d IH]; simpl.
  - rewrite String.eqb_refl. reflexivity.
  - destruct (String.eqb k k') eqn:E; simpl.
    + rewrite String.eqb_refl. reflexivity.
    + rewrite E. exact IH.
Qed.

Lemma lookup_dict_set_neq {A : Type} (k k' : string) (v : A)
    (d : list (string * A)) :
  k <> k' -> lookup k' (dict_set k v d) = lookup k' d.
Proof.
  intros Hne. induction d as [|[k0 v0] d IH]; simpl.
  - destruct (String.eqb k' k) eqn:E; [|reflexivity].
    apply String.eqb_eq in E. congruence.
  - destruct (String.eqb k k0) eqn:E; simpl.
    + apply String.eqb_eq in E. subst k0.
      destruct (String.eqb k' k) eqn:E'; [|reflexivity].
      apply String.eqb_eq in E'. congruence.
    + rewrite IH. reflexivity.
Qed.

Lemma get_default_or_in {A : Type} (d : list (string * A)) (k : string)
    (default : A) :
  get d k default = default \/ In (k, get d k default) d.
Proof.
  unfold get. induction d as [|[k' v'] d IH]; simpl.
  - left. reflexivity.
  - destruct (String.eqb k k') eqn:E.
    + apply String.eqb_eq in E. subst k'. right. left. reflexivity.
    + destruct IH as [IH|IH]; [left; exact IH | right; right; exact IH].
Qed.

(** ** C10: the cache key *)

Lemma contains_append_sep (c : ascii) (r s : string) :
  contains c (r ++ String c s) = true.
Proof.
  induction r as [|a r IH]; simpl.
  - rewrite Ascii.eqb_refl. reflexivity.
  - rewrite IH. apply orb_true_r.
Qed.

Lemma append_sep_inj (c : ascii) (r1 r2 s1 s2 : string) :
  contains c s1 = false -> contains c s2 = false ->
  (r1 ++ String c s1)%string = (r2 ++ String c s2)%string ->
  r1 = r2 /\ s1 = s2.
Proof.
  intros H1 H2. revert r2.
  induction r1 as [|a r1 IH]; intros [|b r2] E; simpl in E.
  - injection E as E. split; [reflexivity | exact E].
  - injection E as _ E. subst s1.
    rewrite contains_append_sep in H1. discriminate.
  - injection E as _ E. subst s2.
    rewrite contains_append_sep in H2. discriminate.
  - injection E as Ea E. destruct (IH r2 E) as [Er Es].
    subst. split; reflexivity.
Qed.

Lemma split_no_sep (c : ascii) (s : string) :
  contains c s = false -> split c s = [s].
Proof.
  induction s as [|a s IH]; simpl; intros H; [reflexivity|].
  apply orb_false_elim in H. destruct H as [Ha Hs].
  rewrite Ascii.eqb_sym, Ha, (IH Hs). reflexivity.
Qed.

Lemma split_append_sep (c : ascii) (r s : string) :
  contains c s = false ->
  exists piece pieces,
    split c (r ++ String c s) = piece :: pieces /\ pieces <> [] /\
    last pieces "" = s.
Proof.
  intros H. induction r as [|a r IH]; simpl.
  - rewrite Ascii.eqb_refl, (split_no_sep c s H).
    exists "", [s]. repeat split. discriminate.
  - destruct IH as [piece [pieces [E [Hne Hl]]]]. rewrite E.
    destruct (Ascii.eqb a c).
    + exists "", (piece :: pieces). repeat split; [discriminate|].
      destruct pieces; [congruence | exact Hl].
    + exists (String a piece), pieces. repeat split; assumption.
Qed.

Lemma stages_no_underscore (stage : string) :
  In stage stages -> contains "_" stage = false.
Proof.
  unfold stages. simpl. intros H.
  repeat (destruct H as [H|H]; [subst stage; reflexivity|]). contradiction.
Qed.

Lemma get_task_stage_in_stages (agent_role task_name : string) :
  In (get_task_stage agent_role task_name) stages.
Proof.
  unfold get_task_stage.
  destruct (get_default_or_in TASK_STAGE_MAPPING agent_role []) as [E|Hin].
  - rewrite E. unfold get. simpl. unfold stages. simpl. tauto.
  - remember (get TASK_STAGE_MAPPING agent_role []) as table eqn:Et.
    clear Et.
    destruct (get_default_or_in table task_name "general") as [E|Hin'].
    + rewrite E. unfold stages. simpl. tauto.
    + remember (get table task_name "general") as stage eqn:Es. clear Es.
      unfold TASK_STAGE_MAPPING in Hin. simpl in Hin.
      repeat (destruct Hin as [Hin|Hin];
              [injection Hin as _ Hin; subst table; simpl in Hin';
               repeat (destruct Hin' as [Hin'|Hin'];
                       [injection Hin' as _ Hin'; subst stage;
                        unfold stages; simpl; tauto|]);
               contradiction|]).
      contradiction.
Qed.

Lemma cache_key_inj (role1 stage1 role2 stage2 : string) :
  In stage1 stages -> In stage2 stages ->
  cache_key role1 stage1 = cache_key role2 stage2 ->
  role1 = role2 /\ stage1 = stage2.
Proof.
  intros H1 H2 E. unfold cache_key in E. simpl in E.
  apply (append_sep_inj "_"); auto using stages_no_underscore.
Qed.

Lemma build_context_same_pool (c1 c2 : ContextChunker)
    (agent_role task_stage : string) :
  full_context c1 = full_context c2 ->
  build_context c1 agent_role task_stage = build_context c2 agent_role task_stage.
Proof.
  destruct c1 as [pool1 cache1], c2 as [pool2 cache2]. simpl.
  intros E. subst pool2. reflexivity.
Qed.

Lemma get_minimal_context_pool (self : ContextChunker)
    (agent_role task_stage : string) :
  full_context (snd (get_minimal_context self agent_role task_stage))
    = full_context self.
Proof.
  unfold get_minimal_context.
  destruct (lookup _ _); [reflexivity|].
  destruct (build_context _ _ _); reflexivity.
Qed.

(** With a coherent cache, a lookup at a known stage answers what a fresh
    derivation answers, and leaves the cache coherent. *)
Lemma get_minimal_context_coherent (self : ContextChunker)
    (agent_role task_stage : string) :
  In task_stage stages -> coherent self ->
  fst (get_minimal_context self agent_role task_stage)
    = build_context self agent_role task_stage
  /\ coherent (snd (get_minimal_context self agent_role task_stage)).
Proof.
  intros Hs Hc. unfold get_minimal_context.
  destruct (lookup (cache_key agent_role task_stage) (context_cache self))
    as [context|] eqn:El.
  - simpl. split; [symmetry; apply (Hc _ _ _ Hs El) | exact Hc].
  - destruct (build_context self agent_role task_stage) as [context|e] eqn:Eb;
      simpl; (split; [reflexivity|]); [|exact Hc].
    intros role' stage' context' Hs' El'. simpl in El'.
    rewrite (build_context_same_pool _ self) by reflexivity.
    destruct (String.eqb (cache_key agent_role task_stage)
                (cache_key role' stage')) eqn:Ek.
    + apply String.eqb_eq in Ek.
      destruct (cache_key_inj _ _ _ _ Hs Hs' Ek) as [Er Est]. subst role' stage'.
      rewrite lookup_dict_set_eq in El'. congruence.
    + apply String.eqb_neq in Ek.
      rewrite (lookup_dict_set_neq _ _ _ _ Ek) in El'.
      apply (Hc _ _ _ Hs' El').
Qed.

Lemma serve_coherent (chunker : ContextChunker)
    (requests : list (string * string)) :
  coherent chunker ->
  serve chunker requests
    = map (fun request =>
             build_context chunker (fst request)
               (get_task_stage (fst request) (snd request)))
          requests.
Proof.
  revert chunker.
  induction requests as [|[agent_role task_name] requests IH];
    intros chunker Hc; simpl; [reflexivity|].
  unfold get_optimized_context.
  pose proof (get_minimal_context_coherent chunker agent_role
                (get_task_stage agent_role task_name)
                (get_task_stage_in_stages _ _) Hc) as [Ef Hc'].
  pose proof (get_minimal_context_pool chunker agent_role
                (get_task_stage agent_role task_name)) as Ep.
  destruct (get_minimal_context chunker agent_role
              (get_task_stage agent_role task_name)) as [answer chunker'].
  simpl in *. subst answer. f_equal.
  rewrite (IH chunker' Hc'). apply map_ext. intros request.
  apply build_context_same_pool. exact Ep.
Qed.

(** C10.  The resolver only answers known stages, no known stage contains an
    underscore, the stage is the last underscore-separated segment of the
    key, the key determines the role and the stage, and every answer served
    through the cache is the view built for the role and stage asked for. *)
Theorem cache_key_injective :
  (forall agent_role task_name,
     In (get_task_stage agent_role task_name) stages) /\
  (forall task_stage, In task_stage stages -> contains "_" task_stage = false) /\
  (forall agent_role task_stage,
     In task_stage stages ->
     last (split "_" (cache_key agent_role task_stage)) "" = task_stage) /\
  (forall role1 stage1 role2 stage2,
     In stage1 stages -> In stage2 stages ->
     cache_key role1 stage1 = cache_key role2 stage2 ->
     role1 = role2 /\ stage1 = stage2) /\
  (forall pool requests,
     serve (__init__ pool) requests
       = map (fun request =>
                build_context (__init__ pool) (fst request)
                  (get_task_stage (fst request) (snd request)))
             requests).
Proof.
  split; [exact get_task_stage_in_stages|].
  split; [exact stages_no_underscore|].
  split.
  - intros agent_role task_stage Hs.
    destruct (split_append_sep "_" agent_role task_stage
                (stages_no_underscore _ Hs))
      as [piece [pieces [E [Hne Hl]]]].
    unfold cache_key. simpl. rewrite E.
    destruct pieces; [congruence | exact Hl].
  - split; [exact cache_key_inj|].
    intros pool requests. apply serve_coherent.
    intros agent_role task_stage context _ El. discriminate El.
Qed.

Lemma cache_key_injective_witness :
  contains "_" "seo" = false /\
  last (split "_" (cache_key "seo_specialist" "seo")) "" = "seo" /\
  ("seo_specialist" = "seo_specialist" /\ "seo" = "seo").
Proof.
  pose proof cache_key_injective as [_ [Hu [Hl [Hi _]]]].
  assert (Hs : In "seo" stages) by (unfold stages; simpl; tauto).
  split; [exact (Hu "seo" Hs)|].
  split; [exact (Hl "seo_specialist" "seo" Hs)|].
  exact (Hi "seo_specialist" "seo" "seo_specialist" "seo" Hs Hs eq_refl).
Defined.

(** ** C1: a repeated lookup *)

(** C1.  A lookup repeated with the same role and stage on the chunker left
    by the first lookup gives the same outcome and leaves the chunker as it
    is; on a chunker whose cache is empty the first outcome is the freshly
    built view.  The same holds for the lookup by role and task name, and
    after any sequence of requests to a new chunker the two answers to a
    repeated request are both the freshly built view.  Over the store, a
    lookup that follows a successful one answers the very same object and
    creates nothing. *)
Theorem get_minimal_context_twice (self : ContextChunker) (agent_role : string) :
  (forall task_stage,
     let first := get_minimal_context self agent_role task_stage in
     let second := get_minimal_context (snd first) agent_role task_stage in
     fst second = fst first /\ snd second = snd first /\
     (context_cache self = [] ->
      fst first = build_context self agent_role task_stage)) /\
  (forall task_name,
     let first := get_optimized_context self agent_role task_name in
     let second := get_optimized_context (snd first) agent_role task_name in
     fst second = fst first /\ snd second = snd first) /\
  (forall requests task_name,
     let fresh :=
       build_context self agent_role (get_task_stage agent_role task_name) in
     serve (__init__ (full_context self))
       (requests ++ [ (agent_role, task_name); (agent_role, task_name) ])
     = serve (__init__ (full_context self)) requests ++ [ fresh; fresh ]) /\
  (forall (chunker : Store.ContextChunker) task_stage h view,
     let first := Store.get_minimal_context chunker agent_role task_stage h in
     fst (fst first) = Ok view ->
     Store.get_minimal_context (snd (fst first)) agent_role task_stage
       (snd first) = first).
Proof.
  assert (H : forall task_stage,
     let first := get_minimal_context self agent_role task_stage in
     let second := get_minimal_context (snd first) agent_role task_stage in
     fst second = fst first /\ snd second = snd first /\
     (context_cache self = [] ->
      fst first = build_context self agent_role task_stage)).
  { intros task_stage. unfold get_minimal_context.
    destruct (lookup (cache_key agent_role task_stage) (context_cache self))
      as [context|] eqn:El.
    - simpl. rewrite El. simpl. repeat split.
      intros Ee. rewrite Ee in El. discriminate El.
    - destruct (build_context self agent_role task_stage) as [context|e] eqn:Eb.
      + simpl. rewrite lookup_dict_set_eq. simpl. repeat split.
      + simpl. rewrite El.
        rewrite Eb. simpl. repeat split. }
  split; [exact H|]. split; [|split].
  - intros task_name. unfold get_optimized_context.
    destruct (H (get_task_stage agent_role task_name)) as [H1 [H2 _]].
    split; assumption.
  - intros requests task_name fresh.
    assert (Hc : coherent (__init__ (full_context self)))
      by (intros role stage context _ El; discriminate El).
    rewrite !(serve_coherent _ _ Hc), map_app. simpl. unfold fresh.
    rewrite (build_context_same_pool (__init__ (full_context self)) self)
      by reflexivity.
    reflexivity.
  - intros chunker task_stage h view. unfold Store.get_minimal_context.
    destruct (lookup (cache_key agent_role task_stage)
                (Store.context_cache chunker)) as [cached|] eqn:El.
    + simpl. rewrite El. reflexivity.
    + destruct (Store.build_context chunker agent_role task_stage h)
        as [[built|e] h'] eqn:Eb; simpl; [|discriminate].
      rewrite lookup_dict_set_eq. reflexivity.
Qed.

Lemma get_minimal_context_twice_witness :
  fst (get_minimal_context (__init__ []) "seo_specialist" "seo")
    = build_context (__init__ []) "seo_specialist" "seo".
Proof.
  apply (proj1 (get_minimal_context_twice (__init__ []) "seo_specialist") "seo").
  reflexivity.
Defined.

(** ** C7: ranked top-N selection *)

Lemma in_firstn {A : Type} (n : nat) (l : list A) (x : A) :
  In x (firstn n l) -> In x l.
Proof.
  revert l. induction n as [|n IH]; intros [|y l]; simpl; try tauto.
  intros [H|H]; [left; exact H | right; apply IH; exact H].
Qed.

Section SortDesc.

Context {A : Type}.

Lemma insert_desc_perm (x : Z * A) (l : list (Z * A)) :
  Permutation (x :: l) (insert_desc x l).
Proof.
  induction l as [|y l IH]; simpl; [apply Permutation_refl|].
  destruct (Z.ltb (fst x) (fst y)); [|apply Permutation_refl].
  eapply Permutation_trans; [apply perm_swap|].
  apply perm_skip. exact IH.
Qed.

Lemma sort_desc_perm (l : list (Z * A)) : Permutation l (sort_desc l).
Proof.
  induction l as [|x l IH]; simpl; [apply Permutation_refl|].
  eapply Permutation_trans; [|apply insert_desc_perm].
  apply perm_skip. exact IH.
Qed.

Lemma insert_desc_sorted (x : Z * A) (l : list (Z * A)) :
  StronglySorted ge_key l -> StronglySorted ge_key (insert_desc x l).
Proof.
  induction 1 as [|y l Hs IH Hall]; simpl.
  - constructor; constructor.
  - destruct (Z.ltb (fst x) (fst y)) eqn:E.
    + apply Z.ltb_lt in E. constructor; [exact IH|].
      apply (Permutation_Forall (insert_desc_perm x l)).
      constructor; [unfold ge_key; lia | exact Hall].
    + apply Z.ltb_ge in E. constructor.
      * constructor; assumption.
      * constructor; [exact E|].
        eapply Forall_impl; [|exact Hall].
        unfold ge_key. intros b Hb. lia.
Qed.

Lemma sort_desc_sorted (l : list (Z * A)) : StronglySorted ge_key (sort_desc l).
Proof.
  induction l as [|x l IH]; simpl; [constructor|].
  apply insert_desc_sorted. exact IH.
Qed.

(** Stability: the entries of any one key come out in the order they
    went in. *)
Lemma insert_desc_stable (z : Z) (x : Z * A) (l : list (Z * A)) :
  StronglySorted ge_key l ->
  filter (fun p => Z.eqb (fst p) z) (insert_desc x l)
    = filter (fun p => Z.eqb (fst p) z) (x :: l).
Proof.
  induction 1 as [|y l Hs IH Hall]; [reflexivity|].
  simpl insert_desc. destruct (Z.ltb (fst x) (fst y)) eqn:E; [|reflexivity].
  apply Z.ltb_lt in E. simpl filter at 1. rewrite IH. simpl.
  destruct (Z.eqb (fst x) z) eqn:Ex; destruct (Z.eqb (fst y) z) eqn:Ey;
    try reflexivity.
  apply Z.eqb_eq in Ex, Ey. lia.
Qed.

Lemma sort_desc_stable (z : Z) (l : list (Z * A)) :
  filter (fun p => Z.eqb (fst p) z) (sort_desc l)
    = filter (fun p => Z.eqb (fst p) z) l.
Proof.
  induction l as [|x l IH]; [reflexivity|].
  simpl sort_desc. rewrite insert_desc_stable by apply sort_desc_sorted.
  simpl. rewrite IH. reflexivity.
Qed.

Variable key : A -> Z.

Lemma decorated_sorted (l : list (Z * A)) :
  decorated key l -> StronglySorted ge_key l ->
  StronglySorted (fun a b => (key b <= key a)%Z) (map snd l).
Proof.
  intros Hd Hs. induction Hs as [|p l Hs IH Hall]; simpl; [constructor|].
  inversion Hd as [|? ? Hp Hd']; subst. constructor; [apply IH; exact Hd'|].
  apply Forall_map. unfold decorated in Hd'.
  rewrite Forall_forall in *. intros q Hq. unfold ge_key in Hall.
  specialize (Hall q Hq). specialize (Hd' q Hq). lia.
Qed.

Lemma decorated_filter (z : Z) (l : list (Z * A)) :
  decorated key l ->
  filter (fun x => Z.eqb (key x) z) (map snd l)
    = map snd (filter (fun p => Z.eqb (fst p) z) l).
Proof.
  induction 1 as [|p l Hp Hd IH]; simpl; [reflexivity|].
  rewrite Hp, IH. destruct (Z.eqb (key (snd p)) z); reflexivity.
Qed.

Lemma combine_map_decorated (l : list A) :
  combine (map key l) l = map (fun x => (key x, x)) l.
Proof.
  induction l as [|x l IH]; simpl; [reflexivity|]. rewrite IH. reflexivity.
Qed.

Lemma map_decorated (l : list A) : decorated key (map (fun x => (key x, x)) l).
Proof.
  unfold decorated. apply Forall_map. apply Forall_forall.
  intros x _. reflexivity.
Qed.

(** The three facts that pin down a stable descending sort. *)
Lemma sort_desc_by_key (l : list A) :
  let ranked := map snd (sort_desc (combine (map key l) l)) in
  Permutation l ranked /\
  StronglySorted (fun a b => (key b <= key a)%Z) ranked /\
  (forall z, filter (fun x => Z.eqb (key x) z) ranked
             = filter (fun x => Z.eqb (key x) z) l).
Proof.
  simpl. rewrite combine_map_decorated.
  set (dl := map (fun x => (key x, x)) l).
  assert (Hl : map snd dl = l).
  { unfold dl. rewrite map_map. simpl. apply map_id. }
  assert (Hd : decorated key (sort_desc dl)).
  { apply (Permutation_Forall (sort_desc_perm dl)). apply map_decorated. }
  split; [|split].
  - rewrite <- Hl at 1. apply Permutation_map. apply sort_desc_perm.
  - apply decorated_sorted; [exact Hd | apply sort_desc_sorted].
  - intros z. rewrite decorated_filter by exact Hd.
    rewrite sort_desc_stable.
    rewrite <- decorated_filter by apply map_decorated.
    fold dl. rewrite Hl. reflexivity.
Qed.

Lemma sorted_distinct_strict (l : list A) :
  StronglySorted (fun a b => (key b <= key a)%Z) l ->
  NoDup (map key l) ->
  StronglySorted (fun a b => (key b < key a)%Z) l.
Proof.
  induction 1 as [|x l Hs IH Hall]; simpl; intros Hn; [constructor|].
  inversion Hn as [|? ? Hx Hn']; subst. constructor; [apply IH; exact Hn'|].
  rewrite Forall_forall in *. intros y Hy. specialize (Hall y Hy).
  assert (key y <> key x).
  { intros E. apply Hx. rewrite <- E. apply in_map. exact Hy. }
  lia.
Qed.

Lemma sorted_firstn (R : A -> A -> Prop) (n : nat) (l : list A) :
  StronglySorted R l -> StronglySorted R (firstn n l).
Proof.
  intros Hs. revert n.
  induction Hs as [|x l Hs IH Hall]; intros [|n]; simpl; try constructor.
  - apply IH.
  - rewrite Forall_forall in *. intros y Hy. apply Hall.
    apply (in_firstn n _ _ Hy).
Qed.

End SortDesc.

Lemma volume_key_record (x : val) :
  is_keyword_record x = true -> volume_key x = Ok (VInt (volume x)).
Proof.
  destruct x as [| | | | |d]; simpl; try discriminate.
  unfold get. destruct (lookup "Volume" d) as [[| | z | | |]|];
    simpl; intros H; try discriminate; reflexivity.
Qed.

Lemma map_res_volume_key (l : list val) :
  forallb is_keyword_record l = true ->
  map_res volume_key l = Ok (map (fun x => VInt (volume x)) l).
Proof.
  induction l as [|x l IH]; simpl; intros H; [reflexivity|].
  apply andb_prop in H. destruct H as [Hx Hl].
  rewrite (volume_key_record x Hx), (IH Hl). reflexivity.
Qed.

(** On integer keys the ranking is the one of [sort_desc], and no
    comparison raises. *)
Lemma insert_ranked_int {A : Type} (x : Z * A) (l : list (Z * A)) :
  insert_ranked (VInt (fst x), snd x)
    (map (fun p => (VInt (fst p), snd p)) l)
  = Ok (map (fun p => (VInt (fst p), snd p)) (insert_desc x l)).
Proof.
  induction l as [|y l IH]; [reflexivity|].
  cbn [map insert_ranked insert_desc fst snd py_lt as_int bind].
  destruct (Z.ltb (fst x) (fst y)); [|reflexivity].
  rewrite IH. reflexivity.
Qed.

Lemma rank_desc_int {A : Type} (l : list (Z * A)) :
  rank_desc (map (fun p => (VInt (fst p), snd p)) l)
  = Ok (map (fun p => (VInt (fst p), snd p)) (sort_desc l)).
Proof.
  induction l as [|x l IH]; [reflexivity|].
  cbn [map rank_desc]. rewrite IH. cbn [bind].
  apply insert_ranked_int.
Qed.

Lemma combine_int_keys {A : Type} (f : A -> Z) (l : list A) :
  combine (map (fun x => VInt (f x)) l) l
  = map (fun p => (VInt (fst p), snd p)) (combine (map f l) l).
Proof.
  induction l as [|x l IH]; [reflexivity|].
  simpl. rewrite IH. reflexivity.
Qed.

Lemma sorted_by_volume_records (l : list val) :
  forallb is_keyword_record l = true ->
  sorted_by_volume l = Ok (map snd (sort_desc (combine (map volume l) l))).
Proof.
  intros H. unfold sorted_by_volume.
  rewrite (map_res_volume_key l H). cbn [bind].
  rewrite combine_int_keys, rank_desc_int. cbn [bind].
  rewrite map_map. reflexivity.
Qed.

Lemma list_prefix_nat {A : Type} (n : nat) (l : list A) :
  list_prefix (Z.of_nat n) l = firstn n l.
Proof.
  unfold list_prefix.
  assert (E : Z.ltb (Z.of_nat n) 0 = false) by (apply Z.ltb_ge; lia).
  rewrite E, Nat2Z.id. reflexivity.
Qed.

(** On keyword records the policy never raises. *)
Lemma limit_keywords_records (l : list val) (max_keywords : Z) :
  forallb is_keyword_record l = true ->
  _limit_keywords (VList l) max_keywords
    = Ok (VList (list_prefix max_keywords
                   (map snd (sort_desc (combine (map volume l) l))))).
Proof.
  intros H. unfold _limit_keywords. destruct l as [|x l].
  - simpl. unfold list_prefix. destruct (Z.ltb max_keywords 0);
      rewrite firstn_nil; reflexivity.
  - cbn [truthy negb]. rewrite (sorted_by_volume_records _ H). reflexivity.
Qed.

(** C7.  On a sequence of keyword records the policy answers the first 5
    entries of the sequence ranked by Volume, largest first: the ranking is
    a rearrangement of the input, a missing Volume counts as 0, and records
    of equal Volume keep their order.  With at least 5 records of pairwise
    distinct Volume the answer has exactly 5 entries in strictly descending
    order; with fewer than 5 records the answer is the whole ranking. *)
Theorem limit_keywords_top (l : list val) :
  forallb is_keyword_record l = true ->
  exists ranked,
    _limit_keywords (VList l) 5 = Ok (VList (firstn 5 ranked)) /\
    Permutation l ranked /\
    StronglySorted (fun a b => (volume b <= volume a)%Z) ranked /\
    (forall d, lookup "Volume" d = None -> volume (VDict d) = 0%Z) /\
    (forall z, filter (fun x => Z.eqb (volume x) z) ranked
               = filter (fun x => Z.eqb (volume x) z) l) /\
    (5 <= List.length l -> NoDup (map volume l) ->
     List.length (firstn 5 ranked) = 5 /\
     StronglySorted (fun a b => (volume b < volume a)%Z) (firstn 5 ranked)) /\
    (List.length l < 5 ->
     firstn 5 ranked = ranked /\ List.length ranked = List.length l).
Proof.
  intros H.
  destruct (sort_desc_by_key volume l) as [Hp [Hs Hst]].
  set (ranked := map snd (sort_desc (combine (map volume l) l))) in *.
  exists ranked. split; [exact (limit_keywords_records l 5 H)|].
  split; [exact Hp|]. split; [exact Hs|].
  split; [intros d Hd; simpl; rewrite Hd; reflexivity|].
  split; [exact Hst|].
  pose proof (Permutation_length Hp) as Hlen.
  split.
  - intros H5 Hn. split.
    + rewrite length_firstn. lia.
    + apply sorted_firstn. apply sorted_distinct_strict; [exact Hs|].
      apply (Permutation_NoDup (Permutation_map volume Hp)). exact Hn.
  - intros H5. split; [apply firstn_all2; lia | lia].
Qed.

Lemma limit_keywords_top_witness :
  exists ranked,
    _limit_keywords
      (VList [ VDict [("kw", VStr "solar"); ("Volume", VInt 100)];
               VDict [("kw", VStr "panels"); ("Volume", VInt 500)];
               VDict [("kw", VStr "roof")] ]) 5
      = Ok (VList (firstn 5 ranked)) /\
    List.length ranked = 3.
Proof.
  destruct (limit_keywords_top
              [ VDict [("kw", VStr "solar"); ("Volume", VInt 100)];
                VDict [("kw", VStr "panels"); ("Volume", VInt 500)];
                VDict [("kw", VStr "roof")] ] eq_refl)
    as [ranked [E [_ [_ [_ [_ [_ Hshort]]]]]]].
  exists ranked. split; [exact E|].
  apply Hshort. simpl. lia.
Defined.

(** ** C8: semantic field summarization *)

Lemma lookup_not_key {A : Type} (k : string) (d : list (string * A)) :
  existsb (String.eqb k) (keys d) = false -> lookup k d = None.
Proof.
  induction d as [|[k' v] d IH]; simpl; [reflexivity|].
  intros H. apply orb_false_elim in H. destruct H as [Hk Hd].
  rewrite Hk. apply IH. exact Hd.
Qed.

Lemma slice_to_record_field (n : nat) (d : dict) (k : string) :
  match lookup k d with
  | None | Some (VList _) => true
  | Some _ => false
  end = true ->
  slice_to n (get d k (VList [])) = Ok (VList (firstn n (list_of (get d k (VList []))))).
Proof.
  unfold get. destruct (lookup k d) as [[| | | | l |]|]; simpl;
    intros H; try discriminate; reflexivity.
Qed.

Lemma summarize_items_entries (items summarized : dict) :
  is_semantic_mapping items = true ->
  exists out,
    summarize_items items summarized = Ok out /\
    forall theme,
      lookup theme out =
      match summarized_entry items theme with
      | Some r => Some r
      | None => lookup theme summarized
      end.
Proof.
  unfold is_semantic_mapping. revert summarized.
  induction items as [|[t data] items IH]; intros summarized H.
  - exists summarized. split; reflexivity.
  - apply andb_prop in H. destruct H as [Hd Hf]. simpl in Hd, Hf.
    apply andb_prop in Hd. destruct Hd as [Ht Hd].
    apply andb_prop in Hf. destruct Hf as [Hr Hf].
    apply negb_true_iff in Ht. pose proof (lookup_not_key t items Ht) as Hn.
    assert (Hrest : (distinct (keys items)
                     && forallb (fun kv => match snd kv with
                                           | VDict d => is_semantic_record d
                                           | _ => true
                                           end) items)%bool = true)
      by (rewrite Hd, Hf; reflexivity).
    assert (Hother : forall out acc,
      (forall theme, lookup theme out =
         match summarized_entry items theme with
         | Some r => Some r
         | None => lookup theme acc
         end) ->
      forall theme, theme <> t ->
        lookup theme acc = lookup theme summarized ->
        lookup theme out =
        match summarized_entry ((t, data) :: items) theme with
        | Some r => Some r
        | None => lookup theme summarized
        end).
    { intros out acc Hout theme Hne Hacc. rewrite Hout.
      unfold summarized_entry. simpl.
      apply String.eqb_neq in Hne. rewrite Hne, Hacc. reflexivity. }
    destruct data as [| | | | |d].
    6: {
      unfold is_semantic_record in Hr. apply andb_prop in Hr.
      destruct Hr as [Hg Hs].
      cbn [summarize_items].
      rewrite (slice_to_record_field 5 d "related_google" Hg).
      rewrite (slice_to_record_field 3 d "suggested_titles" Hs).
      cbn [bind]. fold (reduced_record d).
      destruct (IH (dict_set t (reduced_record d) summarized) Hrest)
        as [out [E Hout]].
      exists out. split; [exact E|]. intros theme.
      destruct (String.eqb theme t) eqn:Et.
      - apply String.eqb_eq in Et. subst theme. rewrite Hout.
        unfold summarized_entry. rewrite Hn. simpl.
        rewrite String.eqb_refl, lookup_dict_set_eq. reflexivity.
      - apply String.eqb_neq in Et.
        apply (Hother out (dict_set t (reduced_record d) summarized) Hout);
          [exact Et|].
        apply lookup_dict_set_neq. congruence. }
    all: cbn [summarize_items];
      destruct (IH summarized Hrest) as [out [E Hout]];
      exists out; (split; [exact E|]); intros theme;
      destruct (String.eqb theme t) eqn:Et;
      [ apply String.eqb_eq in Et; subst theme; rewrite Hout;
        unfold summarized_entry; rewrite Hn; simpl;
        rewrite String.eqb_refl; reflexivity
      | apply String.eqb_neq in Et;
        apply (Hother out summarized Hout); [exact Et | reflexivity] ].
Qed.

(** On a semantic-fields mapping the summary never raises. *)
Lemma summarize_semantic_fields_entries (semantic_fields : dict) :
  is_semantic_mapping semantic_fields = true ->
  exists summarized,
    _summarize_semantic_fields (VDict semantic_fields) = Ok (VDict summarized) /\
    forall theme,
      lookup theme summarized = summarized_entry semantic_fields theme.
Proof.
  intros H. unfold _summarize_semantic_fields.
  destruct semantic_fields as [|entry rest].
  - exists []. split; reflexivity.
  - cbn [truthy negb].
    destruct (summarize_items_entries (entry :: rest) [] H) as [out [E Hout]].
    rewrite E. exists out. split; [reflexivity|].
    intros theme. rewrite Hout.
    destruct (summarized_entry (entry :: rest) theme); reflexivity.
Qed.

(** C8.  The summary of a semantic-fields mapping holds, for each theme that
    is a mapping, the record of the first 5 entries of related_google, the
    whole search_intent and the first 3 entries of suggested_titles, and
    nothing for a theme that is not a mapping; so every record of the
    summary has at most 5 related_google and at most 3 suggested_titles. *)
Theorem summarize_semantic_fields_bounds (semantic_fields : dict) :
  is_semantic_mapping semantic_fields = true ->
  exists summarized,
    _summarize_semantic_fields (VDict semantic_fields) = Ok (VDict summarized) /\
    (forall theme d,
       lookup theme semantic_fields = Some (VDict d) ->
       lookup theme summarized = Some (reduced_record d)) /\
    (forall theme,
       (forall d, lookup theme semantic_fields <> Some (VDict d)) ->
       lookup theme summarized = None) /\
    (forall theme record,
       lookup theme summarized = Some record ->
       exists related_google search_intent suggested_titles,
         record = VDict [ ("related_google", VList related_google);
                          ("search_intent", search_intent);
                          ("suggested_titles", VList suggested_titles) ] /\
         List.length related_google <= 5 /\
         List.length suggested_titles <= 3).
Proof.
  intros H.
  destruct (summarize_semantic_fields_entries semantic_fields H)
    as [summarized [E Hl]].
  exists summarized. split; [exact E|]. split; [|split].
  - intros theme d Hd. rewrite Hl. unfold summarized_entry. rewrite Hd.
    reflexivity.
  - intros theme Hnd. rewrite Hl. unfold summarized_entry.
    destruct (lookup theme semantic_fields) as [[| | | | |d]|]; try reflexivity.
    exfalso. apply (Hnd d). reflexivity.
  - intros theme record Hr. rewrite Hl in Hr. unfold summarized_entry in Hr.
    destruct (lookup theme semantic_fields) as [[| | | | |d]|];
      try discriminate.
    injection Hr as Hr. subst record. unfold reduced_record.
    eexists _, _, _. split; [reflexivity|].
    split; apply firstn_le_length.
Qed.

Lemma summarize_semantic_fields_bounds_witness :
  exists summarized,
    _summarize_semantic_fields
      (VDict [ ("solar",
                 VDict [ ("related_google",
                           VList [ VStr "a"; VStr "b"; VStr "c"; VStr "d";
                                   VStr "e"; VStr "f" ]);
                         ("search_intent", VStr "buy") ]);
               ("note", VStr "not a mapping") ])
      = Ok (VDict summarized) /\
    lookup "note" summarized = None.
Proof.
  destruct (summarize_semantic_fields_bounds
              [ ("solar",
                  VDict [ ("related_google",
                            VList [ VStr "a"; VStr "b"; VStr "c"; VStr "d";
                                    VStr "e"; VStr "f" ]);
                          ("search_intent", VStr "buy") ]);
                ("note", VStr "not a mapping") ] eq_refl)
    as [summarized [E [_ [Hnone _]]]].
  exists summarized. split; [exact E|].
  apply Hnone. intros d. simpl. discriminate.
Defined.

(** ** C9: the content view extends the seo view *)

Lemma content_context_as_seo (self : ContextChunker) (base : dict) :
  _get_content_context self base
  = (seo <- _get_seo_context self base ;;
     Ok (dict_update seo
           [ ("format_recommendations",
               get (full_context self) "format_recommendations" (VStr ""));
             ("blog", get (full_context self) "blog" (VStr ""));
             ("brief_summary",
               get (full_context self) "brief_summary" (VStr "")) ])).
Proof.
  unfold _get_content_context, _get_seo_context.
  destruct (_limit_keywords (get (full_context self) "theme_keywords" _) 5);
    [|reflexivity].
  destruct (_limit_keywords
              (get (full_context self) "keyword_opportunities" _) 5);
    [|reflexivity].
  destruct (_summarize_semantic_fields _); reflexivity.
Qed.

(** C9.  The content rule answers what the seo rule answers, extended with
    format_recommendations, blog and brief_summary as the Pool has them
    (the empty string when absent), and raises where the seo rule raises:
    every other key of the content view, the four additions of the seo rule
    among them, has the value it has in the seo view. *)
Theorem content_extends_seo (self : ContextChunker) (base : dict) :
  _get_content_context self base
  = (seo <- _get_seo_context self base ;;
     Ok (dict_update seo
           [ ("format_recommendations",
               get (full_context self) "format_recommendations" (VStr ""));
             ("blog", get (full_context self) "blog" (VStr ""));
             ("brief_summary",
               get (full_context self) "brief_summary" (VStr "")) ])) /\
  forall seo,
    _get_seo_context self base = Ok seo ->
    exists content,
      _get_content_context self base = Ok content /\
      (forall k,
         In k [ "products"; "theme_keywords"; "keyword_opportunities";
                "semantic_fields" ] ->
         exists v, lookup k seo = Some v /\ lookup k content = Some v) /\
      (forall k,
         ~ In k [ "format_recommendations"; "blog"; "brief_summary" ] ->
         lookup k content = lookup k seo) /\
      lookup "format_recommendations" content
        = Some (get (full_context self) "format_recommendations" (VStr "")) /\
      lookup "blog" content = Some (get (full_context self) "blog" (VStr "")) /\
      lookup "brief_summary" content
        = Some (get (full_context self) "brief_summary" (VStr "")).
Proof.
  split; [apply content_context_as_seo|].
  intros seo Hseo. rewrite content_context_as_seo, Hseo. cbn [bind].
  eexists. split; [reflexivity|].
  assert (Hother : forall k,
    ~ In k [ "format_recommendations"; "blog"; "brief_summary" ] ->
    lookup k
      (dict_update seo
         [ ("format_recommendations",
             get (full_context self) "format_recommendations" (VStr ""));
           ("blog", get (full_context self) "blog" (VStr ""));
           ("brief_summary",
             get (full_context self) "brief_summary" (VStr "")) ])
    = lookup k seo).
  { intros k Hk. unfold dict_update. simpl in *.
    rewrite !lookup_dict_set_neq by (intros E; apply Hk; rewrite E; tauto).
    reflexivity. }
  split; [|split; [exact Hother|]].
  - intros k Hk.
    assert (Hin : exists v, lookup k seo = Some v).
    { unfold _get_seo_context in Hseo.
      destruct (_limit_keywords (get (full_context self) "theme_keywords" _) 5)
        as [tk|]; [|discriminate].
      destruct (_limit_keywords
                  (get (full_context self) "keyword_opportunities" _) 5)
        as [ko|]; [|discriminate].
      destruct (_summarize_semantic_fields _) as [sf|]; [|discriminate].
      cbn [bind] in Hseo. injection Hseo as Hseo. subst seo.
      unfold dict_update. simpl in Hk |- *.
      destruct Hk as [Hk|[Hk|[Hk|[Hk|[]]]]]; subst k; eexists.
      - rewrite !lookup_dict_set_neq by discriminate.
        apply lookup_dict_set_eq.
      - rewrite !lookup_dict_set_neq by discriminate.
        apply lookup_dict_set_eq.
      - rewrite !lookup_dict_set_neq by discriminate.
        apply lookup_dict_set_eq.
      - apply lookup_dict_set_eq. }
    destruct Hin as [v Hv]. exists v. split; [exact Hv|].
    rewrite Hother; [exact Hv|].
    simpl in Hk |- *.
    destruct Hk as [Hk|[Hk|[Hk|[Hk|[]]]]]; subst k;
      intros [E|[E|[E|[]]]]; discriminate E.
  - unfold dict_update. simpl. repeat split.
    + rewrite !lookup_dict_set_neq by discriminate. apply lookup_dict_set_eq.
    + rewrite !lookup_dict_set_neq by discriminate. apply lookup_dict_set_eq.
    + apply lookup_dict_set_eq.
Qed.

Lemma content_extends_seo_witness :
  exists content,
    _get_content_context
      (__init__ [ ("products", VStr "A.B.C.D"); ("blog", VStr "news") ])
      (base_context
         (__init__ [ ("products", VStr "A.B.C.D"); ("blog", VStr "news") ]))
      = Ok content /\
    lookup "blog" content = Some (VStr "news").
Proof.
  destruct (proj2 (content_extends_seo
                     (__init__ [ ("products", VStr "A.B.C.D");
                                 ("blog", VStr "news") ])
                     (base_context
                        (__init__ [ ("products", VStr "A.B.C.D");
                                    ("blog", VStr "news") ])))
              _ eq_refl)
    as [content [E [_ [_ [_ [Hb _]]]]]].
  exists content. split; [exact E | exact Hb].
Defined.

(** ** C4: an unmapped task of a known role *)

Lemma build_context_general (self : ContextChunker) (agent_role : string) :
  build_context self agent_role "general"
    = Ok (_adjust_for_agent agent_role (base_context self)).
Proof. reflexivity. Qed.

(** C4, as stated, fails: for the role brand_strategist an unmapped task
    resolves to general, and the view carries the sub-section brand_context
    next to the fields of the base view. *)
Lemma unknown_task_general_counterexample :
  mem "brand_strategist" TASK_STAGE_MAPPING = true /\
  lookup "unknown_task" (get TASK_STAGE_MAPPING "brand_strategist" []) = None /\
  get_task_stage "brand_strategist" "unknown_task" = "general" /\
  exists view,
    fst (get_optimized_context (__init__ []) "brand_strategist" "unknown_task")
      = Ok view /\
    keys view = base_fields ++ ["brand_context"] /\
    keys view <> base_fields.
Proof.
  repeat split.
  eexists. split; [reflexivity|]. split; [reflexivity|]. discriminate.
Qed.

(** C4, amended.  For a known role and a task that is not mapped for it the
    request resolves to general, and the view is the base view with the
    sub-section of the role where the role has one: its keys are the five
    base fields, followed by brand_context, seo_focus or content_focus for
    brand_strategist, seo_specialist and seo_copywriter, and nothing else
    for the other roles, whose view is the base view itself. *)
Theorem unknown_task_general (pool : dict) (agent_role task_name : string) :
  mem agent_role TASK_STAGE_MAPPING = true ->
  lookup task_name (get TASK_STAGE_MAPPING agent_role []) = None ->
  get_task_stage agent_role task_name = "general" /\
  exists view,
    fst (get_optimized_context (__init__ pool) agent_role task_name) = Ok view /\
    view = _adjust_for_agent agent_role (base_context (__init__ pool)) /\
    (forall k, In k base_fields ->
       lookup k view = lookup k (base_context (__init__ pool))) /\
    match lookup agent_role augmented_roles with
    | Some section => keys view = base_fields ++ [section]
    | None => view = base_context (__init__ pool) /\ keys view = base_fields
    end.
Proof.
  intros _ Htask.
  assert (Hstage : get_task_stage agent_role task_name = "general").
  { unfold get_task_stage, get at 1. rewrite Htask. reflexivity. }
  split; [exact Hstage|].
  unfold get_optimized_context. rewrite Hstage.
  exists (_adjust_for_agent agent_role (base_context (__init__ pool))).
  split; [reflexivity|]. split; [reflexivity|].
  unfold _adjust_for_agent, augmented_roles. cbn [lookup].
  destruct (String.eqb agent_role "brand_strategist").
  { split; [|reflexivity].
    intros k Hk. simpl in Hk.
    repeat (destruct Hk as [Hk|Hk]; [subst k; reflexivity|]). contradiction. }
  destruct (String.eqb agent_role "seo_specialist").
  { split; [|reflexivity].
    intros k Hk. simpl in Hk.
    repeat (destruct Hk as [Hk|Hk]; [subst k; reflexivity|]). contradiction. }
  destruct (String.eqb agent_role "seo_copywriter").
  { split; [|reflexivity].
    intros k Hk. simpl in Hk.
    repeat (destruct Hk as [Hk|Hk]; [subst k; reflexivity|]). contradiction. }
  split; [reflexivity|]. split; reflexivity.
Qed.

Lemma unknown_task_general_witness :
  get_task_stage "narrative_editor" "write_poem" = "general" /\
  exists view,
    fst (get_optimized_context (__init__ [("brand", VStr "Acme")])
           "narrative_editor" "write_poem") = Ok view /\
    keys view = base_fields.
Proof.
  destruct (unknown_task_general [("brand", VStr "Acme")]
              "narrative_editor" "write_poem" eq_refl eq_refl)
    as [Hs [view [E [_ [_ Hk]]]]].
  split; [exact Hs|]. exists view. split; [exact E|].
  simpl in Hk. exact (proj2 Hk).
Defined.

(** ** C3: fields the Pool lacks *)

Lemma adjust_for_agent_other (agent_role : string) (context : dict) (k : string) :
  k <> "brand_context" -> k <> "seo_focus" -> k <> "content_focus" ->
  lookup k (_adjust_for_agent agent_role context) = lookup k context.
Proof.
  intros H1 H2 H3. unfold _adjust_for_agent.
  destruct (String.eqb agent_role "brand_strategist");
    [apply lookup_dict_set_neq; congruence|].
  destruct (String.eqb agent_role "seo_specialist");
    [apply lookup_dict_set_neq; congruence|].
  destruct (String.eqb agent_role "seo_copywriter");
    [apply lookup_dict_set_neq; congruence|].
  reflexivity.
Qed.

Lemma limit_keywords_field (pool : dict) (k : string) :
  match lookup k pool with
  | None => true
  | Some v => match v with VList l => forallb is_keyword_record l | _ => false end
  end = true ->
  exists limited,
    _limit_keywords (get pool k (VList [])) 5 = Ok limited /\
    (lookup k pool = None -> limited = VList []).
Proof.
  unfold get. destruct (lookup k pool) as [[| | | | l |]|]; intros H;
    try discriminate.
  - eexists. split; [apply limit_keywords_records; exact H|]. discriminate.
  - exists (VList []). split; reflexivity.
Qed.

Lemma summarize_semantic_fields_field (pool : dict) :
  match lookup "semantic_fields" pool with
  | None => true
  | Some (VDict sf) => is_semantic_mapping sf
  | Some _ => false
  end = true ->
  exists summarized,
    _summarize_semantic_fields (get pool "semantic_fields" (VDict []))
      = Ok summarized /\
    (lookup "semantic_fields" pool = None -> summarized = VDict []).
Proof.
  unfold get. destruct (lookup "semantic_fields" pool) as [[| | | | |sf]|];
    intros H; try discriminate.
  - destruct (summarize_semantic_fields_entries sf H) as [summarized [E _]].
    eexists. split; [exact E|]. discriminate.
  - exists (VDict []). split; reflexivity.
Qed.

Lemma summarize_strategy_field (pool : dict) :
  match lookup "strategy_output" pool with
  | None | Some (VStr _) => true
  | Some _ => false
  end = true ->
  exists summary,
    _summarize_strategy (get pool "strategy_output" (VStr "")) = Ok summary /\
    (lookup "strategy_output" pool = None -> summary = VStr "").
Proof.
  unfold get. destruct (lookup "strategy_output" pool) as [[| | | s | |]|];
    intros H; try discriminate.
  - unfold _summarize_strategy. destruct (negb (truthy (VStr s)));
      eexists; (split; [reflexivity | discriminate]).
  - exists (VStr ""). split; reflexivity.
Qed.

Lemma limit_keywords_absent (pool : dict) (k : string) (limited : val) :
  lookup k pool = None ->
  _limit_keywords (get pool k (VList [])) 5 = Ok limited ->
  limited = VList [].
Proof.
  unfold get. intros H. rewrite H. simpl. intros E. injection E as <-.
  reflexivity.
Qed.

Lemma summarize_semantic_fields_absent (pool : dict) (summarized : val) :
  lookup "semantic_fields" pool = None ->
  _summarize_semantic_fields (get pool "semantic_fields" (VDict []))
    = Ok summarized ->
  summarized = VDict [].
Proof.
  unfold get. intros H. rewrite H. simpl. intros E. injection E as <-.
  reflexivity.
Qed.

Lemma summarize_strategy_absent (pool : dict) (summary : val) :
  lookup "strategy_output" pool = None ->
  _summarize_strategy (get pool "strategy_output" (VStr "")) = Ok summary ->
  summary = VStr "".
Proof.
  unfold get. intros H. rewrite H. simpl. intros E. injection E as <-.
  reflexivity.
Qed.

(** The four rules that can raise, unfolded. *)
Ltac unfold_rules :=
  unfold build_context,
    _get_strategy_context, _get_products_context, _get_seo_context,
    _get_content_context, _get_refinement_context, _get_review_context,
    _get_visual_context;
  cbn [full_context __init__].

(** One entry of the tables, in a view that is known. *)
Ltac solve_read Hin Habs :=
  injection Hin as <- <- <-;
  rewrite adjust_for_agent_other by discriminate;
  unfold base_context, dict_update, get; cbn [full_context];
  simpl; unfold get; try rewrite Habs;
  try reflexivity;
  match goal with
  | E : _limit_keywords _ _ = Ok _ |- _ =>
      rewrite (limit_keywords_absent _ _ _ Habs E); reflexivity
  | E : _summarize_semantic_fields _ = Ok _ |- _ =>
      rewrite (summarize_semantic_fields_absent _ _ Habs E); reflexivity
  | E : _summarize_strategy _ = Ok _ |- _ =>
      rewrite (summarize_strategy_absent _ _ Habs E); reflexivity
  end.

Ltac solve_reads H :=
  let field := fresh "field" in
  let key := fresh "key" in
  let default := fresh "default" in
  let Hin := fresh "Hin" in
  let Habs := fresh "Habs" in
  repeat (cbn [bind] in H;
          match type of H with
          | context [bind ?m _] =>
              lazymatch m with
              | context [bind _ _] => fail
              | _ => idtac
              end;
              let E := fresh "E" in
              destruct m eqn:E; [|discriminate H]
          end);
  cbn [bind] in H; injection H as <-;
  intros field key default Hin Habs; simpl in Hin;
  repeat (destruct Hin as [Hin|Hin]; [solve_read Hin Habs|]);
  contradiction.

(** A field that the rule of the stage reads and the Pool lacks comes out
    as the value the tables give for it. *)
Lemma build_context_reads (pool : dict) (agent_role task_stage : string)
    (view : dict) :
  build_context (__init__ pool) agent_role task_stage = Ok view ->
  forall field key default,
    In (field, key, default) (base_reads ++ stage_reads task_stage) ->
    lookup field pool = None -> lookup key view = Some default.
Proof.
  intros H. revert H. unfold_rules. unfold stage_reads.
  destruct (String.eqb task_stage "strategy"); [intros H; solve_reads H|].
  destruct (String.eqb task_stage "products"); [intros H; solve_reads H|].
  destruct (String.eqb task_stage "seo"); [intros H; solve_reads H|].
  destruct (String.eqb task_stage "content"); [intros H; solve_reads H|].
  destruct (String.eqb task_stage "refinement"); [intros H; solve_reads H|].
  destruct (String.eqb task_stage "review"); [intros H; solve_reads H|].
  destruct (String.eqb task_stage "visual"); intros H; solve_reads H.
Qed.

(** On a well-shaped Pool no rule raises. *)
Lemma build_context_total (pool : dict) (agent_role task_stage : string) :
  well_shaped pool = true ->
  exists view, build_context (__init__ pool) agent_role task_stage = Ok view.
Proof.
  intros Hw. unfold well_shaped in Hw.
  apply andb_prop in Hw; destruct Hw as [Hw Hso].
  apply andb_prop in Hw; destruct Hw as [Hw Hsf].
  apply andb_prop in Hw; destruct Hw as [Htk Hko].
  destruct (limit_keywords_field pool "theme_keywords" Htk) as [tk [Etk _]].
  destruct (limit_keywords_field pool "keyword_opportunities" Hko)
    as [ko [Eko _]].
  destruct (summarize_semantic_fields_field pool Hsf) as [sf [Esf _]].
  destruct (summarize_strategy_field pool Hso) as [so [Eso _]].
  unfold_rules. rewrite Etk, Eko, Esf, Eso. cbn [bind].
  repeat match goal with
         | |- context [if ?b then _ else _] => destruct b
         end;
    eexists; reflexivity.
Qed.

Lemma reads_default (task_stage field key : string) (default : val) :
  In (field, key, default) (base_reads ++ stage_reads task_stage) ->
  is_empty_value default = true
  \/ (field = "preferred_language" /\ default = VStr "pt_BR").
Proof.
  unfold stage_reads.
  repeat match goal with
         | |- context [if ?b then _ else _] => destruct b
         end;
    simpl; intros Hin;
    repeat (destruct Hin as [Hin|Hin];
            [injection Hin as <- <- <-; auto|]);
    contradiction.
Qed.

Lemma get_minimal_context_fresh (pool : dict) (agent_role task_stage : string) :
  fst (get_minimal_context (__init__ pool) agent_role task_stage)
    = build_context (__init__ pool) agent_role task_stage.
Proof.
  unfold get_minimal_context. simpl.
  destruct (build_context (__init__ pool) agent_role task_stage); reflexivity.
Qed.

(** C3, as stated, fails: in the view derived from the empty Pool the base
    field preferred_language is "pt_BR", which is not an empty value. *)
Lemma absent_fields_default_counterexample :
  exists view,
    fst (get_minimal_context (__init__ []) "content_reviewer" "general")
      = Ok view /\
    lookup "preferred_language" view = Some (VStr "pt_BR") /\
    ~ (forall k, In k base_fields ->
         exists v, lookup k view = Some v /\ is_empty_value v = true).
Proof.
  eexists. split; [reflexivity|]. split; [reflexivity|].
  intros H. destruct (H "preferred_language") as [v [Hv He]].
  - unfold base_fields. simpl. tauto.
  - simpl in Hv. injection Hv as <-. discriminate He.
Qed.

(** C3, amended.  In every view that a rule derives, a field that the rule
    reads and the Pool lacks has the empty value of its type - the empty
    string, the empty sequence or the empty mapping - except
    preferred_language, whose value is then "pt_BR".  No rule raises on a
    Pool whose present fields are well shaped; in the view derived from the
    empty Pool brand, voice, theme and name are the empty string and
    preferred_language is "pt_BR". *)
Theorem absent_fields_default (pool : dict) (agent_role task_stage : string) :
  (forall view,
     fst (get_minimal_context (__init__ pool) agent_role task_stage) = Ok view ->
     forall field key default,
       In (field, key, default) (base_reads ++ stage_reads task_stage) ->
       (is_empty_value default = true
        \/ (field = "preferred_language" /\ default = VStr "pt_BR")) /\
       (lookup field pool = None -> lookup key view = Some default)) /\
  (well_shaped pool = true ->
   exists view,
     fst (get_minimal_context (__init__ pool) agent_role task_stage) = Ok view) /\
  (pool = [] ->
   exists view,
     fst (get_minimal_context (__init__ pool) agent_role task_stage) = Ok view /\
     lookup "brand" view = Some (VStr "") /\
     lookup "voice" view = Some (VStr "") /\
     lookup "theme" view = Some (VStr "") /\
     lookup "name" view = Some (VStr "") /\
     lookup "preferred_language" view = Some (VStr "pt_BR")).
Proof.
  assert (Hfresh :
    fst (get_minimal_context (__init__ pool) agent_role task_stage)
      = build_context (__init__ pool) agent_role task_stage).
  { apply get_minimal_context_fresh. }
  rewrite Hfresh. split; [|split].
  - intros view Hv field key default Hin. split.
    + apply (reads_default task_stage field key default Hin).
    + apply (build_context_reads pool agent_role task_stage view Hv
               field key default Hin).
  - apply build_context_total.
  - intros Hp. subst pool.
    destruct (build_context_total [] agent_role task_stage eq_refl)
      as [view Hv].
    exists view. split; [exact Hv|].
    pose proof (build_context_reads [] agent_role task_stage view Hv) as Hr.
    repeat split;
      [ apply (Hr "brand" "brand" (VStr ""))
      | apply (Hr "voice" "voice" (VStr ""))
      | apply (Hr "theme" "theme" (VStr ""))
      | apply (Hr "name" "name" (VStr ""))
      | apply (Hr "preferred_language" "preferred_language" (VStr "pt_BR")) ];
      solve [simpl; tauto | reflexivity].
Qed.

Lemma absent_fields_default_witness :
  exists view,
    fst (get_minimal_context (__init__ [("brand", VStr "Acme")])
           "seo_specialist" "seo") = Ok view /\
    lookup "theme_keywords" view = Some (VList []) /\
    lookup "preferred_language" view = Some (VStr "pt_BR").
Proof.
  pose proof (absent_fields_default [("brand", VStr "Acme")]
                "seo_specialist" "seo") as [Hreads [Htotal _]].
  destruct (Htotal eq_refl) as [view Hv].
  exists view. split; [exact Hv|]. split.
  - apply (Hreads view Hv "theme_keywords" "theme_keywords" (VList []));
      [simpl; tauto | reflexivity].
  - apply (Hreads view Hv "preferred_language" "preferred_language"
             (VStr "pt_BR")); [simpl; tauto | reflexivity].
Defined.

(** ** C2: the end-to-end scenario *)

(** The head of a ranking is the first input record of the largest Volume. *)
Lemma ranked_head (l ranked : list val) (top : val) (before after : list val) :
  Permutation l ranked ->
  StronglySorted (fun a b => (volume b <= volume a)%Z) ranked ->
  (forall z, filter (fun x => Z.eqb (volume x) z) ranked
             = filter (fun x => Z.eqb (volume x) z) l) ->
  l = before ++ top :: after ->
  Forall (fun x => (volume x < volume top)%Z) before ->
  Forall (fun x => (volume x <= volume top)%Z) after ->
  hd_error ranked = Some top.
Proof.
  intros Hp Hs Hst El Hb Ha.
  destruct ranked as [|x ranked].
  - apply Permutation_sym, Permutation_nil in Hp. subst l.
    destruct before; discriminate El.
  - simpl. f_equal.
    assert (Hx : volume x = volume top).
    { assert (Hle : (volume x <= volume top)%Z).
      { assert (Hin : In x l)
          by (apply (Permutation_in _ (Permutation_sym Hp)); left; reflexivity).
        rewrite El in Hin. apply in_app_or in Hin.
        rewrite Forall_forall in Hb, Ha.
        destruct Hin as [Hin|[Hin|Hin]];
          [specialize (Hb x Hin); lia | subst x; lia | apply Ha; exact Hin]. }
      assert (Hge : (volume top <= volume x)%Z).
      { assert (Hin : In top (x :: ranked)).
        { apply (Permutation_in _ Hp). rewrite El. apply in_or_app.
          right. left. reflexivity. }
        destruct Hin as [Hin|Hin]; [subst x; lia|].
        inversion Hs as [|? ? _ Hall]; subst.
        rewrite Forall_forall in Hall. apply (Hall top Hin). }
      lia. }
    specialize (Hst (volume top)). simpl in Hst.
    rewrite Hx, Z.eqb_refl, El, filter_app in Hst. simpl in Hst.
    rewrite Z.eqb_refl in Hst.
    assert (Hnone : filter (fun y => Z.eqb (volume y) (volume top)) before = []).
    { clear - Hb. induction Hb as [|y before Hy Hb IH]; simpl; [reflexivity|].
      destruct (Z.eqb (volume y) (volume top)) eqn:E; [|exact IH].
      apply Z.eqb_eq in E. lia. }
    rewrite Hnone in Hst. simpl in Hst. injection Hst as Hst _. exact Hst.
Qed.

Lemma build_context_seo (self : ContextChunker) (agent_role : string) :
  build_context self agent_role "seo"
  = (context <- _get_seo_context self (base_context self) ;;
     Ok (_adjust_for_agent agent_role context)).
Proof. reflexivity. Qed.

(** C2, as stated, fails: with any four further records the products field
    of the view is not "A. B. C."; the pieces that [split] leaves keep their
    leading space, so [join] puts two spaces after each period. *)
Lemma scenario_view_counterexample :
  ~ (exists view,
       fst (get_optimized_context
              (__init__ (scenario_pool (keyword "roof" 300) (keyword "grid" 50)
                           (keyword "cost" 300) (keyword "tax" 10)))
              "seo_specialist" "map_opportunities") = Ok view /\
       lookup "products" view = Some (VStr "A. B. C.")).
Proof.
  intros [view [Hv Hp]]. vm_compute in Hv. injection Hv as <-.
  vm_compute in Hp. discriminate Hp.
Qed.

(** C2, amended.  Whatever the four further records are, as long as their
    Volume is at most 500, the request resolves to seo and the view holds
    under theme_keywords the first 5 records of the six ranked by Volume,
    the "panels" record first, under products the string "A.  B.  C." (two
    spaces after each period), and the sub-section seo_focus with the same
    limited list under theme_keywords. *)
Theorem scenario_view (r3 r4 r5 r6 : val) :
  forallb is_keyword_record [r3; r4; r5; r6] = true ->
  Forall (fun r => (volume r <= 500)%Z) [r3; r4; r5; r6] ->
  get_task_stage "seo_specialist" "map_opportunities" = "seo" /\
  exists view ranked,
    fst (get_optimized_context (__init__ (scenario_pool r3 r4 r5 r6))
           "seo_specialist" "map_opportunities") = Ok view /\
    Permutation
      [ keyword "solar" 100; keyword "panels" 500; r3; r4; r5; r6 ] ranked /\
    StronglySorted (fun a b => (volume b <= volume a)%Z) ranked /\
    lookup "theme_keywords" view = Some (VList (firstn 5 ranked)) /\
    List.length (firstn 5 ranked) = 5 /\
    hd_error (firstn 5 ranked) = Some (keyword "panels" 500) /\
    lookup "products" view = Some (VStr "A.  B.  C.") /\
    lookup "seo_focus" view
      = Some (VDict [ ("theme_keywords", VList (firstn 5 ranked));
                      ("keyword_opportunities", VList []) ]).
Proof.
  intros Hrec Hvol. split; [reflexivity|].
  set (six := [ keyword "solar" 100; keyword "panels" 500; r3; r4; r5; r6 ]).
  assert (Hsix : forallb is_keyword_record six = true).
  { unfold six. cbn [forallb]. cbn [forallb] in Hrec. rewrite Hrec.
    reflexivity. }
  pose proof (limit_keywords_records six 5 Hsix) as Elim.
  destruct (sort_desc_by_key volume six) as [Hp [Hs Hst]].
  set (ranked := map snd (sort_desc (combine (map volume six) six))) in *.
  assert (Hlen : List.length ranked = 6).
  { rewrite <- (Permutation_length Hp). reflexivity. }
  assert (Hhd : hd_error ranked = Some (keyword "panels" 500)).
  { apply (ranked_head six ranked (keyword "panels" 500)
             [keyword "solar" 100] [r3; r4; r5; r6] Hp Hs Hst eq_refl).
    - constructor; [simpl; lia | constructor].
    - exact Hvol. }
  unfold get_optimized_context.
  change (get_task_stage "seo_specialist" "map_opportunities") with "seo".
  rewrite get_minimal_context_fresh, build_context_seo.
  unfold _get_seo_context. cbn [full_context __init__].
  change (get (scenario_pool r3 r4 r5 r6) "theme_keywords" (VList []))
    with (VList six).
  rewrite Elim. clearbody ranked. clear Elim.
  exists (_adjust_for_agent "seo_specialist"
            (dict_update (base_context (__init__ (scenario_pool r3 r4 r5 r6)))
               [ ("products", VStr "A.  B.  C.");
                 ("theme_keywords", VList (firstn 5 ranked));
                 ("keyword_opportunities", VList []);
                 ("semantic_fields", VDict []) ])), ranked.
  split; [reflexivity|]. split; [exact Hp|]. split; [exact Hs|].
  split; [reflexivity|].
  split; [rewrite length_firstn; lia|].
  split; [|split; reflexivity].
  destruct ranked as [|x ranked]; [discriminate Hhd | exact Hhd].
Qed.

Lemma scenario_view_witness :
  exists view,
    fst (get_optimized_context
           (__init__ (scenario_pool (keyword "roof" 300) (keyword "grid" 50)
                        (keyword "cost" 300) (keyword "tax" 10)))
           "seo_specialist" "map_opportunities") = Ok view /\
    lookup "products" view = Some (VStr "A.  B.  C.").
Proof.
  destruct (scenario_view (keyword "roof" 300) (keyword "grid" 50)
              (keyword "cost" 300) (keyword "tax" 10) eq_refl)
    as [_ [view [ranked [Hv [_ [_ [_ [_ [_ [Hp _]]]]]]]]]].
  - repeat constructor; simpl; lia.
  - exists view. split; [exact Hv | exact Hp].
Defined.

(** ** C5: object identity *)

Lemma preserved_refl (n : nat) (h : Store.heap) : preserved n h h.
Proof. split; [lia | reflexivity]. Qed.

Lemma preserved_trans (n : nat) (h1 h2 h3 : Store.heap) :
  preserved n h1 h2 -> preserved n h2 h3 -> preserved n h1 h3.
Proof.
  intros [L1 H1] [L2 H2]. split; [lia|].
  intros l Hl. rewrite (H2 l Hl). apply (H1 l Hl).
Qed.

Lemma preserved_alloc (n : nat) (h : Store.heap) (o : Store.obj) :
  n <= List.length h -> preserved n h (h ++ [o]).
Proof.
  intros Hn. split; [rewrite length_app; simpl; lia|].
  intros l Hl. apply nth_error_app1. lia.
Qed.

Lemma replace_length (l : Store.loc) (o : Store.obj) (h : Store.heap) :
  List.length (Store.replace l o h) = List.length h.
Proof.
  revert l. induction h as [|o' h IH]; intros [|l]; simpl; try reflexivity.
  rewrite IH. reflexivity.
Qed.

Lemma replace_other (l l' : Store.loc) (o : Store.obj) (h : Store.heap) :
  l' <> l -> nth_error (Store.replace l o h) l' = nth_error h l'.
Proof.
  revert l l'. induction h as [|o' h IH]; intros [|l] [|l'] Hne; simpl;
    try reflexivity; try congruence.
  apply IH. congruence.
Qed.

Lemma replace_same (l : Store.loc) (o : Store.obj) (h : Store.heap) :
  l < List.length h -> nth_error (Store.replace l o h) l = Some o.
Proof.
  revert l. induction h as [|o' h IH]; intros [|l] Hl; simpl in *;
    try lia; try reflexivity.
  apply IH. lia.
Qed.

Lemma preserved_replace (n : nat) (l : Store.loc) (o : Store.obj)
    (h : Store.heap) :
  n <= l -> preserved n h (Store.replace l o h).
Proof.
  intros Hn. split; [rewrite replace_length; lia|].
  intros l' Hl'. apply replace_other. lia.
Qed.

Section Triples.

Context {A B : Type}.
Variable n : nat.

Lemma hoare_ret (P : Store.heap -> Prop) (a : A)
    (Q : A -> Store.heap -> Prop) :
  (forall h, P h -> Q a h) -> hoare n P (Store.ret a) Q.
Proof.
  intros HQ h _ HP. simpl. split; [apply preserved_refl|].
  intros a' E. injection E as <-. apply HQ. exact HP.
Qed.

Lemma hoare_raise (P : Store.heap -> Prop) (e : exn)
    (Q : A -> Store.heap -> Prop) :
  hoare n P (Store.raise e) Q.
Proof.
  intros h _ _. simpl. split; [apply preserved_refl|]. discriminate.
Qed.

Lemma hoare_bind (P : Store.heap -> Prop) (m : Store.M A)
    (Q : A -> Store.heap -> Prop) (k : A -> Store.M B)
    (R : B -> Store.heap -> Prop) :
  hoare n P m Q -> (forall a, hoare n (Q a) (k a) R) ->
  hoare n P (Store.mbind m k) R.
Proof.
  intros Hm Hk h Hn HP. unfold Store.mbind.
  destruct (Hm h Hn HP) as [Hp HQ].
  destruct (m h) as [[a|e] h1]; simpl in *.
  - destruct Hp as [Hlen Hsame].
    destruct (Hk a h1) as [Hp' HR]; [lia | apply HQ; reflexivity|].
    split; [|exact HR].
    apply (preserved_trans n h h1); [split; assumption | exact Hp'].
  - split; [exact Hp | discriminate].
Qed.

Lemma hoare_conseq (P P' : Store.heap -> Prop) (m : Store.M A)
    (Q Q' : A -> Store.heap -> Prop) :
  hoare n P' m Q' ->
  (forall h, P h -> P' h) -> (forall a h, Q' a h -> Q a h) ->
  hoare n P m Q.
Proof.
  intros Hm HP HQ h Hn Hh. destruct (Hm h Hn (HP h Hh)) as [Hp Hq].
  split; [exact Hp|]. intros a E. apply HQ. apply Hq. exact E.
Qed.

(** A computation that leaves the heap as it is keeps what holds of it. *)
Lemma hoare_read (P : Store.heap -> Prop) (m : Store.M A) :
  (forall h, snd (m h) = h) -> hoare n P m (fun _ h => P h).
Proof.
  intros Hm h _ HP. rewrite Hm. split; [apply preserved_refl|].
  intros a _. exact HP.
Qed.

End Triples.

Lemma hoare_alloc (n : nat) (P : Store.heap -> Prop) (o : Store.obj) :
  hoare n P (Store.alloc o)
    (fun l h => n <= l /\ nth_error h l = Some o).
Proof.
  intros h Hn _. unfold Store.alloc. simpl.
  split; [apply preserved_alloc; exact Hn|].
  intros l E. injection E as <-. split; [exact Hn|].
  rewrite nth_error_app2 by lia. rewrite Nat.sub_diag. reflexivity.
Qed.

Lemma hoare_store (n : nat) (l : Store.loc) (o : Store.obj) :
  n <= l ->
  hoare n (fun h => l < List.length h) (Store.store l o)
    (fun _ h => nth_error h l = Some o).
Proof.
  intros Hl h _ Hin. unfold Store.store. simpl.
  split; [apply preserved_replace; exact Hl|].
  intros _ _. apply replace_same. exact Hin.
Qed.

Section Safe.

Context {A B : Type}.
Variable n : nat.

Lemma safe_intro (m : Store.M A) :
  (forall h, n <= List.length h -> preserved n h (snd (m h))) -> safe n m.
Proof. intros H h Hn _. split; [apply H; exact Hn | auto]. Qed.

Lemma safe_elim (m : Store.M A) (h : Store.heap) :
  safe n m -> n <= List.length h -> preserved n h (snd (m h)).
Proof. intros H Hn. apply (H h Hn I). Qed.

Lemma safe_of_hoare (m : Store.M A) (Q : A -> Store.heap -> Prop) :
  hoare n (fun _ => True) m Q -> safe n m.
Proof.
  intros H. apply (hoare_conseq n _ _ m _ _ H); auto.
Qed.

Lemma safe_ret (a : A) : safe n (Store.ret a).
Proof. apply hoare_ret. auto. Qed.

Lemma safe_raise (e : exn) : safe n (@Store.raise A e).
Proof. apply hoare_raise. Qed.

Lemma safe_read (m : Store.M A) : (forall h, snd (m h) = h) -> safe n m.
Proof.
  intros H. apply safe_intro. intros h _. rewrite H. apply preserved_refl.
Qed.

Lemma safe_bind (m : Store.M A) (k : A -> Store.M B) :
  safe n m -> (forall a, safe n (k a)) -> safe n (Store.mbind m k).
Proof. intros Hm Hk. apply (hoare_bind n _ m _ k _ Hm). exact Hk. Qed.

(** A known fact about the outcome of [m] may be used for what follows. *)
Lemma safe_bind_post (m : Store.M A) (k : A -> Store.M B)
    (F : A -> Prop) :
  hoare n (fun _ => True) m (fun a _ => F a) ->
  (forall a, F a -> safe n (k a)) ->
  safe n (Store.mbind m k).
Proof.
  intros Hm Hk. apply (hoare_bind n _ m _ k _ Hm).
  intros a h Hn Fa. apply (Hk a Fa h Hn I).
Qed.

End Safe.

Lemma safe_alloc (n : nat) (o : Store.obj) : safe n (Store.alloc o).
Proof. apply (safe_of_hoare n _ _ (hoare_alloc n _ o)). Qed.

Lemma safe_alloc_bind {B : Type} (n : nat) (o : Store.obj)
    (k : Store.loc -> Store.M B) :
  (forall l, n <= l -> safe n (k l)) -> safe n (Store.mbind (Store.alloc o) k).
Proof.
  intros Hk. apply (safe_bind_post n _ k (fun l => n <= l)); [|exact Hk].
  apply (hoare_conseq n _ _ _ _ _ (hoare_alloc n (fun _ => True) o)); auto.
  intros l h [Hl _]. exact Hl.
Qed.

Lemma safe_store (n : nat) (l : Store.loc) (o : Store.obj) :
  n <= l -> safe n (Store.store l o).
Proof.
  intros Hl. apply safe_intro. intros h _. apply preserved_replace. exact Hl.
Qed.

Lemma safe_truthy (n : nat) (v : Store.sval) : safe n (Store.truthy v).
Proof. apply safe_read. reflexivity. Qed.

Lemma safe_as_dict (n : nat) (e : exn) (v : Store.sval) :
  safe n (Store.as_dict e v).
Proof.
  apply safe_read. intros h. unfold Store.as_dict.
  destruct (Store.deref_dict h v); reflexivity.
Qed.

Lemma safe_new_list (n : nat) (items : list Store.sval) :
  safe n (Store.new_list items).
Proof. apply safe_bind; [apply safe_alloc | intros; apply safe_ret]. Qed.

Lemma safe_new_dict (n : nat) (entries : list (string * Store.sval)) :
  safe n (Store.new_dict entries).
Proof. apply safe_bind; [apply safe_alloc | intros; apply safe_ret]. Qed.

Lemma safe_slice_to (n k : nat) (v : Store.sval) : safe n (Store.slice_to k v).
Proof.
  apply safe_intro. intros h Hn. unfold Store.slice_to.
  destruct v as [| | | s | l]; try apply preserved_refl.
  destruct (nth_error h l) as [[items|d]|]; try apply preserved_refl.
  apply (safe_elim n _ h (safe_new_list n _) Hn).
Qed.

Lemma safe_sorted_by_volume (n : nat) (keywords : list Store.sval) :
  safe n (Store.sorted_by_volume keywords).
Proof.
  apply safe_intro. intros h Hn. unfold Store.sorted_by_volume.
  destruct (bind (map_res (Store.volume_key h) keywords) _);
    [|apply preserved_refl].
  apply (safe_elim n _ h (safe_new_list n _) Hn).
Qed.

Lemma safe_list_prefix_to (n : nat) (k : Z) (v : Store.sval) :
  safe n (Store.list_prefix_to k v).
Proof.
  apply safe_intro. intros h Hn. unfold Store.list_prefix_to.
  destruct v as [| | | s | l]; try apply preserved_refl.
  destruct (nth_error h l) as [[items|d]|]; try apply preserved_refl.
  apply (safe_elim n _ h (safe_new_list n _) Hn).
Qed.

Lemma safe_pool_get (n : nat) (self : Store.ContextChunker) (k : string)
    (default : Store.sval) :
  safe n (Store.pool_get self k default).
Proof. apply safe_bind; [apply safe_as_dict | intros; apply safe_ret]. Qed.

Lemma safe_limit_products (n : nat) (products : Store.sval) (max_products : nat) :
  safe n (Store._limit_products products max_products).
Proof.
  apply safe_bind; [apply safe_truthy|]. intros t.
  destruct (negb t); [apply safe_ret|].
  destruct products; apply safe_ret.
Qed.

Lemma safe_limit_keywords (n : nat) (keywords : Store.sval) (max_keywords : Z) :
  safe n (Store._limit_keywords keywords max_keywords).
Proof.
  apply safe_bind; [apply safe_truthy|]. intros t.
  destruct (negb t); [apply safe_ret|].
  apply safe_intro. intros h Hn.
  destruct keywords as [| | | s | l]; try apply preserved_refl.
  destruct (nth_error h l) as [[items|d]|]; try apply preserved_refl.
  apply (safe_elim n _ h); [|exact Hn].
  apply safe_bind; [apply safe_sorted_by_volume|].
  intros sorted_keywords. apply safe_list_prefix_to.
Qed.

Lemma safe_summarize_strategy (n : nat) (strategy_output : Store.sval) :
  safe n (Store._summarize_strategy strategy_output).
Proof.
  apply safe_bind; [apply safe_truthy|]. intros t.
  destruct (negb t); [apply safe_ret|].
  apply safe_intro. intros h Hn.
  destruct strategy_output as [| | | s | l]; try apply preserved_refl.
  destruct (nth_error h l) as [[items|d]|]; try apply preserved_refl.
  apply (safe_elim n _ h); [|exact Hn].
  apply safe_alloc_bind. intros summary Hs.
  destruct (Nat.ltb 200 (List.length items)); [|apply safe_ret].
  apply safe_bind; [apply safe_store; exact Hs | intros; apply safe_ret].
Qed.

Lemma safe_summarize_items (n : nat) (items : list (string * Store.sval))
    (summarized : Store.loc) :
  n <= summarized -> safe n (Store.summarize_items items summarized).
Proof.
  intros Hs. induction items as [|[theme data] items IH]; simpl.
  - apply safe_ret.
  - apply safe_intro. intros h Hn.
    destruct (Store.deref_dict h data) as [d|];
      [|apply (safe_elim n _ h IH Hn)].
    apply (safe_elim n _ h); [|exact Hn].
    apply safe_bind; [apply safe_new_list|]. intros no_related.
    apply safe_bind; [apply safe_slice_to|]. intros related_google.
    apply safe_bind; [apply safe_new_list|]. intros no_titles.
    apply safe_bind; [apply safe_slice_to|]. intros suggested_titles.
    apply safe_bind; [apply safe_new_dict|]. intros entry.
    apply safe_bind; [apply safe_as_dict|]. intros so_far.
    apply safe_bind; [apply safe_store; exact Hs|]. intros _.
    exact IH.
Qed.

Lemma safe_summarize_semantic_fields (n : nat) (semantic_fields : Store.sval) :
  safe n (Store._summarize_semantic_fields semantic_fields).
Proof.
  apply safe_bind; [apply safe_truthy|]. intros t.
  destruct (negb t); [apply safe_new_dict|].
  apply safe_bind; [apply safe_as_dict|]. intros d.
  apply safe_alloc_bind. intros summarized Hs.
  apply safe_bind; [apply safe_summarize_items; exact Hs|].
  intros _. apply safe_ret.
Qed.

Create HintDb store_safe.
#[local] Hint Resolve safe_ret safe_raise safe_alloc safe_truthy safe_as_dict
  safe_new_list safe_new_dict safe_slice_to safe_sorted_by_volume
  safe_pool_get safe_limit_products safe_limit_keywords
  safe_summarize_strategy safe_summarize_semantic_fields : store_safe.

(** A step that only has to be safe, in front of the rest of a rule. *)
Lemma hoare_after_safe {A B : Type} (n : nat) (m : Store.M A)
    (k : A -> Store.M B) (R : B -> Store.heap -> Prop) :
  safe n m -> (forall a, hoare n (fun _ => True) (k a) R) ->
  hoare n (fun _ => True) (Store.mbind m k) R.
Proof. intros Hm Hk. apply (hoare_bind n _ m _ k R Hm Hk). Qed.

Ltac skip_safe :=
  repeat match goal with
         | |- hoare _ _ (Store.mbind _ _) _ =>
             apply hoare_after_safe;
             [solve [auto with store_safe] | intros ?]
         end.

Lemma hoare_extend (n : nat) (base_context : Store.loc)
    (items : list (string * Store.sval)) :
  hoare n (fun _ => True) (Store.extend base_context items) (new_view n).
Proof.
  unfold Store.extend. skip_safe.
  apply (hoare_conseq n _ _ _ _ _ (hoare_alloc n (fun _ => True) _)); auto.
  intros l h [Hl Hd]. split; [exact Hl|]. eexists. exact Hd.
Qed.

Lemma safe_seo_entries (n : nat) (self : Store.ContextChunker) :
  safe n (Store.seo_entries self).
Proof. unfold Store.seo_entries, safe. skip_safe. apply safe_ret. Qed.

#[local] Hint Resolve safe_seo_entries : store_safe.

Lemma hoare_base_context (n : nat) (self : Store.ContextChunker) :
  hoare n (fun _ => True) (Store.base_context self) (new_view n).
Proof.
  unfold Store.base_context. skip_safe.
  apply (hoare_conseq n _ _ _ _ _ (hoare_alloc n (fun _ => True) _)); auto.
  intros l h [Hl Hd]. split; [exact Hl|]. eexists. exact Hd.
Qed.

(** The rule of every stage answers a new dict; the fallback answers the
    base context it is given. *)
Lemma hoare_stage_rules (n : nat) (self : Store.ContextChunker)
    (base_context : Store.loc) :
  hoare n (fun _ => True) (Store._get_strategy_context self base_context)
    (new_view n) /\
  hoare n (fun _ => True) (Store._get_products_context self base_context)
    (new_view n) /\
  hoare n (fun _ => True) (Store._get_seo_context self base_context)
    (new_view n) /\
  hoare n (fun _ => True) (Store._get_content_context self base_context)
    (new_view n) /\
  hoare n (fun _ => True) (Store._get_refinement_context self base_context)
    (new_view n) /\
  hoare n (fun _ => True) (Store._get_review_context self base_context)
    (new_view n) /\
  hoare n (fun _ => True) (Store._get_visual_context self base_context)
    (new_view n).
Proof.
  unfold Store._get_strategy_context, Store._get_products_context,
    Store._get_seo_context, Store._get_content_context,
    Store._get_refinement_context, Store._get_review_context,
    Store._get_visual_context.
  repeat match goal with |- _ /\ _ => split end;
    skip_safe; apply hoare_extend.
Qed.

Lemma safe_set_item (n : nat) (context : Store.loc) (k : string)
    (v : Store.sval) :
  n <= context -> safe n (Store.set_item context k v).
Proof.
  intros Hc. unfold Store.set_item, safe. skip_safe.
  apply safe_store. exact Hc.
Qed.

Lemma safe_adjust_for_agent (n : nat) (agent_role : string)
    (context : Store.loc) :
  n <= context -> safe n (Store._adjust_for_agent agent_role context).
Proof.
  intros Hc. pose proof (safe_set_item n context) as Hset.
  unfold Store._adjust_for_agent, safe.
  repeat match goal with
         | |- context [if ?b then _ else _] => destruct b
         end;
    skip_safe;
    try (apply hoare_after_safe; [apply Hset; exact Hc | intros ?]);
    apply safe_ret.
Qed.

Lemma nth_error_app_some {A : Type} (l l' : list A) (i : nat) (x : A) :
  nth_error l i = Some x -> nth_error (l ++ l') i = Some x.
Proof.
  intros H. rewrite nth_error_app1; [exact H|].
  apply nth_error_Some. congruence.
Qed.

Lemma replace_app_same (h tail : Store.heap) (c : Store.loc) (o : Store.obj) :
  c < List.length h -> nth_error (Store.replace c o (h ++ tail)) c = Some o.
Proof.
  intros Hc. apply replace_same. rewrite length_app. lia.
Qed.

Lemma replace_app_new (h tail : Store.heap) (c l : Store.loc) (k : nat)
    (o sub : Store.obj) :
  c < List.length h -> l = List.length h + k ->
  nth_error tail k = Some sub ->
  nth_error (Store.replace c o (h ++ tail)) l = Some sub.
Proof.
  intros Hc Hl Hk. rewrite replace_other by lia.
  rewrite nth_error_app2 by lia.
  replace (l - List.length h) with k by lia. exact Hk.
Qed.

(** One augmenting branch, once the run is unfolded: the sub-section is the
    object number [k] among those the branch creates. *)
Ltac augmenting_branch Hc Hlt k :=
  unfold Store.mbind, Store.as_dict, Store.deref_dict, Store.new_dict,
    Store.new_list, Store.set_item, Store.mbind, Store.as_dict,
    Store.deref_dict, Store.alloc, Store.ret, Store.store;
  rewrite Hc; cbn; rewrite <- ?app_assoc;
  rewrite (nth_error_app_some _ _ _ _ Hc); cbn;
  eexists; split; [reflexivity|];
  split;
  [ split; [eexists; apply replace_app_same; exact Hlt|];
    let section := fresh "section" in
    let Hs := fresh "Hs" in
    intros section Hs; injection Hs as <-;
    eexists; split;
    [ eexists; split;
      [apply replace_app_same; exact Hlt | apply lookup_dict_set_eq]
    | split;
      [ rewrite ?length_app; simpl; lia
      | eexists; apply (replace_app_new _ _ _ _ k);
        [exact Hlt | rewrite ?length_app; simpl; lia | reflexivity] ] ]
  | let key := fresh "key" in
    let v := fresh "v" in
    let Hv := fresh "Hv" in
    intros key v Hv ? ? ?;
    eexists; split; [apply replace_app_same; exact Hlt|];
    rewrite lookup_dict_set_neq by congruence; exact Hv ].

(** On a dict the augmenter never raises: it answers the location it was
    given and leaves the dict there augmented, with every other entry as it
    was. *)
Lemma adjust_for_agent_run (agent_role : string) (context : Store.loc)
    (h : Store.heap) (d : list (string * Store.sval)) :
  nth_error h context = Some (Store.ODict d) ->
  exists h',
    Store._adjust_for_agent agent_role context h = (Ok context, h') /\
    augmented (List.length h) agent_role context h' /\
    (forall k v,
       lookup k d = Some v ->
       k <> "brand_context" -> k <> "seo_focus" -> k <> "content_focus" ->
       holds h' context k v).
Proof.
  intros Hc.
  assert (Hlt : context < List.length h) by (apply nth_error_Some; congruence).
  unfold Store._adjust_for_agent, augmented, augmented_roles. cbn [lookup].
  destruct (String.eqb agent_role "brand_strategist");
    [augmenting_branch Hc Hlt 0|].
  destruct (String.eqb agent_role "seo_specialist");
    [augmenting_branch Hc Hlt 2|].
  destruct (String.eqb agent_role "seo_copywriter");
    [augmenting_branch Hc Hlt 1|].
  exists h. split; [reflexivity|]. split.
  - split; [exists d; exact Hc | discriminate].
  - intros k v Hv _ _ _. exists d. split; assumption.
Qed.

Lemma replace_app_other (h tail : Store.heap) (c l : Store.loc)
    (o : Store.obj) :
  l < List.length h -> l <> c ->
  nth_error (Store.replace c o (h ++ tail)) l = nth_error h l.
Proof.
  intros Hl Hne. rewrite replace_other by exact Hne.
  apply nth_error_app1. exact Hl.
Qed.

(** One augmenting branch again, for what it writes: the dict given holds
    the sub-section under the key of the role and is otherwise what it was,
    and no other object that existed is changed. *)
Ltac writing_branch Hc Hlt k :=
  unfold Store.mbind, Store.as_dict, Store.deref_dict, Store.new_dict,
    Store.new_list, Store.set_item, Store.mbind, Store.as_dict,
    Store.deref_dict, Store.alloc, Store.ret, Store.store;
  rewrite Hc; cbn; rewrite <- ?app_assoc;
  rewrite (nth_error_app_some _ _ _ _ Hc); cbn;
  eexists; split; [reflexivity|];
  split;
  [ let l := fresh "l" in
    let Hl := fresh "Hl" in
    let Hne := fresh "Hne" in
    intros l Hl Hne; apply replace_app_other; assumption
  | eexists; split; [|split];
    [ | | apply replace_app_same; exact Hlt ];
    [ rewrite ?length_app; simpl; lia
    | eexists; apply (replace_app_new _ _ _ _ k);
      [exact Hlt | rewrite ?length_app; simpl; lia | reflexivity] ] ].

(** What the augmenter writes: on a dict [d] it leaves the dict
    [dict_set section (SRef sub) d], with [sub] a dict it created, and
    changes no other object that existed; a role without a sub-section
    leaves the heap as it is. *)
Lemma adjust_for_agent_writes (agent_role : string) (context : Store.loc)
    (h : Store.heap) (d : list (string * Store.sval)) :
  nth_error h context = Some (Store.ODict d) ->
  exists h',
    Store._adjust_for_agent agent_role context h = (Ok context, h') /\
    (forall l,
       l < List.length h -> l <> context ->
       nth_error h' l = nth_error h l) /\
    match lookup agent_role augmented_roles with
    | Some section =>
        exists sub,
          List.length h <= sub /\
          is_dict sub h' /\
          nth_error h' context
            = Some (Store.ODict (dict_set section (Store.SRef sub) d))
    | None => h' = h
    end.
Proof.
  intros Hc.
  assert (Hlt : context < List.length h) by (apply nth_error_Some; congruence).
  unfold Store._adjust_for_agent, augmented_roles. cbn [lookup].
  destruct (String.eqb agent_role "brand_strategist");
    [writing_branch Hc Hlt 0|].
  destruct (String.eqb agent_role "seo_specialist");
    [writing_branch Hc Hlt 2|].
  destruct (String.eqb agent_role "seo_copywriter");
    [writing_branch Hc Hlt 1|].
  exists h. repeat split.
Qed.

Lemma augmented_mono (n n' : nat) (agent_role : string) (context : Store.loc)
    (h : Store.heap) :
  n <= n' -> augmented n' agent_role context h ->
  augmented n agent_role context h.
Proof.
  intros Hn [Hd Hs]. split; [exact Hd|].
  intros section Hsec. destruct (Hs section Hsec) as [l [Hh [Hl Hld]]].
  exists l. repeat split; try assumption. lia.
Qed.

Lemma hoare_adjust_for_agent (n : nat) (agent_role : string)
    (context : Store.loc) :
  n <= context ->
  hoare n (is_dict context) (Store._adjust_for_agent agent_role context)
    (fun view h => view = context /\ augmented n agent_role context h).
Proof.
  intros Hc h Hn [d Hd].
  destruct (adjust_for_agent_run agent_role context h d Hd) as [h' [E [Ha _]]].
  split.
  - apply (safe_elim n _ h (safe_adjust_for_agent n agent_role context Hc) Hn).
  - rewrite E. simpl. intros view Ev. injection Ev as <-.
    split; [reflexivity|]. apply (augmented_mono n (List.length h)); assumption.
Qed.

(** A view built on a cache miss is a new dict, augmented for the role, and
    building it changes no object that existed. *)
Lemma hoare_build_context (n : nat) (self : Store.ContextChunker)
    (agent_role task_stage : string) :
  hoare n (fun _ => True) (Store.build_context self agent_role task_stage)
    (fun view h => n <= view /\ augmented n agent_role view h).
Proof.
  unfold Store.build_context.
  apply hoare_bind with (Q := new_view n); [apply hoare_base_context|].
  intros base_context.
  apply hoare_bind with (Q := new_view n).
  - destruct (hoare_stage_rules n self base_context)
      as [H1 [H2 [H3 [H4 [H5 [H6 H7]]]]]].
    repeat match goal with
           | |- context [if ?b then _ else _] => destruct b
           end;
      try (apply hoare_ret; auto);
      match goal with
      | H : hoare _ _ ?m _ |- hoare _ _ ?m _ =>
          apply (hoare_conseq n _ _ _ _ _ H); auto
      end.
  - intros context h Hn [Hc Hd].
    destruct (hoare_adjust_for_agent n agent_role context Hc h Hn Hd)
      as [Hp Hq].
    split; [exact Hp|]. intros view Ev. destruct (Hq view Ev) as [-> Ha].
    split; assumption.
Qed.

Lemma pool_get_run (self : Store.ContextChunker) (h : Store.heap)
    (d : list (string * Store.sval)) (k : string) (default : Store.sval) :
  nth_error h (Store.full_context self) = Some (Store.ODict d) ->
  Store.pool_get self k default h = (Ok (get d k default), h).
Proof.
  intros Hp. unfold Store.pool_get, Store.mbind, Store.as_dict, Store.deref_dict.
  rewrite Hp. reflexivity.
Qed.

Lemma extend_run (h : Store.heap) (base_context : Store.loc)
    (base items : list (string * Store.sval)) :
  nth_error h base_context = Some (Store.ODict base) ->
  Store.extend base_context items h
    = (Ok (List.length h), h ++ [Store.ODict (dict_update base items)]).
Proof.
  intros Hb. unfold Store.extend, Store.mbind, Store.as_dict, Store.deref_dict.
  rewrite Hb. reflexivity.
Qed.

Lemma base_context_run (self : Store.ContextChunker) (h : Store.heap)
    (d : list (string * Store.sval)) :
  nth_error h (Store.full_context self) = Some (Store.ODict d) ->
  Store.base_context self h
    = (Ok (List.length h),
       h ++ [ Store.ODict
                [ ("brand", get d "brand" (Store.SStr ""));
                  ("voice", get d "voice" (Store.SStr ""));
                  ("theme", get d "theme" (Store.SStr ""));
                  ("name", get d "name" (Store.SStr ""));
                  ("preferred_language",
                    get d "preferred_language" (Store.SStr "pt_BR")) ] ]).
Proof.
  intros Hp. unfold Store.base_context, Store.mbind.
  rewrite !(pool_get_run self h d _ _ Hp). reflexivity.
Qed.

Lemma strategy_context_run (self : Store.ContextChunker) (h : Store.heap)
    (base_context : Store.loc) (d base : list (string * Store.sval)) :
  nth_error h (Store.full_context self) = Some (Store.ODict d) ->
  nth_error h base_context = Some (Store.ODict base) ->
  Store._get_strategy_context self base_context h
    = (Ok (List.length h),
       h ++ [ Store.ODict
                (dict_update base
                   [ ("benchmarks", get d "benchmarks" (Store.SStr ""));
                     ("blog", get d "blog" (Store.SStr ""));
                     ("format_recommendations",
                       get d "format_recommendations" (Store.SStr "")) ]) ]).
Proof.
  intros Hp Hb. unfold Store._get_strategy_context, Store.mbind.
  rewrite !(pool_get_run self h d _ _ Hp).
  apply extend_run. exact Hb.
Qed.

(** The strategy view holds, under the three keys the rule adds, the values
    of the Pool themselves: a reference in the Pool is the same reference in
    the view. *)
Lemma strategy_view_shares (self : Store.ContextChunker) (agent_role : string)
    (h : Store.heap) (d : list (string * Store.sval)) :
  nth_error h (Store.full_context self) = Some (Store.ODict d) ->
  lookup (cache_key agent_role "strategy") (Store.context_cache self) = None ->
  exists view h',
    Store.get_minimal_context self agent_role "strategy" h
      = (Ok view,
         Store.mkChunker (Store.full_context self)
           (dict_set (cache_key agent_role "strategy") view
              (Store.context_cache self)),
         h') /\
    forall k,
      In k [ "benchmarks"; "blog"; "format_recommendations" ] ->
      holds h' view k (get d k (Store.SStr "")).
Proof.
  intros Hp Hmiss. unfold Store.get_minimal_context. rewrite Hmiss.
  unfold Store.build_context, Store.mbind.
  rewrite (base_context_run self h d Hp).
  cbn [String.eqb Ascii.eqb Bool.eqb].
  erewrite strategy_context_run;
    [ | apply nth_error_app_some; exact Hp
      | rewrite nth_error_app2 by lia; rewrite Nat.sub_diag; reflexivity ].
  match goal with
  | |- context [Store._adjust_for_agent _ ?c (?h1 ++ [Store.ODict ?dv])] =>
      assert (Hview : nth_error (h1 ++ [Store.ODict dv]) c
                      = Some (Store.ODict dv))
        by (rewrite nth_error_app2 by lia; rewrite Nat.sub_diag; reflexivity);
      destruct (adjust_for_agent_run agent_role c _ dv Hview)
        as [h' [E [_ Hkeep]]]
  end.
  rewrite E. eexists _, _. split; [reflexivity|].
  intros k Hk. simpl in Hk.
  destruct Hk as [Hk|[Hk|[Hk|[]]]]; subst k;
    (apply Hkeep; [reflexivity | discriminate | discriminate | discriminate]).
Qed.

(** C5, as stated, fails: for a Pool whose benchmarks field is a list, the
    strategy view holds under benchmarks the list object of the Pool itself,
    an object that existed before the view was built; and the augmenter
    writes the sub-section of the role into the dict it is given. *)
Lemma view_objects_counterexample :
  let pool := Store.ODict [ ("brand", Store.SStr "Acme");
                            ("benchmarks", Store.SRef 1) ] in
  let h := [ pool; Store.OList [Store.SStr "top ten"] ] in
  exists view h',
    Store.get_minimal_context (Store.__init__ 0) "content_reviewer" "strategy" h
      = (Ok view,
         Store.mkChunker 0 [ (cache_key "content_reviewer" "strategy", view) ],
         h') /\
    holds h 0 "benchmarks" (Store.SRef 1) /\
    holds h' view "benchmarks" (Store.SRef 1) /\
    ~ fresh_inside (List.length h) h' view /\
    exists h'',
      Store._adjust_for_agent "brand_strategist" view h' = (Ok view, h'') /\
      nth_error h'' view <> nth_error h' view.
Proof.
  cbv zeta. eexists _, _. split; [reflexivity|].
  split; [eexists; split; reflexivity|].
  split; [eexists; split; reflexivity|].
  split.
  - intros Hf. specialize (Hf "benchmarks" 1).
    assert (H : 2 <= 1); [|lia]. apply Hf. eexists; split; reflexivity.
  - eexists. split; [reflexivity|]. discriminate.
Qed.

(** C5, amended.  A lookup changes no object that existed before it,
    neither the Pool nor a cached view.  On a cache hit it answers the
    cached dict and leaves the heap as it is.  On a cache miss the view is
    a dict created by the lookup, and the sub-section of the role, where
    the role has one, is a dict created by the lookup as well.  The
    augmenter, given a dict, answers that same dict, with the sub-section
    written into it: afterwards the dict is what it was with the
    sub-section stored under the key of the role, every other entry as
    it was and in its place, and no other object that existed is changed;
    for a role without a sub-section the heap is left as it is.  The
    values of a view are not copied: the strategy view holds under
    benchmarks, blog and format_recommendations the values of the Pool
    themselves. *)
Theorem view_objects (self : Store.ContextChunker)
    (agent_role task_stage : string) (h : Store.heap) :
  preserved (List.length h) h
    (snd (Store.get_minimal_context self agent_role task_stage h)) /\
  (forall view,
     fst (fst (Store.get_minimal_context self agent_role task_stage h))
       = Ok view ->
     match lookup (cache_key agent_role task_stage)
             (Store.context_cache self) with
     | Some cached =>
         view = cached /\
         snd (Store.get_minimal_context self agent_role task_stage h) = h
     | None =>
         List.length h <= view /\
         augmented (List.length h) agent_role view
           (snd (Store.get_minimal_context self agent_role task_stage h))
     end) /\
  (forall context d,
     nth_error h context = Some (Store.ODict d) ->
     exists h',
       Store._adjust_for_agent agent_role context h = (Ok context, h') /\
       augmented (List.length h) agent_role context h' /\
       (forall l,
          l < List.length h -> l <> context ->
          nth_error h' l = nth_error h l) /\
       match lookup agent_role augmented_roles with
       | Some section =>
           exists sub,
             List.length h <= sub /\
             is_dict sub h' /\
             nth_error h' context
               = Some (Store.ODict (dict_set section (Store.SRef sub) d))
       | None => h' = h
       end) /\
  (forall d,
     nth_error h (Store.full_context self) = Some (Store.ODict d) ->
     lookup (cache_key agent_role "strategy") (Store.context_cache self)
       = None ->
     exists view h',
       fst (fst (Store.get_minimal_context self agent_role "strategy" h))
         = Ok view /\
       snd (Store.get_minimal_context self agent_role "strategy" h) = h' /\
       forall k,
         In k [ "benchmarks"; "blog"; "format_recommendations" ] ->
         holds h' view k (get d k (Store.SStr ""))).
Proof.
  split; [|split; [|split]].
  - unfold Store.get_minimal_context.
    destruct (lookup _ _); [apply preserved_refl|].
    pose proof (hoare_build_context (List.length h) self agent_role task_stage
                  h (le_n _) I) as [Hp _].
    destruct (Store.build_context self agent_role task_stage h) as [[view|e] h'];
      exact Hp.
  - intros view. unfold Store.get_minimal_context.
    destruct (lookup _ _) as [cached|].
    + simpl. intros E. injection E as <-. split; reflexivity.
    + pose proof (hoare_build_context (List.length h) self agent_role
                    task_stage h (le_n _) I) as [_ Hq].
      destruct (Store.build_context self agent_role task_stage h)
        as [[view'|e] h']; simpl in *; intros E; [|discriminate E].
      apply Hq. exact E.
  - intros context d Hd.
    destruct (adjust_for_agent_run agent_role context h d Hd)
      as [h' [E [Ha _]]].
    destruct (adjust_for_agent_writes agent_role context h d Hd)
      as [h'' [E' [Hothers Hwritten]]].
    rewrite E in E'. injection E' as <-.
    exists h'. repeat match goal with |- _ /\ _ => split end; assumption.
  - intros d Hp Hmiss.
    destruct (strategy_view_shares self agent_role h d Hp Hmiss)
      as [view [h' [E Hk]]].
    exists view, h'. rewrite E. repeat split. exact Hk.
Qed.

Lemma view_objects_witness :
  let pool := [ ("brand", Store.SStr "Acme");
                ("theme_keywords", Store.SRef 1) ] in
  let h := [ Store.ODict pool; Store.OList [] ] in
  exists h',
    Store._adjust_for_agent "seo_specialist" 0 h = (Ok 0, h') /\
    augmented 2 "seo_specialist" 0 h' /\
    (forall l, l < 2 -> l <> 0 -> nth_error h' l = nth_error h l) /\
    exists sub,
      2 <= sub /\
      is_dict sub h' /\
      nth_error h' 0
        = Some (Store.ODict (dict_set "seo_focus" (Store.SRef sub) pool)).
Proof.
  cbv zeta.
  apply (proj1 (proj2 (proj2 (view_objects (Store.__init__ 0)
                                "seo_specialist" "seo"
                                [ Store.ODict
                                    [ ("brand", Store.SStr "Acme");
                                      ("theme_keywords", Store.SRef 1) ];
                                  Store.OList [] ])))
           0 [ ("brand", Store.SStr "Acme");
               ("theme_keywords", Store.SRef 1) ]).
  reflexivity.
Defined.

(** * Further properties of the code *)

(** ** The resolver table *)

(** X1.  The resolver answers a stage other than general exactly for the
    nine (role, task) pairs of its table, and then the stage the table
    gives: no entry is shadowed, an unknown role or task gives general. *)
Theorem get_task_stage_table (agent_role task_name : string) :
  (forall task_stage,
     In (agent_role, task_name, task_stage) resolver_entries ->
     get_task_stage agent_role task_name = task_stage /\
     task_stage <> "general") /\
  (get_task_stage agent_role task_name <> "general" ->
   In (agent_role, task_name, get_task_stage agent_role task_name)
     resolver_entries) /\
  ((forall task_stage,
      ~ In (agent_role, task_name, task_stage) resolver_entries) ->
   get_task_stage agent_role task_name = "general").
Proof.
  assert (Hmapped :
    get_task_stage agent_role task_name <> "general" ->
    In (agent_role, task_name, get_task_stage agent_role task_name)
      resolver_entries).
  { unfold get_task_stage. intros Hne.
    destruct (get_default_or_in TASK_STAGE_MAPPING agent_role []) as [E|Hin].
    - rewrite E in Hne. exfalso. apply Hne. reflexivity.
    - remember (get TASK_STAGE_MAPPING agent_role []) as table eqn:Et.
      clear Et.
      destruct (get_default_or_in table task_name "general") as [E|Hin'];
        [congruence|].
      remember (get table task_name "general") as stage eqn:Es. clear Es Hne.
      unfold TASK_STAGE_MAPPING in Hin. simpl in Hin.
      repeat (destruct Hin as [Hin|Hin];
              [injection Hin as <- <-; simpl in Hin';
               repeat (destruct Hin' as [Hin'|Hin'];
                       [injection Hin' as <- <-; vm_compute; tauto|]);
               contradiction|]).
      contradiction. }
  split; [|split; [exact Hmapped|]].
  - intros task_stage Hin. vm_compute in Hin.
    repeat (destruct Hin as [Hin|Hin];
            [injection Hin as <- <- <-; split; [reflexivity | discriminate]|]).
    contradiction.
  - intros Hnone.
    destruct (String.eqb (get_task_stage agent_role task_name) "general")
      eqn:E.
    + apply String.eqb_eq in E. exact E.
    + apply String.eqb_neq in E. exfalso.
      apply (Hnone _ (Hmapped E)).
Qed.

(** ** The augmenter *)

Lemma get_dict_set_neq {A : Type} (k k' : string) (v default : A)
    (d : list (string * A)) :
  k <> k' -> get (dict_set k v d) k' default = get d k' default.
Proof.
  intros Hne. unfold get. rewrite lookup_dict_set_neq by exact Hne.
  reflexivity.
Qed.

Lemma dict_set_twice {A : Type} (k : string) (v w : A) (d : list (string * A)) :
  dict_set k w (dict_set k v d) = dict_set k w d.
Proof.
  induction d as [|[k' v'] d IH]; simpl.
  - rewrite String.eqb_refl. reflexivity.
  - destruct (String.eqb k k') eqn:E; simpl.
    + rewrite String.eqb_refl. reflexivity.
    + rewrite E, IH. reflexivity.
Qed.

(** X2.  Augmenting a view twice is augmenting it once; a role without a
    sub-section leaves the view as it is; and no role changes an entry
    other than its own sub-section. *)
Theorem adjust_for_agent_idempotent (agent_role : string) (context : dict) :
  _adjust_for_agent agent_role (_adjust_for_agent agent_role context)
    = _adjust_for_agent agent_role context /\
  (lookup agent_role augmented_roles = None ->
   _adjust_for_agent agent_role context = context) /\
  (forall k,
     ~ In k (role_section agent_role) ->
     lookup k (_adjust_for_agent agent_role context) = lookup k context).
Proof.
  unfold _adjust_for_agent, role_section, augmented_roles. cbn [lookup].
  destruct (String.eqb agent_role "brand_strategist").
  { split; [|split; [discriminate|]].
    - rewrite !get_dict_set_neq by discriminate. apply dict_set_twice.
    - intros k Hk. apply lookup_dict_set_neq. intros E. apply Hk.
      left. exact E. }
  destruct (String.eqb agent_role "seo_specialist").
  { split; [|split; [discriminate|]].
    - rewrite !get_dict_set_neq by discriminate. apply dict_set_twice.
    - intros k Hk. apply lookup_dict_set_neq. intros E. apply Hk.
      left. exact E. }
  destruct (String.eqb agent_role "seo_copywriter").
  { split; [|split; [discriminate|]].
    - rewrite !get_dict_set_neq by discriminate. apply dict_set_twice.
    - intros k Hk. apply lookup_dict_set_neq. intros E. apply Hk.
      left. exact E. }
  repeat split.
Qed.

(** ** What a view exposes *)

(** X3.  The keys of a view depend on the stage and the role only, never on
    the Pool: the five base fields, then the keys the rule of the stage
    adds, then the sub-section of the role.  A field of the Pool outside
    this vocabulary is in no view. *)
Theorem view_keys (self : ContextChunker) (agent_role task_stage : string)
    (view : dict) :
  build_context self agent_role task_stage = Ok view ->
  keys view
    = base_fields ++ stage_additions task_stage ++ role_section agent_role.
Proof.
  unfold build_context,
    _get_strategy_context, _get_products_context, _get_seo_context,
    _get_content_context, _get_refinement_context, _get_review_context,
    _get_visual_context, stage_additions, role_section, augmented_roles.
  cbn [lookup].
  repeat match goal with
         | |- context [if String.eqb task_stage ?s then _ else _] =>
             destruct (String.eqb task_stage s)
         end;
    intros H;
    repeat (cbn [bind] in H;
            match type of H with
            | context [bind ?m _] =>
                lazymatch m with
                | context [bind _ _] => fail
                | _ => idtac
                end;
                destruct m; [|discriminate H]
            end);
    cbn [bind] in H; injection H as <-;
    unfold _adjust_for_agent;
    (destruct (String.eqb agent_role "brand_strategist"); [reflexivity|]);
    (destruct (String.eqb agent_role "seo_specialist"); [reflexivity|]);
    destruct (String.eqb agent_role "seo_copywriter"); reflexivity.
Qed.

Lemma view_keys_witness :
  exists view,
    build_context (__init__ sample_pool) "seo_specialist" "review" = Ok view /\
    keys view
      = [ "brand"; "voice"; "theme"; "name"; "preferred_language";
          "products"; "seo_focus" ].
Proof.
  eexists. split; [reflexivity|].
  apply (view_keys (__init__ sample_pool) "seo_specialist" "review").
  reflexivity.
Defined.

Lemma build_context_adjusted (self : ContextChunker)
    (agent_role task_stage : string) (view : dict) :
  build_context self agent_role task_stage = Ok view ->
  exists context, view = _adjust_for_agent agent_role context.
Proof.
  unfold build_context. intros H.
  match type of H with
  | bind ?m _ = _ => destruct m as [context|e]; [|discriminate H]
  end.
  cbn [bind] in H. injection H as <-. exists context. reflexivity.
Qed.

Lemma get_some_or_default (context : dict) (k : string) (default : val) :
  lookup k context = Some (get context k default)
  \/ (lookup k context = None /\ get context k default = default).
Proof.
  unfold get. destruct (lookup k context); [left | right; split]; reflexivity.
Qed.

(** X4.  The sub-section of a role is made from the view alone: each of its
    entries is the entry of the view under the same key, or, when the view
    has no such key, an empty value.  A role is given nothing that its
    stage does not expose. *)
Theorem section_reads_view (self : ContextChunker)
    (agent_role task_stage section : string) (view : dict) :
  build_context self agent_role task_stage = Ok view ->
  lookup agent_role augmented_roles = Some section ->
  exists sub,
    lookup section view = Some (VDict sub) /\
    forall k v,
      lookup k sub = Some v ->
      lookup k view = Some v
      \/ (lookup k view = None /\ is_empty_value v = true).
Proof.
  intros Hb Hs.
  destruct (build_context_adjusted _ _ _ _ Hb) as [context ->]. clear Hb.
  revert Hs. unfold _adjust_for_agent, augmented_roles. cbn [lookup].
  assert (Hentry : forall section' k default v,
    k <> section' -> is_empty_value default = true ->
    Some (get context k default) = Some v ->
    forall sub',
    lookup k (dict_set section' sub' context) = Some v
    \/ (lookup k (dict_set section' sub' context) = None
        /\ is_empty_value v = true)).
  { intros section' k default v Hne He Hv sub'. injection Hv as <-.
    rewrite lookup_dict_set_neq by congruence.
    destruct (get_some_or_default context k default) as [E|[E1 E2]];
      [left; exact E | right; split; [exact E1 | rewrite E2; exact He]]. }
  destruct (String.eqb agent_role "brand_strategist").
  { intros E. injection E as <-. eexists.
    split; [apply lookup_dict_set_eq|].
    intros k v. cbn [lookup].
    repeat match goal with
           | |- context [String.eqb k ?s] =>
               let E := fresh "E" in
               destruct (String.eqb k s) eqn:E;
               [apply String.eqb_eq in E; subst k; intros Hv;
                eapply Hentry; [discriminate | | exact Hv]; reflexivity|]
           end.
    intros Hv. discriminate Hv. }
  destruct (String.eqb agent_role "seo_specialist").
  { intros E. injection E as <-. eexists.
    split; [apply lookup_dict_set_eq|].
    intros k v. cbn [lookup].
    repeat match goal with
           | |- context [String.eqb k ?s] =>
               let E := fresh "E" in
               destruct (String.eqb k s) eqn:E;
               [apply String.eqb_eq in E; subst k; intros Hv;
                eapply Hentry; [discriminate | | exact Hv]; reflexivity|]
           end.
    intros Hv. discriminate Hv. }
  destruct (String.eqb agent_role "seo_copywriter"); [|discriminate].
  intros E. injection E as <-. eexists.
  split; [apply lookup_dict_set_eq|].
  intros k v. cbn [lookup].
  repeat match goal with
         | |- context [String.eqb k ?s] =>
             let E := fresh "E" in
             destruct (String.eqb k s) eqn:E;
             [apply String.eqb_eq in E; subst k; intros Hv;
              eapply Hentry; [discriminate | | exact Hv]; reflexivity|]
         end.
  intros Hv. discriminate Hv.
Qed.

Lemma section_reads_view_witness :
  exists sub,
    lookup "brand_context"
      (_adjust_for_agent "brand_strategist"
         (dict_update (base_context (__init__ sample_pool))
            [ ("products", VStr "A.  B.  C.");
              ("strategy_summary", VStr "Lead with price.") ]))
      = Some (VDict sub) /\
    lookup "benchmarks" sub = Some (VStr "").
Proof.
  destruct (section_reads_view (__init__ sample_pool) "brand_strategist"
              "products" "brand_context" _ eq_refl eq_refl)
    as [sub [Hs _]].
  exists sub. split; [exact Hs|].
  vm_compute in Hs. injection Hs as <-. reflexivity.
Defined.

(** ** The cache over a sequence of requests *)

Lemma dict_set_absent {A : Type} (k : string) (v : A) (d : list (string * A)) :
  lookup k d = None -> dict_set k v d = d ++ [(k, v)].
Proof.
  induction d as [|[k' v'] d IH]; simpl; [reflexivity|].
  destruct (String.eqb k k'); [discriminate|].
  intros H. rewrite (IH H). reflexivity.
Qed.

Lemma lookup_none_not_key {A : Type} (k : string) (d : list (string * A)) :
  lookup k d = None -> existsb (String.eqb k) (keys d) = false.
Proof.
  induction d as [|[k' v] d IH]; simpl; [reflexivity|].
  destruct (String.eqb k k'); [discriminate|]. exact IH.
Qed.

Lemma lookup_app {A : Type} (k : string) (d d' : list (string * A)) :
  lookup k (d ++ d')
  = match lookup k d with
    | Some v => Some v
    | None => lookup k d'
    end.
Proof.
  induction d as [|[k' v] d IH]; simpl; [reflexivity|].
  destruct (String.eqb k k'); [reflexivity | exact IH].
Qed.

Lemma distinct_app_new {A : Type} (k : string) (v : A) (d : list (string * A)) :
  distinct (keys d) = true -> lookup k d = None ->
  distinct (keys (d ++ [(k, v)])) = true.
Proof.
  induction d as [|[k' v'] d IH]; simpl; [reflexivity|].
  intros Hd Hk. apply andb_prop in Hd. destruct Hd as [Hn Hd].
  destruct (String.eqb k k') eqn:E; [discriminate|].
  rewrite (IH Hd Hk), andb_true_r.
  unfold keys in *. rewrite map_app, existsb_app. simpl.
  apply negb_true_iff in Hn. rewrite Hn, String.eqb_sym, E. reflexivity.
Qed.

(** One lookup either leaves the chunker as it is, or files the view it
    built after the entries the cache has. *)
Lemma get_minimal_context_step (self : ContextChunker)
    (agent_role task_stage : string) :
  snd (get_minimal_context self agent_role task_stage) = self
  \/ exists view,
       lookup (cache_key agent_role task_stage) (context_cache self) = None /\
       build_context self agent_role task_stage = Ok view /\
       snd (get_minimal_context self agent_role task_stage)
         = mkChunker (full_context self)
             (context_cache self
              ++ [(cache_key agent_role task_stage, view)]).
Proof.
  unfold get_minimal_context.
  destruct (lookup (cache_key agent_role task_stage) (context_cache self))
    eqn:El; [left; reflexivity|].
  destruct (build_context self agent_role task_stage) as [view|e];
    [|left; reflexivity].
  right. exists view. repeat split. simpl.
  rewrite (dict_set_absent _ _ _ El). reflexivity.
Qed.

Lemma after_app (chunker : ContextChunker)
    (requests more : list (string * string)) :
  after chunker (requests ++ more) = after (after chunker requests) more.
Proof.
  revert chunker.
  induction requests as [|[agent_role task_name] requests IH];
    intros chunker; simpl; [reflexivity | apply IH].
Qed.

Lemma after_grows (chunker : ContextChunker)
    (requests : list (string * string)) :
  full_context (after chunker requests) = full_context chunker /\
  (distinct (keys (context_cache chunker)) = true ->
   distinct (keys (context_cache (after chunker requests))) = true) /\
  List.length (context_cache (after chunker requests))
    <= List.length (context_cache chunker) + List.length requests /\
  (exists added,
     context_cache (after chunker requests)
       = context_cache chunker ++ added) /\
  (forall k view,
     lookup k (context_cache (after chunker requests)) = Some view ->
     lookup k (context_cache chunker) = Some view
     \/ exists agent_role task_name,
          In (agent_role, task_name) requests /\
          k = cache_key agent_role (get_task_stage agent_role task_name) /\
          build_context chunker agent_role
            (get_task_stage agent_role task_name) = Ok view).
Proof.
  revert chunker.
  induction requests as [|[agent_role task_name] requests IH];
    intros chunker; simpl.
  - repeat split; try lia; auto. exists []. rewrite app_nil_r. reflexivity.
  - unfold get_optimized_context.
    set (task_stage := get_task_stage agent_role task_name).
    destruct (get_minimal_context_step chunker agent_role task_stage)
      as [E|[view [Hmiss [Hb E]]]]; rewrite E.
    + destruct (IH chunker) as [H1 [H2 [H3 [H4 H5]]]].
      repeat split; try assumption; try lia.
      intros k view Hk. destruct (H5 k view Hk) as [Hc|[r [t [Hin Hr]]]];
        [left; exact Hc | right; exists r, t; split; [right; exact Hin|exact Hr]].
    + destruct (IH (mkChunker (full_context chunker)
                      (context_cache chunker
                       ++ [(cache_key agent_role task_stage, view)])))
        as [H1 [H2 [H3 [[added H4] H5]]]].
      simpl in *. split; [exact H1|]. split; [|split; [|split]].
      * intros Hd. apply H2. apply distinct_app_new; assumption.
      * rewrite length_app in H3. simpl in H3. lia.
      * exists ((cache_key agent_role task_stage, view) :: added).
        rewrite H4, <- app_assoc. reflexivity.
      * intros k v Hk. destruct (H5 k v Hk) as [Hc|[r [t [Hin [Hr Hbuilt]]]]].
        -- rewrite lookup_app in Hc.
           destruct (lookup k (context_cache chunker)) eqn:Ek;
             [left; exact Hc|].
           simpl in Hc.
           destruct (String.eqb k (cache_key agent_role task_stage)) eqn:Eq;
             [|discriminate].
           apply String.eqb_eq in Eq. injection Hc as <-.
           right. exists agent_role, task_name.
           split; [left; reflexivity | split; assumption].
        -- right. exists r, t. split; [right; exact Hin|].
           split; [exact Hr|].
           rewrite <- Hbuilt. apply build_context_same_pool. reflexivity.
Qed.

(** A coherent chunker answers every request of a served sequence from its
    cache afterwards. *)
Lemma after_holds (chunker : ContextChunker)
    (requests : list (string * string)) (agent_role task_name : string)
    (view : dict) :
  coherent chunker ->
  In (agent_role, task_name) requests ->
  build_context chunker agent_role (get_task_stage agent_role task_name)
    = Ok view ->
  lookup (cache_key agent_role (get_task_stage agent_role task_name))
    (context_cache (after chunker requests)) = Some view.
Proof.
  revert chunker.
  induction requests as [|[r t] requests IH]; intros chunker Hc Hin Hb;
    [contradiction|].
  simpl. unfold get_optimized_context.
  destruct (get_minimal_context_coherent chunker r (get_task_stage r t)
              (get_task_stage_in_stages _ _) Hc) as [Hf Hc'].
  pose proof (get_minimal_context_pool chunker r (get_task_stage r t)) as Hp.
  destruct Hin as [Hin|Hin].
  - injection Hin as -> ->.
    set (stage := get_task_stage agent_role task_name) in *.
    destruct (after_grows (snd (get_minimal_context chunker agent_role stage))
                requests) as [_ [_ [_ [[added Ha] _]]]].
    rewrite Ha, lookup_app.
    assert (Hl : lookup (cache_key agent_role stage)
                   (context_cache
                      (snd (get_minimal_context chunker agent_role stage)))
                 = Some view).
    { unfold get_minimal_context.
      destruct (lookup (cache_key agent_role stage) (context_cache chunker))
        as [cached|] eqn:El.
      - simpl. rewrite El. f_equal.
        pose proof (Hc _ _ _ (get_task_stage_in_stages _ _) El) as Hcached.
        unfold stage in *. congruence.
      - rewrite Hb. simpl. apply lookup_dict_set_eq. }
    rewrite Hl. reflexivity.
  - apply IH; [exact Hc' | exact Hin|].
    rewrite <- Hb. apply build_context_same_pool. exact Hp.
Qed.

(** X5.  After any sequence of requests to a new chunker the Pool is the
    one it was created with; the cache has one entry per key and no more
    entries than requests; every entry is filed under the key of a request
    and is the view built for it; every request whose view can be built is
    in the cache; and further requests only add entries after those the
    cache has, so no entry is ever evicted or replaced. *)
Theorem cache_after_requests (pool : dict)
    (requests : list (string * string)) :
  full_context (after (__init__ pool) requests) = pool /\
  distinct (keys (context_cache (after (__init__ pool) requests))) = true /\
  fst (fst (get_context_summary (after (__init__ pool) requests)))
    <= List.length requests /\
  (forall k view,
     lookup k (context_cache (after (__init__ pool) requests)) = Some view ->
     exists agent_role task_name,
       In (agent_role, task_name) requests /\
       k = cache_key agent_role (get_task_stage agent_role task_name) /\
       build_context (__init__ pool) agent_role
         (get_task_stage agent_role task_name) = Ok view) /\
  (forall agent_role task_name view,
     In (agent_role, task_name) requests ->
     build_context (__init__ pool) agent_role
       (get_task_stage agent_role task_name) = Ok view ->
     lookup (cache_key agent_role (get_task_stage agent_role task_name))
       (context_cache (after (__init__ pool) requests)) = Some view) /\
  (forall more,
     exists added,
       context_cache (after (__init__ pool) (requests ++ more))
         = context_cache (after (__init__ pool) requests) ++ added).
Proof.
  destruct (after_grows (__init__ pool) requests) as [H1 [H2 [H3 [_ H5]]]].
  split; [exact H1|]. split; [apply H2; reflexivity|].
  split; [exact H3|]. split; [|split].
  - intros k view Hk. destruct (H5 k view Hk) as [Hc|Hr];
      [discriminate Hc | exact Hr].
  - intros agent_role task_name view Hin Hb.
    apply after_holds; [|exact Hin | exact Hb].
    intros r s c _ El. discriminate El.
  - intros more. rewrite after_app.
    destruct (after_grows (after (__init__ pool) requests) more)
      as [_ [_ [_ [Ha _]]]].
    exact Ha.
Qed.

(** ** The limiting policies *)

Lemma count_char_app (c : ascii) (a b : string) :
  count_char c (a ++ b) = count_char c a + count_char c b.
Proof.
  induction a as [|x a IH]; simpl; [reflexivity|]. rewrite IH. lia.
Qed.

Lemma split_not_nil (c : ascii) (s : string) : split c s <> [].
Proof.
  destruct s as [|a s]; simpl; [discriminate|].
  destruct (Ascii.eqb a c); [discriminate|].
  destruct (split c s); discriminate.
Qed.

Lemma split_length (c : ascii) (s : string) :
  List.length (split c s) = count_char c s + 1.
Proof.
  induction s as [|a s IH]; simpl; [reflexivity|].
  rewrite (Ascii.eqb_sym c a).
  destruct (Ascii.eqb a c); simpl; [rewrite IH; lia|].
  destruct (split c s) as [|piece pieces] eqn:E;
    [exfalso; apply (split_not_nil c s E)|].
  simpl in *. exact IH.
Qed.

Lemma split_pieces_clean (c : ascii) (s : string) :
  Forall (fun piece => count_char c piece = 0) (split c s).
Proof.
  induction s as [|a s IH]; simpl; [repeat constructor|].
  destruct (Ascii.eqb a c) eqn:E.
  - constructor; [reflexivity | exact IH].
  - destruct (split c s) as [|piece pieces]; [repeat constructor|].
    + simpl. rewrite Ascii.eqb_sym, E. reflexivity.
    + inversion IH as [|? ? Hp Hps]; subst. constructor; [|exact Hps].
      simpl. rewrite Ascii.eqb_sym, E. exact Hp.
Qed.

Lemma join_cons_char (sep : string) (a : ascii) (piece : string)
    (pieces : list string) :
  join sep (String a piece :: pieces) = String a (join sep (piece :: pieces)).
Proof. destruct pieces; reflexivity. Qed.

Lemma join_spread_length (s : string) :
  String.length (join ". " (split "." s))
    = String.length s + count_char "." s.
Proof.
  induction s as [|a s IH]; [reflexivity|].
  cbn [split count_char String.length]. rewrite (Ascii.eqb_sym "." a).
  destruct (Ascii.eqb a ".").
  - destruct (split "." s) as [|piece pieces] eqn:E;
      [exfalso; apply (split_not_nil "." s E)|].
    change (join ". " ("" :: piece :: pieces))
      with (". " ++ join ". " (piece :: pieces))%string.
    cbn [append String.length]. rewrite IH. lia.
  - destruct (split "." s) as [|piece pieces] eqn:E;
      [exfalso; apply (split_not_nil "." s E)|].
    rewrite join_cons_char. cbn [String.length]. rewrite IH. lia.
Qed.

Lemma count_join_clean (pieces : list string) :
  Forall (fun piece => count_char "." piece = 0) pieces ->
  count_char "." (join ". " pieces) = List.length pieces - 1.
Proof.
  induction 1 as [|piece pieces Hp Hps IH]; [reflexivity|].
  destruct pieces as [|piece' pieces]; [simpl; exact Hp|].
  change (join ". " (piece :: piece' :: pieces))
    with (piece ++ ". " ++ join ". " (piece' :: pieces))%string.
  rewrite !count_char_app, Hp, IH. simpl. lia.
Qed.

Lemma Forall_firstn {A : Type} (P : A -> Prop) (n : nat) (l : list A) :
  Forall P l -> Forall P (firstn n l).
Proof.
  rewrite !Forall_forall. intros H x Hx. apply H. apply (in_firstn n _ _ Hx).
Qed.

Lemma string_length_app (a b : string) :
  String.length (a ++ b) = String.length a + String.length b.
Proof. induction a as [|x a IH]; simpl; [reflexivity | rewrite IH; reflexivity]. Qed.

(** X6.  [_limit_products] answers a value that is not a string, and the
    empty string, as it is.  Of a non-empty string it keeps at most
    [max_products] pieces: the answer ends in a period and has as many
    periods as pieces kept.  A text with fewer periods than [max_products]
    is not shortened but comes back longer, by one character per period
    and one for the final period. *)
Theorem limit_products_shape (products : val) (max_products : nat) :
  ((forall s, products = VStr s -> s = "") ->
   _limit_products products max_products = products) /\
  (forall s,
     products = VStr s -> s <> "" -> 1 <= max_products ->
     exists kept,
       _limit_products products max_products = VStr (kept ++ ".") /\
       count_char "." (kept ++ ".")
         = Nat.min max_products (count_char "." s + 1) /\
       (count_char "." s < max_products ->
        String.length (kept ++ ".")
          = String.length s + count_char "." s + 1)).
Proof.
  split.
  - intros H. unfold _limit_products.
    destruct products as [| | | s | |]; try reflexivity;
      try (destruct (negb (truthy _)); reflexivity).
    rewrite (H s eq_refl). reflexivity.
  - intros s -> Hs Hmax. unfold _limit_products, truthy.
    destruct (String.eqb s "") eqn:E;
      [apply String.eqb_eq in E; contradiction|].
    cbn [negb]. eexists. split; [reflexivity|].
    assert (Hlen := split_length "." s).
    split.
    + rewrite count_char_app, count_join_clean
        by (apply Forall_firstn, split_pieces_clean).
      rewrite length_firstn, Hlen. simpl. lia.
    + intros Hfew. rewrite firstn_all2 by lia.
      rewrite string_length_app, join_spread_length. simpl. lia.
Qed.

Lemma limit_products_shape_witness :
  exists kept,
    _limit_products (VStr "A. B.") 3 = VStr (kept ++ ".") /\
    String.length (kept ++ ".") = 8.
Proof.
  destruct (proj2 (limit_products_shape (VStr "A. B.") 3) "A. B." eq_refl)
    as [kept [E [_ Hlen]]]; [discriminate | lia |].
  exists kept. split; [exact E|].
  rewrite Hlen; [reflexivity | simpl; lia].
Defined.

Lemma sort_desc_sorted_id {A : Type} (l : list (Z * A)) :
  StronglySorted ge_key l -> sort_desc l = l.
Proof.
  induction 1 as [|x l Hs IH Hall]; [reflexivity|].
  simpl. rewrite IH. destruct l as [|y l]; [reflexivity|].
  simpl. inversion Hall as [|? ? Hy _]; subst. unfold ge_key in Hy.
  assert (E : Z.ltb (fst x) (fst y) = false) by (apply Z.ltb_ge; exact Hy).
  rewrite E. reflexivity.
Qed.

Lemma sorted_decorate {A : Type} (key : A -> Z) (l : list A) :
  StronglySorted (fun a b => (key b <= key a)%Z) l ->
  StronglySorted ge_key (map (fun x => (key x, x)) l).
Proof.
  induction 1 as [|x l Hs IH Hall]; simpl; constructor; [exact IH|].
  apply Forall_map. exact Hall.
Qed.

Lemma forallb_perm {A : Type} (f : A -> bool) (l l' : list A) :
  Permutation l l' -> forallb f l = true -> forallb f l' = true.
Proof.
  intros Hp. rewrite !forallb_forall. intros H x Hx. apply H.
  apply (Permutation_in _ (Permutation_sym Hp) Hx).
Qed.

Lemma forallb_firstn {A : Type} (f : A -> bool) (n : nat) (l : list A) :
  forallb f l = true -> forallb f (firstn n l) = true.
Proof.
  rewrite !forallb_forall. intros H x Hx. apply H. apply (in_firstn n _ _ Hx).
Qed.

(** Limiting a ranking again only cuts it again. *)
Lemma limit_keywords_ranked (l : list val) (max_keywords : Z) :
  forallb is_keyword_record l = true ->
  StronglySorted (fun a b => (volume b <= volume a)%Z) l ->
  _limit_keywords (VList l) max_keywords
    = Ok (VList (list_prefix max_keywords l)).
Proof.
  intros Hr Hs. rewrite (limit_keywords_records l max_keywords Hr).
  rewrite combine_map_decorated.
  rewrite (sort_desc_sorted_id _ (sorted_decorate volume l Hs)).
  rewrite map_map. simpl. rewrite map_id. reflexivity.
Qed.

Lemma list_prefix_firstn {A : Type} (n : Z) (l : list A) :
  exists k, list_prefix n l = firstn k l.
Proof. unfold list_prefix. destruct (Z.ltb n 0); eexists; reflexivity. Qed.

Lemma list_prefix_length {A : Type} (n : Z) (l : list A) :
  List.length (list_prefix n l)
    = if Z.ltb n 0 then List.length l - Z.to_nat (- n)
      else Nat.min (Z.to_nat n) (List.length l).
Proof.
  unfold list_prefix. destruct (Z.ltb n 0); rewrite length_firstn; lia.
Qed.

(** X7.  On a list of records whose Volume is an integer (or missing),
    [_limit_keywords] answers a list of entries of the input.  For a
    [max_keywords] that is not negative the answer has
    min([max_keywords], number of records) entries, and limiting it again
    gives the same answer.  A negative [max_keywords] makes the slice leave
    out the last [-max_keywords] entries of the ranking instead, and
    limiting the answer again leaves out as many again. *)
Theorem limit_keywords_idempotent (l : list val) (max_keywords : Z) :
  forallb is_keyword_record l = true ->
  exists limited,
    _limit_keywords (VList l) max_keywords = Ok (VList limited) /\
    (forall x, In x limited -> In x l) /\
    ((0 <= max_keywords)%Z ->
     List.length limited
       = Nat.min (Z.to_nat max_keywords) (List.length l) /\
     _limit_keywords (VList limited) max_keywords = Ok (VList limited)) /\
    ((max_keywords < 0)%Z ->
     List.length limited = List.length l - Z.to_nat (- max_keywords) /\
     exists again,
       _limit_keywords (VList limited) max_keywords = Ok (VList again) /\
       List.length again
         = List.length limited - Z.to_nat (- max_keywords)).
Proof.
  intros Hr. rewrite (limit_keywords_records l max_keywords Hr).
  destruct (sort_desc_by_key volume l) as [Hp [Hs _]].
  set (ranked := map snd (sort_desc (combine (map volume l) l))) in *.
  pose proof (Permutation_length Hp) as Hlen.
  destruct (list_prefix_firstn max_keywords ranked) as [k Ek].
  assert (Hagain :
    _limit_keywords (VList (list_prefix max_keywords ranked)) max_keywords
    = Ok (VList (list_prefix max_keywords
                   (list_prefix max_keywords ranked)))).
  { apply limit_keywords_ranked; rewrite Ek.
    - apply forallb_firstn. apply (forallb_perm _ _ _ Hp Hr).
    - apply sorted_firstn. exact Hs. }
  exists (list_prefix max_keywords ranked).
  split; [reflexivity|]. split; [|split].
  - intros x Hx. rewrite Ek in Hx.
    apply (Permutation_in _ (Permutation_sym Hp)).
    apply (in_firstn _ _ _ Hx).
  - intros Hmax.
    assert (E : Z.ltb max_keywords 0 = false) by (apply Z.ltb_ge; exact Hmax).
    split.
    + rewrite list_prefix_length, E. lia.
    + rewrite Hagain. unfold list_prefix. rewrite E.
      rewrite firstn_firstn, Nat.min_id. reflexivity.
  - intros Hmax.
    assert (E : Z.ltb max_keywords 0 = true) by (apply Z.ltb_lt; exact Hmax).
    split.
    + rewrite list_prefix_length, E. lia.
    + eexists. split; [exact Hagain|].
      rewrite (list_prefix_length max_keywords (list_prefix _ _)), E.
      reflexivity.
Qed.

Lemma limit_keywords_idempotent_witness :
  forallb is_keyword_record
    [ keyword "solar" 100; keyword "panels" 500; keyword "roof" 300 ] = true /\
  (exists limited,
     _limit_keywords
       (VList [ keyword "solar" 100; keyword "panels" 500;
                keyword "roof" 300 ]) 2 = Ok (VList limited) /\
     List.length limited = 2 /\
     _limit_keywords (VList limited) 2 = Ok (VList limited)) /\
  (exists limited again,
     _limit_keywords
       (VList [ keyword "solar" 100; keyword "panels" 500;
                keyword "roof" 300 ]) (-1) = Ok (VList limited) /\
     List.length limited = 2 /\
     _limit_keywords (VList limited) (-1) = Ok (VList again) /\
     List.length again = 1).
Proof.
  split; [reflexivity|]. split.
  - destruct (limit_keywords_idempotent
                [ keyword "solar" 100; keyword "panels" 500;
                  keyword "roof" 300 ] 2 eq_refl)
      as [limited [E [_ [Hpos _]]]].
    exists limited. split; [exact E|].
    destruct Hpos as [Hlen Hsame]; [lia|]. split; [exact Hlen | exact Hsame].
  - destruct (limit_keywords_idempotent
                [ keyword "solar" 100; keyword "panels" 500;
                  keyword "roof" 300 ] (-1) eq_refl)
      as [limited [E [_ [_ Hneg]]]].
    destruct Hneg as [Hlen [again [Eagain Hlen']]]; [lia|].
    exists limited, again. split; [exact E|]. split; [exact Hlen|].
    split; [exact Eagain|]. rewrite Hlen', Hlen. reflexivity.
Defined.

Lemma str_prefix_app_exact (n : nat) (p q : string) :
  String.length p = n -> str_prefix n (p ++ q) = p.
Proof.
  unfold str_prefix. revert n.
  induction p as [|c p IH]; intros n Hn; simpl in *; subst n.
  - destruct q; reflexivity.
  - simpl. f_equal. apply IH. reflexivity.
Qed.

Lemma str_prefix_length (n : nat) (s : string) :
  String.length (str_prefix n s) <= n.
Proof.
  unfold str_prefix. revert n.
  induction s as [|c s IH]; intros [|n]; simpl; try lia.
  specialize (IH n). lia.
Qed.

Lemma append_not_empty (p q : string) : q <> "" -> String.eqb (p ++ q) "" = false.
Proof.
  intros Hq. destruct p; simpl; [|reflexivity].
  destruct q; [contradiction | reflexivity].
Qed.

Lemma ok_inj {A : Type} (a b : A) : Ok a = Ok b -> a = b.
Proof. intros H. congruence. Qed.

(** X8.  An answer of [_summarize_strategy] has at most 203 characters (or
    entries, for a list), summarizing it again gives the same answer, and a
    value that counts as false - [None], [0], [False] or an empty string,
    list or dict - is summarized to the empty string. *)
Theorem summarize_strategy_idempotent (strategy_output summary : val) :
  _summarize_strategy strategy_output = Ok summary ->
  _summarize_strategy summary = Ok summary /\
  size summary <= 203 /\
  (truthy strategy_output = false -> summary = VStr "").
Proof.
  unfold _summarize_strategy at 1.
  destruct (truthy strategy_output) eqn:Ht; cbn [negb].
  - destruct strategy_output as [| | | s | l |]; try discriminate;
      intros H; apply ok_inj in H; subst summary;
      (split; [|split; [|discriminate]]).
    + destruct (Nat.ltb 200 (String.length s)) eqn:El.
      * apply Nat.ltb_lt in El.
        destruct (str_prefix_split 200 s) as [rest [_ Hp]]; [lia|].
        unfold _summarize_strategy, truthy.
        rewrite append_not_empty by discriminate. cbn [negb].
        rewrite string_length_app, Hp. simpl.
        rewrite (str_prefix_app_exact 200 _ _ Hp). reflexivity.
      * apply Nat.ltb_ge in El. rewrite (str_prefix_all 200 s El).
        unfold _summarize_strategy. rewrite Ht. cbn [negb].
        assert (E : Nat.ltb 200 (String.length s) = false)
          by (apply Nat.ltb_ge; exact El).
        rewrite E, (str_prefix_all 200 s El). reflexivity.
    + cbn [size]. pose proof (str_prefix_length 200 s) as Hp.
      destruct (Nat.ltb 200 (String.length s));
        [rewrite string_length_app; cbn [String.length]; lia | lia].
    + destruct (Nat.ltb 200 (List.length l)) eqn:El.
      * apply Nat.ltb_lt in El.
        assert (Hp : List.length (firstn 200 l) = 200)
          by (rewrite length_firstn; lia).
        remember (firstn 200 l) as kept eqn:Ek. clear Ek.
        unfold _summarize_strategy, truthy.
        destruct (kept ++ [VStr "."; VStr "."; VStr "."]) as [|x rest] eqn:E.
        { apply (f_equal (@List.length val)) in E.
          rewrite length_app in E. simpl in E. lia. }
        cbn [negb]. rewrite <- E. clear E x rest.
        assert (Hlong : Nat.ltb 200
                          (List.length
                             (kept ++ [VStr "."; VStr "."; VStr "."])) = true).
        { apply Nat.ltb_lt. rewrite length_app. simpl. lia. }
        rewrite Hlong, firstn_app, Hp, Nat.sub_diag.
        rewrite (firstn_all2 kept) by lia.
        change (firstn 0 [VStr "."; VStr "."; VStr "."]) with (@nil val).
        rewrite app_nil_r. reflexivity.
      * apply Nat.ltb_ge in El. rewrite (firstn_all2 l El).
        unfold _summarize_strategy. rewrite Ht. cbn [negb].
        assert (E : Nat.ltb 200 (List.length l) = false)
          by (apply Nat.ltb_ge; exact El).
        rewrite E, (firstn_all2 l El). reflexivity.
    + cbn [size]. pose proof (firstn_le_length 200 l) as Hp.
      destruct (Nat.ltb 200 (List.length l));
        [rewrite length_app; cbn [List.length]; lia | lia].
  - intros H. injection H as <-. repeat split. simpl. lia.
Qed.

Lemma summarize_strategy_idempotent_witness :
  exists summary,
    _summarize_strategy (VStr (replicate 300 "x")) = Ok summary /\
    _summarize_strategy summary = Ok summary /\
    size summary <= 203.
Proof.
  destruct (_summarize_strategy (VStr (replicate 300 "x"))) as [summary|e]
    eqn:E; [|vm_compute in E; discriminate E].
  exists summary. split; [reflexivity|].
  destruct (summarize_strategy_idempotent (VStr (replicate 300 "x")) summary E)
    as [H1 [H2 _]].
  split; [exact H1 | exact H2].
Defined.

Lemma reduced_entries_keys_sub (semantic_fields : dict) (k : string) :
  existsb (String.eqb k) (keys (reduced_entries semantic_fields)) = true ->
  existsb (String.eqb k) (keys semantic_fields) = true.
Proof.
  induction semantic_fields as [|[theme data] rest IH]; simpl; [auto|].
  destruct data; simpl; intros H;
    try (rewrite (IH H); apply orb_true_r).
  apply orb_prop in H. destruct H as [H|H];
    [rewrite H; reflexivity | rewrite (IH H); apply orb_true_r].
Qed.

Lemma reduced_entries_distinct (semantic_fields : dict) :
  distinct (keys semantic_fields) = true ->
  distinct (keys (reduced_entries semantic_fields)) = true.
Proof.
  induction semantic_fields as [|[theme data] rest IH]; simpl; [auto|].
  intros H. apply andb_prop in H. destruct H as [Hn Hd].
  destruct data; simpl; try (apply IH; exact Hd).
  rewrite (IH Hd), andb_true_r.
  destruct (existsb (String.eqb theme) (keys (reduced_entries rest))) eqn:E;
    [|reflexivity].
  rewrite (reduced_entries_keys_sub rest theme E) in Hn. discriminate Hn.
Qed.

Lemma reduced_record_again (d : dict) :
  exists d', reduced_record d = VDict d' /\ reduced_record d' = VDict d'.
Proof.
  unfold reduced_record at 1. eexists. split; [reflexivity|].
  remember (firstn 5 (list_of (get d "related_google" (VList [])))) as rg
    eqn:Hrg.
  remember (get d "search_intent" (VStr "")) as si eqn:Hsi.
  remember (firstn 3 (list_of (get d "suggested_titles" (VList [])))) as st
    eqn:Hst.
  unfold reduced_record.
  cbn [get lookup String.eqb Ascii.eqb Bool.eqb list_of].
  rewrite Hrg, Hst, !firstn_firstn. reflexivity.
Qed.

Lemma reduced_entries_again (semantic_fields : dict) :
  reduced_entries (reduced_entries semantic_fields)
    = reduced_entries semantic_fields.
Proof.
  induction semantic_fields as [|[theme data] rest IH]; [reflexivity|].
  destruct data; cbn [reduced_entries]; try exact IH.
  destruct (reduced_record_again d) as [d' [E Hr]].
  rewrite E. cbn [reduced_entries]. rewrite Hr, IH. reflexivity.
Qed.

Lemma reduced_entries_shaped (semantic_fields : dict) :
  forallb (fun kv => match snd kv with
                     | VDict d => is_semantic_record d
                     | _ => true
                     end) (reduced_entries semantic_fields) = true.
Proof.
  induction semantic_fields as [|[theme data] rest IH]; [reflexivity|].
  destruct data; simpl; exact IH.
Qed.

(** The summary in closed form: the loop appends the reduced records to the
    entries it has, in the order of the input. *)
Lemma summarize_items_closed (items summarized : dict) :
  is_semantic_mapping items = true ->
  Forall (fun k => lookup k summarized = None) (keys items) ->
  summarize_items items summarized = Ok (summarized ++ reduced_entries items).
Proof.
  unfold is_semantic_mapping. revert summarized.
  induction items as [|[t data] items IH]; intros summarized H Hfree.
  - simpl. rewrite app_nil_r. reflexivity.
  - apply andb_prop in H. destruct H as [Hd Hf]. simpl in Hd, Hf.
    apply andb_prop in Hd. destruct Hd as [Ht Hd].
    apply andb_prop in Hf. destruct Hf as [Hr Hf].
    apply negb_true_iff in Ht.
    inversion Hfree as [|? ? Hfree_t Hfree_rest]; subst.
    assert (Hrest : (distinct (keys items)
                     && forallb (fun kv => match snd kv with
                                           | VDict d => is_semantic_record d
                                           | _ => true
                                           end) items)%bool = true)
      by (rewrite Hd, Hf; reflexivity).
    destruct data as [| | | | |d];
      try (cbn [summarize_items reduced_entries];
           apply (IH summarized Hrest Hfree_rest)).
    unfold is_semantic_record in Hr. apply andb_prop in Hr.
    destruct Hr as [Hg Hs].
    cbn [summarize_items reduced_entries].
    rewrite (slice_to_record_field 5 d "related_google" Hg).
    rewrite (slice_to_record_field 3 d "suggested_titles" Hs).
    cbn [bind]. fold (reduced_record d).
    rewrite (dict_set_absent _ _ _ Hfree_t).
    rewrite IH; [rewrite <- app_assoc; reflexivity | exact Hrest |].
    rewrite Forall_forall in *. intros k Hk.
    rewrite lookup_app, (Hfree_rest k Hk). simpl.
    destruct (String.eqb k t) eqn:E; [|reflexivity].
    apply String.eqb_eq in E. subst k. exfalso.
    assert (Hin : existsb (String.eqb t) (keys items) = true).
    { apply existsb_exists. exists t. split; [exact Hk|].
      apply String.eqb_refl. }
    rewrite Hin in Ht. discriminate Ht.
Qed.

(** X9.  The summary of a semantic-fields mapping lists the themes that are
    mappings in the order of the input, each with its reduced record, and
    summarizing the summary again gives the same summary. *)
Theorem summarize_semantic_fields_idempotent (semantic_fields : dict) :
  is_semantic_mapping semantic_fields = true ->
  _summarize_semantic_fields (VDict semantic_fields)
    = Ok (VDict (reduced_entries semantic_fields)) /\
  _summarize_semantic_fields (VDict (reduced_entries semantic_fields))
    = Ok (VDict (reduced_entries semantic_fields)).
Proof.
  assert (Hsum : forall sf,
    is_semantic_mapping sf = true ->
    _summarize_semantic_fields (VDict sf) = Ok (VDict (reduced_entries sf))).
  { intros sf H. unfold _summarize_semantic_fields.
    destruct sf as [|entry rest]; [reflexivity|]. cbn [truthy negb].
    rewrite (summarize_items_closed (entry :: rest) [] H);
      [reflexivity|].
    apply Forall_forall. intros k _. reflexivity. }
  intros H. split; [apply Hsum; exact H|].
  rewrite Hsum; [rewrite reduced_entries_again; reflexivity|].
  unfold is_semantic_mapping in *. apply andb_prop in H.
  destruct H as [Hd _].
  rewrite (reduced_entries_distinct _ Hd), reduced_entries_shaped.
  reflexivity.
Qed.

Lemma summarize_semantic_fields_idempotent_witness :
  _summarize_semantic_fields
    (VDict [ ("note", VStr "not a mapping");
             ("solar", VDict [ ("search_intent", VStr "buy") ]) ])
  = Ok (VDict [ ("solar",
                  VDict [ ("related_google", VList []);
                          ("search_intent", VStr "buy");
                          ("suggested_titles", VList []) ]) ]).
Proof.
  apply (proj1 (summarize_semantic_fields_idempotent
                  [ ("note", VStr "not a mapping");
                    ("solar", VDict [ ("search_intent", VStr "buy") ]) ]
                  eq_refl)).
Defined.

(** ** File names (api_service.py) *)

Lemma remove_chars_all (chars : list ascii) (s : string) :
  all_chars (fun c => negb (char_in c chars)) (remove_chars chars s) = true.
Proof.
  induction s as [|c s IH]; simpl; [reflexivity|].
  destruct (char_in c chars) eqn:E; simpl; [exact IH|].
  rewrite E, IH. reflexivity.
Qed.

Lemma remove_chars_id (chars : list ascii) (s : string) :
  all_chars (fun c => negb (char_in c chars)) s = true ->
  remove_chars chars s = s.
Proof.
  induction s as [|c s IH]; simpl; [reflexivity|].
  intros H. apply andb_prop in H. destruct H as [Hc Hs].
  apply negb_true_iff in Hc. rewrite Hc, (IH Hs). reflexivity.
Qed.

Lemma lstrip_all (p : ascii -> bool) (chars : list ascii) (s : string) :
  all_chars p s = true -> all_chars p (lstrip chars s) = true.
Proof.
  induction s as [|c s IH]; simpl; [reflexivity|].
  intros H. destruct (char_in c chars); [|exact H].
  apply andb_prop in H. apply IH. apply H.
Qed.

Lemma rstrip_all (p : ascii -> bool) (chars : list ascii) (s : string) :
  all_chars p s = true -> all_chars p (rstrip chars s) = true.
Proof.
  induction s as [|c s IH]; simpl; [reflexivity|].
  intros H. apply andb_prop in H. destruct H as [Hc Hs].
  specialize (IH Hs).
  destruct (rstrip chars s) as [|a r].
  - destruct (char_in c chars); simpl; [reflexivity|].
    rewrite Hc. reflexivity.
  - change (all_chars p (String c (String a r)))
      with (p c && all_chars p (String a r)).
    rewrite Hc, IH. reflexivity.
Qed.

Lemma lstrip_starts (chars : list ascii) (s : string) :
  starts_in chars (lstrip chars s) = false.
Proof.
  induction s as [|c s IH]; simpl; [reflexivity|].
  destruct (char_in c chars) eqn:E; [exact IH | exact E].
Qed.

Lemma lstrip_id (chars : list ascii) (s : string) :
  starts_in chars s = false -> lstrip chars s = s.
Proof.
  destruct s as [|c s]; simpl; [reflexivity|].
  intros E. rewrite E. reflexivity.
Qed.

Lemma rstrip_starts (chars : list ascii) (s : string) :
  starts_in chars s = false -> starts_in chars (rstrip chars s) = false.
Proof.
  destruct s as [|c s]; simpl; [reflexivity|].
  intros E. destruct (rstrip chars s); [rewrite E|]; exact E.
Qed.

Lemma rstrip_ends (chars : list ascii) (s : string) :
  ends_in chars (rstrip chars s) = false.
Proof.
  induction s as [|c s IH]; simpl; [reflexivity|].
  destruct (rstrip chars s) as [|a r].
  - destruct (char_in c chars) eqn:E; [reflexivity | exact E].
  - exact IH.
Qed.

Lemma rstrip_id (chars : list ascii) (s : string) :
  ends_in chars s = false -> rstrip chars s = s.
Proof.
  induction s as [|c s IH]; [reflexivity|].
  cbn [ends_in rstrip]. destruct s as [|a s].
  - intros E. cbn [rstrip]. rewrite E. reflexivity.
  - intros E. rewrite (IH E). reflexivity.
Qed.

Lemma rstrip_length (chars : list ascii) (s : string) :
  String.length (rstrip chars s) <= String.length s.
Proof.
  induction s as [|c s IH]; simpl; [lia|].
  destruct (rstrip chars s) as [|a r].
  - destruct (char_in c chars); simpl; lia.
  - simpl in *. lia.
Qed.

Lemma rstrip_not_empty (chars : list ascii) (s : string) :
  s <> "" -> starts_in chars s = false -> rstrip chars s <> "".
Proof.
  destruct s as [|c s]; [contradiction|]. simpl. intros _ E.
  destruct (rstrip chars s); [rewrite E|]; discriminate.
Qed.

Lemma str_prefix_all_chars (p : ascii -> bool) (n : nat) (s : string) :
  all_chars p s = true -> all_chars p (str_prefix n s) = true.
Proof.
  unfold str_prefix. revert n.
  induction s as [|c s IH]; intros [|n] H; simpl in *; try reflexivity.
  apply andb_prop in H. destruct H as [Hc Hs].
  rewrite Hc, (IH n Hs). reflexivity.
Qed.

Lemma str_prefix_starts (chars : list ascii) (n : nat) (s : string) :
  starts_in chars s = false -> starts_in chars (str_prefix n s) = false.
Proof.
  unfold str_prefix. destruct s as [|c s], n as [|n]; simpl; auto.
Qed.

(** What the first two steps of [sanitize_filename] leave. *)
Lemma stripped_name (filename : string) :
  all_chars (fun c => negb (char_in c invalid_chars))
    (strip [" "; "."]%char (remove_chars invalid_chars filename)) = true /\
  starts_in [" "; "."]%char
    (strip [" "; "."]%char (remove_chars invalid_chars filename)) = false /\
  ends_in [" "; "."]%char
    (strip [" "; "."]%char (remove_chars invalid_chars filename)) = false.
Proof.
  unfold strip. split; [|split].
  - apply rstrip_all, lstrip_all, remove_chars_all.
  - apply rstrip_starts, lstrip_starts.
  - apply rstrip_ends.
Qed.

Lemma sanitize_filename_props (filename : string) :
  sanitize_filename filename <> "" /\
  String.length (sanitize_filename filename) <= 200 /\
  all_chars (fun c => negb (char_in c invalid_chars))
    (sanitize_filename filename) = true /\
  starts_in [" "; "."]%char (sanitize_filename filename) = false.
Proof.
  unfold sanitize_filename.
  destruct (stripped_name filename) as [Ha [Hs _]].
  set (stripped := strip _ _) in *.
  destruct (String.eqb stripped "") eqn:E.
  - change (Nat.ltb 200 (String.length "untitled")) with false. cbv beta iota.
    repeat split; try reflexivity; [discriminate | simpl; lia].
  - destruct (Nat.ltb 200 (String.length stripped)) eqn:El.
    + apply Nat.ltb_lt in El.
      destruct (str_prefix_split 200 stripped) as [rest [_ Hlen]]; [lia|].
      repeat split.
      * intros E0. rewrite E0 in Hlen. discriminate Hlen.
      * lia.
      * apply str_prefix_all_chars. exact Ha.
      * apply str_prefix_starts. exact Hs.
    + apply Nat.ltb_ge in El. apply String.eqb_neq in E.
      repeat split; assumption.
Qed.

Lemma all_chars_count (chars : list ascii) (c : ascii) (s : string) :
  In c chars ->
  all_chars (fun c => negb (char_in c chars)) s = true ->
  count_char c s = 0.
Proof.
  intros Hc. induction s as [|a s IH]; [reflexivity|].
  cbn [all_chars count_char]. intros H. apply andb_prop in H.
  destruct H as [Ha Hs]. rewrite (IH Hs).
  destruct (Ascii.eqb c a) eqn:E; [|reflexivity].
  apply Ascii.eqb_eq in E. subst a. exfalso.
  apply negb_true_iff in Ha.
  assert (Hin : char_in c chars = true).
  { apply existsb_exists. exists c. split; [exact Hc | apply Ascii.eqb_refl]. }
  rewrite Hin in Ha. discriminate Ha.
Qed.

(** X10.  Whatever the file name, [sanitize_filename] answers a name that is
    not empty, has at most 200 characters, holds none of the nine invalid
    characters, and does not begin with a space or a period. *)
Theorem sanitize_filename_safe (filename : string) :
  sanitize_filename filename <> "" /\
  String.length (sanitize_filename filename) <= 200 /\
  (forall c,
     In c invalid_chars ->
     count_char c (sanitize_filename filename) = 0) /\
  starts_in [" "; "."]%char (sanitize_filename filename) = false.
Proof.
  destruct (sanitize_filename_props filename) as [Hne [Hlen [Hall Hst]]].
  repeat match goal with |- _ /\ _ => split end; try assumption.
  intros c Hc. apply (all_chars_count invalid_chars); assumption.
Qed.

Lemma sanitize_filename_of_safe (name : string) :
  name <> "" -> String.length name <= 200 ->
  all_chars (fun c => negb (char_in c invalid_chars)) name = true ->
  starts_in [" "; "."]%char name = false ->
  sanitize_filename name = rstrip [" "; "."]%char name.
Proof.
  intros Hne Hlen Hall Hst. unfold sanitize_filename, strip.
  rewrite (remove_chars_id _ _ Hall), (lstrip_id _ _ Hst).
  pose proof (rstrip_not_empty _ _ Hne Hst) as Hr.
  pose proof (rstrip_length [" "; "."]%char name) as Hl.
  apply String.eqb_neq in Hr. rewrite Hr.
  assert (El : Nat.ltb 200 (String.length (rstrip [" "; "."]%char name)) = false)
    by (apply Nat.ltb_ge; lia).
  rewrite El. reflexivity.
Qed.

Lemma remove_chars_app (chars : list ascii) (p q : string) :
  remove_chars chars (p ++ q)
    = (remove_chars chars p ++ remove_chars chars q)%string.
Proof.
  induction p as [|c p IH]; simpl; [reflexivity|].
  destruct (char_in c chars); rewrite IH; reflexivity.
Qed.

Lemma rstrip_app (chars : list ascii) (p q : string) :
  rstrip chars q <> "" ->
  rstrip chars (p ++ q) = (p ++ rstrip chars q)%string.
Proof.
  intros Hq. induction p as [|c p IH]; [reflexivity|].
  cbn [append rstrip]. rewrite IH.
  destruct (p ++ rstrip chars q)%string eqn:E; [|reflexivity].
  destruct p; simpl in E; [contradiction | discriminate E].
Qed.

Lemma rstrip_head (chars : list ascii) (c : ascii) (s : string) :
  char_in c chars = false ->
  exists rest, rstrip chars (String c s) = String c rest.
Proof.
  intros E. cbn [rstrip]. destruct (rstrip chars s) as [|a r].
  - rewrite E. exists "". reflexivity.
  - exists (String a r). reflexivity.
Qed.

Lemma append_assoc (p q r : string) :
  ((p ++ q) ++ r = p ++ (q ++ r))%string.
Proof. induction p as [|c p IH]; simpl; [|rewrite IH]; reflexivity. Qed.

(** A name cut right after a period. *)
Lemma sanitize_filename_cut (tail : string) :
  sanitize_filename (replicate 199 "a" ++ "." ++ "b" ++ tail)
    = (replicate 199 "a" ++ ".")%string.
Proof.
  assert (Ename : (replicate 199 "a" ++ "." ++ "b" ++ tail)%string
                  = ((replicate 199 "a" ++ ".") ++ String "b" tail)%string).
  { rewrite append_assoc. reflexivity. }
  rewrite Ename. clear Ename.
  assert (Eclean : remove_chars invalid_chars (replicate 199 "a" ++ ".")
                   = (replicate 199 "a" ++ ".")%string)
    by (vm_compute; reflexivity).
  assert (Elen : String.length (replicate 199 "a" ++ ".") = 200)
    by (vm_compute; reflexivity).
  assert (Ehead : exists rest,
            (replicate 199 "a" ++ ".")%string = String "a" rest).
  { eexists. vm_compute. reflexivity. }
  unfold sanitize_filename, strip.
  rewrite remove_chars_app, Eclean.
  change (remove_chars invalid_chars (String "b" tail))
    with (String "b" (remove_chars invalid_chars tail)).
  destruct (rstrip_head [" "; "."]%char "b"
              (remove_chars invalid_chars tail) eq_refl) as [rest Er].
  rewrite lstrip_id.
  2:{ destruct Ehead as [r ->]. reflexivity. }
  rewrite rstrip_app by (rewrite Er; discriminate).
  rewrite Er, append_not_empty by discriminate.
  rewrite string_length_app, Elen.
  assert (El : Nat.ltb 200 (200 + String.length (String "b" rest)) = true)
    by (apply Nat.ltb_lt; simpl; lia).
  rewrite El. apply str_prefix_app_exact. exact Elen.
Qed.

(** X11.  Sanitizing a sanitized name again gives the same name exactly
    when the name does not end in a space or a period.  It never does when
    the stripped name has at most 200 characters; the cut to 200 characters
    comes after the stripping, so a longer name can be cut right after a
    space or a period, and then sanitizing again shortens it further. *)
Theorem sanitize_filename_again (filename : string) :
  (sanitize_filename (sanitize_filename filename) = sanitize_filename filename
   <-> ends_in [" "; "."]%char (sanitize_filename filename) = false) /\
  (String.length
     (strip [" "; "."]%char (remove_chars invalid_chars filename)) <= 200 ->
   ends_in [" "; "."]%char (sanitize_filename filename) = false) /\
  (forall tail,
     sanitize_filename (replicate 199 "a" ++ "." ++ "b" ++ tail)
       = (replicate 199 "a" ++ ".")%string /\
     ends_in [" "; "."]%char (replicate 199 "a" ++ ".") = true).
Proof.
  split; [|split].
  - destruct (sanitize_filename_props filename) as [Hne [Hlen [Hall Hst]]].
    rewrite (sanitize_filename_of_safe _ Hne Hlen Hall Hst). split.
    + intros E. rewrite <- E. apply rstrip_ends.
    + apply rstrip_id.
  - intros Hlen. unfold sanitize_filename.
    destruct (stripped_name filename) as [_ [_ He]].
    set (stripped := strip _ _) in *.
    destruct (String.eqb stripped ""); [reflexivity|].
    assert (El : Nat.ltb 200 (String.length stripped) = false)
      by (apply Nat.ltb_ge; lia).
    rewrite El. exact He.
  - intros tail. split; [apply sanitize_filename_cut|].
    vm_compute. reflexivity.
Qed.

(** ** The inputs of the service, through the chunker *)

(** The stages seo and content cannot be built from the inputs of the
    service: their semantic fields are a list, which is never empty. *)
Lemma mock_inputs_raise (payload : GeneratePayload)
    (brand_folder macro_name agent_role task_stage : string) :
  In task_stage ["seo"; "content"] ->
  build_context (__init__ (create_mock_inputs payload brand_folder macro_name))
    agent_role task_stage = Raise AttributeError.
Proof.
  intros [<- | [<- | []]]; reflexivity.
Qed.

Lemma mock_inputs_build (payload : GeneratePayload)
    (brand_folder macro_name agent_role task_stage : string) :
  ~ In task_stage ["seo"; "content"] ->
  exists view,
    build_context (__init__ (create_mock_inputs payload brand_folder macro_name))
      agent_role task_stage = Ok view /\
    lookup "brand" view = Some (VStr (brand payload)) /\
    lookup "theme" view = Some (VStr "") /\
    lookup "name" view = Some (VStr "") /\
    lookup "preferred_language" view
      = Some (VStr (str_or (language payload) "pt_BR")).
Proof.
  intros Hn. unfold build_context.
  assert (Hseo : String.eqb task_stage "seo" = false).
  { apply String.eqb_neq. intros E. apply Hn. left. symmetry. exact E. }
  assert (Hcontent : String.eqb task_stage "content" = false).
  { apply String.eqb_neq. intros E. apply Hn. right. left. symmetry. exact E. }
  rewrite Hseo, Hcontent.
  repeat match goal with
         | |- context [if String.eqb task_stage ?s then _ else _] =>
             destruct (String.eqb task_stage s)
         end;
    (eexists; split; [reflexivity|]);
    rewrite !adjust_for_agent_other by discriminate;
    repeat split.
Qed.

(** X12.  The crew that [generate_blog] sets up answers no request of the
    stages seo and content: the inputs of the service carry their semantic
    fields as a list that starts with the topic, and the summarizer asks
    them for [items].  Every other request is answered, with the brand of
    the payload, an empty theme and name (the inputs have no such keys), and
    the language of the payload, or pt_BR when it gives none. *)
Theorem service_crew_views (payload : GeneratePayload)
    (brand_folder macro_name agent_role task_name : string) :
  (In (get_task_stage agent_role task_name) ["seo"; "content"] ->
   fst (SEOLab_CPG.get_optimized_context
          (service_crew payload brand_folder macro_name)
          agent_role task_name) = Raise AttributeError) /\
  (~ In (get_task_stage agent_role task_name) ["seo"; "content"] ->
   exists view,
     fst (SEOLab_CPG.get_optimized_context
            (service_crew payload brand_folder macro_name)
            agent_role task_name) = Ok view /\
     lookup "brand" view = Some (VStr (brand payload)) /\
     lookup "theme" view = Some (VStr "") /\
     lookup "name" view = Some (VStr "") /\
     lookup "preferred_language" view
       = Some (VStr (str_or (language payload) "pt_BR"))).
Proof.
  assert (Hfst :
    fst (SEOLab_CPG.get_optimized_context
           (service_crew payload brand_folder macro_name)
           agent_role task_name)
    = build_context
        (__init__ (create_mock_inputs payload brand_folder macro_name))
        agent_role (get_task_stage agent_role task_name)).
  { unfold service_crew, SEOLab_CPG.get_optimized_context,
      SEOLab_CPG.initialize_context_chunker.
    cbn [SEOLab_CPG.context_chunker].
    rewrite <- get_minimal_context_fresh.
    destruct (get_minimal_context _ _ _). reflexivity. }
  rewrite Hfst. split.
  - apply mock_inputs_raise.
  - apply mock_inputs_build.
Qed.

(** ** The crew (crew.py) *)

Lemma crew_serve_chunker (brand_folder : string) (chunker : ContextChunker)
    (requests : list (string * string)) :
  SEOLab_CPG.serve (SEOLab_CPG.mk brand_folder (Some chunker)) requests
    = serve chunker requests.
Proof.
  revert chunker.
  induction requests as [|[agent_role task_name] requests IH];
    intros chunker; [reflexivity|].
  cbn [SEOLab_CPG.serve serve].
  unfold SEOLab_CPG.get_optimized_context, get_optimized_context.
  cbn [SEOLab_CPG.context_chunker SEOLab_CPG.brand_folder].
  destruct (get_minimal_context chunker agent_role
              (get_task_stage agent_role task_name)) as [answer chunker'].
  rewrite IH. reflexivity.
Qed.

Lemma coherent_init (pool : dict) : coherent (__init__ pool).
Proof. intros agent_role task_stage context _ H. discriminate H. Qed.

(** X13.  A crew whose chunker was never initialised answers every request
    with the empty dict, without an error.  Once
    [initialize_context_chunker] has run, whatever the crew held before,
    every request is answered with the view built from the new inputs for
    the role and the stage of the task: initialising again discards the
    views cached for the old inputs. *)
Theorem crew_serve (self : SEOLab_CPG.t) (requests : list (string * string)) :
  (SEOLab_CPG.context_chunker self = None ->
   SEOLab_CPG.serve self requests = map (fun _ => Ok []) requests) /\
  (forall inputs,
     SEOLab_CPG.serve (SEOLab_CPG.initialize_context_chunker self inputs)
       requests
     = map (fun request =>
              build_context (__init__ inputs) (fst request)
                (get_task_stage (fst request) (snd request)))
           requests).
Proof.
  split.
  - intros Hnone.
    induction requests as [|[agent_role task_name] requests IH];
      [reflexivity|].
    cbn [SEOLab_CPG.serve map]. unfold SEOLab_CPG.get_optimized_context.
    rewrite Hnone, IH. reflexivity.
  - intros inputs. unfold SEOLab_CPG.initialize_context_chunker.
    rewrite crew_serve_chunker. apply serve_coherent, coherent_init.
Qed.

(** ** The metadata of a generated post (api_service.py) *)

Lemma prefix_other (a b : ascii) (p q line : string) :
  a <> b ->
  String.prefix (String a p) line = true ->
  String.prefix (String b q) line = false.
Proof.
  intros Hab. destruct line as [|c line]; simpl; [discriminate|].
  destruct (ascii_dec a c) as [->|_]; [|discriminate].
  intros _. destruct (ascii_dec b c) as [->|_]; [contradiction | reflexivity].
Qed.

Lemma keys_dict_set {A : Type} (k : string) (v : A) (d : list (string * A))
    (k' : string) :
  In k' (keys (dict_set k v d)) -> k' = k \/ In k' (keys d).
Proof.
  induction d as [|[k0 v0] d IH]; simpl.
  - intros [E|[]]. left. symmetry. exact E.
  - destruct (String.eqb k k0) eqn:E; simpl.
    + intros [E'|H]; [left; symmetry; exact E' | right; right; exact H].
    + intros [E'|H]; [right; left; exact E'|].
      destruct (IH H) as [E'|H']; [left; exact E' | right; right; exact H'].
Qed.

Lemma dict_set_not_empty {A : Type} (k : string) (v : A)
    (d : list (string * A)) :
  dict_set k v d <> [].
Proof.
  destruct d as [|[k0 v0] d]; simpl; [discriminate|].
  destruct (String.eqb k k0); discriminate.
Qed.

Lemma last_with_snoc (prefix : string) (lines : list string) (line : string) :
  last_with prefix (lines ++ [line])
    = if String.prefix prefix line then Some line
      else last_with prefix lines.
Proof. unfold last_with. rewrite rev_unit. reflexivity. Qed.

(** What the loop over the lines leaves in [meta_data]. *)
Lemma parse_meta_lines (lines : list string) :
  lookup "title" (fold_left parse_meta_line lines [])
    = option_map
        (fun line => VStr (strip whitespace (remove_all "title:" line)))
        (last_with "title:" lines) /\
  lookup "description" (fold_left parse_meta_line lines [])
    = option_map
        (fun line => VStr (strip whitespace (remove_all "description:" line)))
        (last_with "description:" lines) /\
  lookup "keywords" (fold_left parse_meta_line lines [])
    = option_map
        (fun line =>
           VList (map VStr
                    (split_keywords
                       (strip whitespace (remove_all "keywords:" line)))))
        (last_with "keywords:" lines) /\
  incl (keys (fold_left parse_meta_line lines []))
    [ "title"; "description"; "keywords" ] /\
  truthy (VDict (fold_left parse_meta_line lines []))
    = existsb recognised lines.
Proof.
  induction lines as [|line lines IH] using rev_ind.
  - repeat split; try reflexivity. intros k [].
  - destruct IH as [Ht [Hd [Hk [Hi Hr]]]].
    rewrite fold_left_app, !last_with_snoc, existsb_app. cbn [fold_left].
    set (meta_data := fold_left parse_meta_line lines []) in *.
    unfold parse_meta_line. unfold recognised at 2. cbn [existsb].
    destruct (String.prefix "title:" line) eqn:E1.
    { rewrite (prefix_other "t" "d" _ "escription:" line) by
        (discriminate || exact E1).
      rewrite (prefix_other "t" "k" _ "eywords:" line) by
        (discriminate || exact E1).
      rewrite lookup_dict_set_eq, !lookup_dict_set_neq by discriminate.
      repeat match goal with |- _ /\ _ => split end;
        try assumption; try reflexivity.
      - intros k Hin. apply keys_dict_set in Hin.
        destruct Hin as [->|Hin]; [left; reflexivity | exact (Hi k Hin)].
      - cbn [orb]. rewrite orb_true_r.
        pose proof (dict_set_not_empty "title"
          (VStr (strip whitespace (remove_all "title:" line)))
          meta_data) as Hne.
        destruct (dict_set _ _ _); [contradiction | reflexivity]. }
    destruct (String.prefix "description:" line) eqn:E2.
    { rewrite (prefix_other "d" "k" _ "eywords:" line) by
        (discriminate || exact E2).
      rewrite lookup_dict_set_eq, !lookup_dict_set_neq by discriminate.
      repeat match goal with |- _ /\ _ => split end;
        try assumption; try reflexivity.
      - intros k Hin. apply keys_dict_set in Hin.
        destruct Hin as [->|Hin]; [right; left; reflexivity | exact (Hi k Hin)].
      - cbn [orb]. rewrite orb_true_r.
        pose proof (dict_set_not_empty "description"
          (VStr (strip whitespace (remove_all "description:" line)))
          meta_data) as Hne.
        destruct (dict_set _ _ _); [contradiction | reflexivity]. }
    destruct (String.prefix "keywords:" line) eqn:E3.
    { rewrite lookup_dict_set_eq, !lookup_dict_set_neq by discriminate.
      repeat match goal with |- _ /\ _ => split end;
        try assumption; try reflexivity.
      - intros k Hin. apply keys_dict_set in Hin.
        destruct Hin as [->|Hin];
          [right; right; left; reflexivity | exact (Hi k Hin)].
      - cbn [orb]. rewrite orb_true_r.
        pose proof (dict_set_not_empty "keywords"
          (VList (map VStr
             (split_keywords
                (strip whitespace (remove_all "keywords:" line)))))
          meta_data) as Hne.
        destruct (dict_set _ _ _); [contradiction | reflexivity]. }
    repeat match goal with |- _ /\ _ => split end; try assumption.
    cbn [orb]. rewrite orb_false_r. exact Hr.
Qed.

(** X14.  The metadata of a post.  When the metafields file does not exist,
    or none of its lines starts with title:, description: or keywords:, the
    metadata are the three defaults made from the payload.  Otherwise the
    payload is not used at all: each of the three keys is present exactly
    when a line starts with its prefix, its value is read from the last
    such line, and there is no other key - a file that gives only a title
    yields metadata without description and keywords. *)
Theorem meta_data_of_lines (payload : GeneratePayload) (content : string) :
  (existsb recognised (split newline content) = false ->
   meta_data_of payload (Some content) = meta_data_of payload None) /\
  (existsb recognised (split newline content) = true ->
   lookup "title" (meta_data_of payload (Some content))
     = option_map
         (fun line => VStr (strip whitespace (remove_all "title:" line)))
         (last_with "title:" (split newline content)) /\
   lookup "description" (meta_data_of payload (Some content))
     = option_map
         (fun line =>
            VStr (strip whitespace (remove_all "description:" line)))
         (last_with "description:" (split newline content)) /\
   lookup "keywords" (meta_data_of payload (Some content))
     = option_map
         (fun line =>
            VList (map VStr
                     (split_keywords
                        (strip whitespace (remove_all "keywords:" line)))))
         (last_with "keywords:" (split newline content)) /\
   incl (keys (meta_data_of payload (Some content)))
     [ "title"; "description"; "keywords" ]).
Proof.
  destruct (parse_meta_lines (split newline content))
    as [Ht [Hd [Hk [Hi Hr]]]].
  unfold meta_data_of. cbv zeta. split; intros H; rewrite H in Hr.
  - rewrite Hr. cbn [truthy negb]. reflexivity.
  - rewrite Hr. cbn [negb]. repeat split; assumption.
Qed.

(** ** The keywords of the metadata *)

Lemma lstrip_count (c : ascii) (chars : list ascii) (s : string) :
  count_char c s = 0 -> count_char c (lstrip chars s) = 0.
Proof.
  induction s as [|a s IH]; simpl; [reflexivity|].
  intros H. destruct (char_in a chars); [apply IH; lia | exact H].
Qed.

Lemma rstrip_count (c : ascii) (chars : list ascii) (s : string) :
  count_char c s = 0 -> count_char c (rstrip chars s) = 0.
Proof.
  induction s as [|a s IH]; simpl; [reflexivity|].
  intros H. assert (Hs : count_char c s = 0) by lia. specialize (IH Hs).
  destruct (rstrip chars s) as [|b r].
  - destruct (char_in a chars); simpl; lia.
  - change (count_char c (String a (String b r)))
      with ((if Ascii.eqb c a then 1 else 0) + count_char c (String b r)).
    lia.
Qed.

(** X15.  The keywords read from a keywords: line are at most one more than
    the commas of the text, and each of them is a non-empty string without
    a comma that neither begins nor ends with a whitespace character. *)
Theorem split_keywords_clean (keywords_str : string) :
  List.length (split_keywords keywords_str)
    <= count_char "," keywords_str + 1 /\
  Forall (fun k =>
            k <> "" /\ count_char "," k = 0 /\
            starts_in whitespace k = false /\ ends_in whitespace k = false)
    (split_keywords keywords_str).
Proof.
  unfold split_keywords. split.
  - rewrite <- split_length.
    rewrite <- (length_map (strip whitespace) (split "," keywords_str)).
    apply filter_length_le.
  - apply Forall_forall. intros k Hk. apply filter_In in Hk.
    destruct Hk as [Hin Hne]. apply in_map_iff in Hin.
    destruct Hin as [piece [<- Hpiece]].
    pose proof (split_pieces_clean "," keywords_str) as Hclean.
    rewrite Forall_forall in Hclean. specialize (Hclean piece Hpiece).
    repeat match goal with |- _ /\ _ => split end.
    + apply negb_true_iff, String.eqb_neq in Hne. exact Hne.
    + unfold strip. apply rstrip_count, lstrip_count. exact Hclean.
    + unfold strip. apply rstrip_starts, lstrip_starts.
    + unfold strip. apply rstrip_ends.
Qed.

(** ** The size of a view *)

(** The methods above are the ranked ones, with the ranking of the
    model. *)
Lemma limit_keywords_as_ranked (keywords : val) (max_keywords : Z) :
  _limit_keywords keywords max_keywords
    = Ranked._limit_keywords sorted_keywords keywords max_keywords.
Proof.
  unfold _limit_keywords, Ranked._limit_keywords, sorted_keywords.
  destruct (negb (truthy keywords)); [reflexivity|].
  destruct keywords; reflexivity.
Qed.

Lemma build_context_as_ranked (self : ContextChunker)
    (agent_role task_stage : string) :
  build_context self agent_role task_stage
    = Ranked.build_context sorted_keywords self agent_role task_stage.
Proof.
  unfold build_context, Ranked.build_context, _get_seo_context,
    _get_content_context, Ranked._get_seo_context,
    Ranked._get_content_context.
  rewrite !limit_keywords_as_ranked. reflexivity.
Qed.

Lemma list_prefix_le {A : Type} (n : nat) (l : list A) :
  List.length (list_prefix (Z.of_nat n) l) <= n.
Proof. rewrite list_prefix_nat. apply firstn_le_length. Qed.

Lemma limit_keywords_size (sorted : val -> res (list val))
    (keywords limited : val) :
  Ranked._limit_keywords sorted keywords 5 = Ok limited ->
  size limited <= 5.
Proof.
  unfold Ranked._limit_keywords.
  destruct (truthy keywords) eqn:Ht; cbn [negb].
  - destruct (sorted keywords) as [ranked|]; [|discriminate].
    cbn [bind]. intros H. apply ok_inj in H. subst limited. cbn [size].
    apply (list_prefix_le 5).
  - intros H. apply ok_inj in H. subst limited.
    destruct keywords as [| | | s | l |]; simpl in *; try lia.
    + destruct s; [simpl; lia | discriminate Ht].
    + destruct l; [simpl; lia | discriminate Ht].
Qed.

Lemma summarize_strategy_size (strategy_output summary : val) :
  _summarize_strategy strategy_output = Ok summary ->
  size summary <= 203.
Proof.
  unfold _summarize_strategy.
  destruct (negb (truthy strategy_output)).
  - intros H. apply ok_inj in H. subst summary. cbn [size String.length]. lia.
  - destruct strategy_output as [| | | s | l |]; try discriminate;
      intros H; apply ok_inj in H; subst summary; cbn [size].
    + pose proof (str_prefix_length 200 s) as Hp.
      destruct (Nat.ltb 200 (String.length s)); [|lia].
      rewrite string_length_app. cbn [String.length]. lia.
    + pose proof (firstn_le_length 200 l) as Hp.
      destruct (Nat.ltb 200 (List.length l)); [|lia].
      rewrite length_app. cbn [List.length]. lia.
Qed.

Lemma vstr_inj (a b : string) : VStr a = VStr b -> a = b.
Proof. intros H. congruence. Qed.

Lemma limit_products_periods (products : val) (s : string) :
  _limit_products products 3 = VStr s -> count_char "." s <= 3.
Proof.
  unfold _limit_products.
  destruct (truthy products) eqn:Ht; cbn [negb].
  - destruct products as [| | | p | |]; try discriminate.
    intros H. apply vstr_inj in H. subst s.
    rewrite count_char_app, count_join_clean
      by (apply Forall_firstn, split_pieces_clean).
    pose proof (firstn_le_length 3 (split "." p)) as Hl.
    change (count_char "." ".") with 1. lia.
  - intros ->. simpl in Ht. apply negb_false_iff, String.eqb_eq in Ht.
    subst s. simpl. lia.
Qed.

Lemma bounded_adjust (agent_role : string) (context : dict) :
  bounded context -> bounded (_adjust_for_agent agent_role context).
Proof.
  intros [Hk [Hs Hp]]. unfold bounded.
  repeat match goal with |- _ /\ _ => split end.
  - intros k v Hin. rewrite adjust_for_agent_other;
      [apply Hk; exact Hin | | |];
      destruct Hin as [<-|[<-|[]]]; discriminate.
  - intros v. rewrite adjust_for_agent_other by discriminate. apply Hs.
  - intros s. rewrite adjust_for_agent_other by discriminate. apply Hp.
Qed.

Lemma some_inj {A : Type} (a b : A) : Some a = Some b -> a = b.
Proof. intros H. congruence. Qed.

Ltac eval_lookup H :=
  cbn [lookup dict_update fold_left dict_set base_context fst snd
       String.eqb Ascii.eqb Bool.eqb] in H.

Lemma bounded_rules (sorted : val -> res (list val)) (self : ContextChunker)
    (task_stage : string) (context : dict) :
  (if String.eqb task_stage "strategy" then
     _get_strategy_context self (base_context self)
   else if String.eqb task_stage "products" then
     _get_products_context self (base_context self)
   else if String.eqb task_stage "seo" then
     Ranked._get_seo_context sorted self (base_context self)
   else if String.eqb task_stage "content" then
     Ranked._get_content_context sorted self (base_context self)
   else if String.eqb task_stage "refinement" then
     _get_refinement_context self (base_context self)
   else if String.eqb task_stage "review" then
     _get_review_context self (base_context self)
   else if String.eqb task_stage "visual" then
     _get_visual_context self (base_context self)
   else Ok (base_context self)) = Ok context ->
  bounded context /\ lookup "seo_focus" context = None.
Proof.
  intros E.
  repeat match type of E with
         | context [if String.eqb task_stage ?s then _ else _] =>
             destruct (String.eqb task_stage s)
         end;
    unfold _get_strategy_context, _get_products_context,
      Ranked._get_seo_context, Ranked._get_content_context,
      _get_refinement_context, _get_review_context,
      _get_visual_context in E;
    cbv zeta in E;
    repeat match type of E with
           | bind ?m _ = _ =>
               let v := fresh "v" in
               let Ev := fresh "Ev" in
               destruct m as [v|] eqn:Ev; [cbn [bind] in E | discriminate E]
           end;
    apply ok_inj in E; subst context.
  all: split; [unfold bounded | reflexivity].
  all: repeat match goal with |- _ /\ _ => split end.
  all: try (intros k v' [<-|[<-|[]]] H; eval_lookup H; try discriminate H).
  all: try (intros v' H; eval_lookup H; try discriminate H).
  all: apply some_inj in H.
  all: try (subst v';
            first [ eapply summarize_strategy_size; eassumption
                  | eapply limit_keywords_size; eassumption ]).
  all: exact (limit_products_periods _ _ H).
Qed.

(** X16.  Whatever the Pool holds, and however [sorted] ranks its keyword
    lists or whichever of them it refuses, a view that can be built carries
    at most five entries in each keyword list, also in the seo_focus
    sub-section, a strategy summary of at most 203 characters, and a
    products text with at most three periods.  This holds of the views of
    the methods with the ranking left open, and so of the views of the
    methods above. *)
Theorem view_bounds (sorted : val -> res (list val)) (self : ContextChunker)
    (agent_role task_stage : string) (view : dict) :
  Ranked.build_context sorted self agent_role task_stage = Ok view
  \/ build_context self agent_role task_stage = Ok view ->
  bounded view /\
  (forall sub k v,
     lookup "seo_focus" view = Some (VDict sub) ->
     lookup k sub = Some v -> size v <= 5).
Proof.
  assert (Hranked : forall ranking,
    Ranked.build_context ranking self agent_role task_stage = Ok view ->
    bounded view /\
    (forall sub k v,
       lookup "seo_focus" view = Some (VDict sub) ->
       lookup k sub = Some v -> size v <= 5)).
  { intros ranking. unfold Ranked.build_context. intros H.
    match type of H with
    | bind ?m _ = _ => destruct m as [context|e] eqn:E; [|discriminate H]
    end.
    cbn [bind] in H. apply ok_inj in H. subst view.
    destruct (bounded_rules _ _ _ _ E) as [Hb Hfocus]. clear E.
    split; [apply bounded_adjust; exact Hb|].
    destruct Hb as [Hk _]. intros sub k v.
    assert (Hget : forall key,
              In key [ "theme_keywords"; "keyword_opportunities" ] ->
              size (get context key (VList [])) <= 5).
    { intros key Hin. unfold get.
      destruct (lookup key context) as [x|] eqn:El;
        [exact (Hk key x Hin El) | simpl; lia]. }
    unfold _adjust_for_agent.
    destruct (String.eqb agent_role "brand_strategist");
      [rewrite lookup_dict_set_neq, Hfocus by discriminate; discriminate|].
    destruct (String.eqb agent_role "seo_specialist").
    - rewrite lookup_dict_set_eq. intros Hsub. apply some_inj in Hsub.
      injection Hsub as <-. cbn [lookup].
      destruct (String.eqb k "theme_keywords");
        [intros Hv; apply some_inj in Hv; subst v; apply Hget; left;
         reflexivity|].
      destruct (String.eqb k "keyword_opportunities");
        [intros Hv; apply some_inj in Hv; subst v; apply Hget; right; left;
         reflexivity|].
      discriminate.
    - destruct (String.eqb agent_role "seo_copywriter");
        [rewrite lookup_dict_set_neq, Hfocus by discriminate; discriminate|].
      rewrite Hfocus. discriminate. }
  intros [H|H].
  - exact (Hranked sorted H).
  - rewrite build_context_as_ranked in H. exact (Hranked sorted_keywords H).
Qed.

(** A view within the bounds. *)
Lemma view_bounds_witness :
  exists view,
    build_context (__init__ sample_pool) "seo_specialist" "seo" = Ok view /\
    bounded view /\
    (forall sub k v,
       lookup "seo_focus" view = Some (VDict sub) ->
       lookup k sub = Some v -> size v <= 5).
Proof.
  eexists. split; [reflexivity|].
  apply (view_bounds sorted_keywords (__init__ sample_pool)
           "seo_specialist" "seo").
  right. reflexivity.
Defined.
